(** * aboi-backend: currency-rate resolution and price synthesis

    A shallow embedding of [src/services/currencyService.js] and
    [src/services/priceService.js] and of the handlers of the currency
    and admin routes that call them, and the properties of the rate
    resolver, the batch of rates, the price synthesizer, the daily update
    orchestrator, the manual editors, the lookups and these routes.

    Conventions of the embedding.
    - A JavaScript number is a [num]: NaN, the two infinities, or a finite
      value held as an exact rational.  Finite arithmetic is exact: the
      rounding, overflow and underflow of IEEE doubles and the sign of zero
      are not modelled.
    - [x.toFixed(d)] is always read back by [parseFloat] or [Number] in the
      sources; [JS.toFixed] is the number that string denotes.
    - Strings are Rocq strings; case mapping and trimming act on ASCII.
    - An [async] function is a computation over the world (tables, trace of
      operations, position in the [Math.random] stream) that either returns
      or throws; the effects made before a throw stay.  The callbacks that
      [Promise.all] runs together are interleaved at their awaits, in an
      order that the environment chooses. *)

From Stdlib Require Import ZArith QArith Qround Qabs String Ascii List Lia Lqa Bool.
From stdpp Require Import base option gmap strings list sorting.

Local Open Scope Z_scope.

(* ================================================================== *)
(** * JavaScript values                                                *)
(* ================================================================== *)

Module JS.

(** Numbers. *)
Inductive num : Type :=
| NaN
| PInf
| NInf
| Fin (q : Q).

(** Primitive values that reach the services: request fields, JSON from
    the rate provider, table cells. *)
Inductive value : Type :=
| VUndefined
| VNull
| VBool (b : bool)
| VNum (n : num)
| VStr (s : string).

Definition Qltb (a b : Q) : bool := negb (Qle_bool b a).
Definition Qzero (a : Q) : bool := Qeq_bool a 0.

Definition zero : num := Fin 0.
Definition one : num := Fin 1.

(** [Number.isFinite] on a number. *)
Definition isFinite (n : num) : bool :=
  match n with Fin _ => true | _ => false end.

(** ToBoolean on a number: [!n] is its negation. *)
Definition truthy (n : num) : bool :=
  match n with
  | NaN => false
  | Fin q => negb (Qzero q)
  | _ => true
  end.

Definition neg (a : num) : num :=
  match a with
  | NaN => NaN
  | PInf => NInf
  | NInf => PInf
  | Fin q => Fin (- q)
  end.

(** [a + b] *)
Definition add (a b : num) : num :=
  match a, b with
  | NaN, _ | _, NaN => NaN
  | PInf, NInf | NInf, PInf => NaN
  | PInf, _ | _, PInf => PInf
  | NInf, _ | _, NInf => NInf
  | Fin x, Fin y => Fin (x + y)
  end.

(** [a - b] *)
Definition sub (a b : num) : num := add a (neg b).

(** An infinity with the sign of [s * q]; NaN when [q] is zero. *)
Definition inf_times (pos : bool) (q : Q) : num :=
  if Qzero q then NaN
  else if Bool.eqb pos (Qltb 0 q) then PInf else NInf.

(** [a * b] *)
Definition mul (a b : num) : num :=
  match a, b with
  | NaN, _ | _, NaN => NaN
  | PInf, PInf | NInf, NInf => PInf
  | PInf, NInf | NInf, PInf => NInf
  | PInf, Fin q | Fin q, PInf => inf_times true q
  | NInf, Fin q | Fin q, NInf => inf_times false q
  | Fin x, Fin y => Fin (x * y)
  end.

(** [a / b]; a zero divisor is +0. *)
Definition div (a b : num) : num :=
  match a, b with
  | NaN, _ | _, NaN => NaN
  | (PInf | NInf), (PInf | NInf) => NaN
  | PInf, Fin q => if Qltb q 0 then NInf else PInf
  | NInf, Fin q => if Qltb q 0 then PInf else NInf
  | Fin _, (PInf | NInf) => Fin 0
  | Fin x, Fin y =>
      if Qzero y then
        (if Qzero x then NaN else if Qltb 0 x then PInf else NInf)
      else Fin (x / y)
  end.

(** [a < b] *)
Definition lt (a b : num) : bool :=
  match a, b with
  | NaN, _ | _, NaN => false
  | _, NInf => false
  | NInf, _ => true
  | PInf, _ => false
  | _, PInf => true
  | Fin x, Fin y => Qltb x y
  end.

(** [a <= b] *)
Definition le (a b : num) : bool :=
  match a, b with
  | NaN, _ | _, NaN => false
  | NInf, _ => true
  | _, PInf => true
  | _, NInf => false
  | PInf, _ => false
  | Fin x, Fin y => Qle_bool x y
  end.

(** [a > b] and [a >= b] *)
Definition gt (a b : num) : bool := lt b a.
Definition ge (a b : num) : bool := le b a.

(** [a === b] on numbers. *)
Definition strict_eq (a b : num) : bool :=
  match a, b with
  | PInf, PInf | NInf, NInf => true
  | Fin x, Fin y => Qeq_bool x y
  | _, _ => false
  end.

(** ** toFixed *)

Definition pow10 (d : nat) : Z := 10 ^ Z.of_nat d.

(** The integer nearest to [x], ties away from zero: Number.prototype.toFixed
    picks the larger [n] on the magnitude and restores the sign. *)
Definition round_half_away (x : Q) : Z :=
  if Qle_bool 0 x then Qfloor (x + (1 # 2))
  else - Qfloor (- x + (1 # 2)).

Definition toFixedQ (d : nat) (x : Q) : Q :=
  Qred (round_half_away (x * inject_Z (pow10 d)) # Z.to_pos (pow10 d)).

(** The number written by [n.toFixed(d)] for [0 <= d <= 100]: NaN and the
    infinities print as themselves, a finite value is rounded to [d]
    decimals.  (A double of magnitude 1e21 or more prints in full; it is
    an integer, so rounding leaves it as it is.) *)
Definition toFixed (n : num) (d : nat) : num :=
  match n with
  | Fin q => Fin (toFixedQ d q)
  | other => other
  end.

(** Truncation toward zero (ToIntegerOrInfinity on a finite value). *)
Definition Qtrunc (q : Q) : Z :=
  if Qle_bool 0 q then Qfloor q else - Qfloor (- q).

(** The digits argument of [toFixed] when it is a run-time number:
    [None] is the RangeError for a count outside 0..100. *)
Definition toFixed_digits (p : num) : option nat :=
  match p with
  | NaN => Some 0%nat
  | PInf | NInf => None
  | Fin q =>
      let k := Qtrunc q in
      if (0 <=? k) && (k <=? 100) then Some (Z.to_nat k) else None
  end.

(** ** Strings *)

Definition code (c : ascii) : Z := Z.of_N (N_of_ascii c).

(** White space and line terminators among the ASCII characters. *)
Definition is_space (c : ascii) : bool :=
  let n := code c in ((9 <=? n) && (n <=? 13)) || (n =? 32).

Fixpoint drop_space (s : list ascii) : list ascii :=
  match s with
  | c :: r => if is_space c then drop_space r else s
  | [] => []
  end.

Definition trim_chars (s : list ascii) : list ascii :=
  rev (drop_space (rev (drop_space s))).

(** [s.trim()] *)
Definition trim (s : string) : string :=
  string_of_list_ascii (trim_chars (list_ascii_of_string s)).

Definition upper_char (c : ascii) : ascii :=
  let n := code c in
  if (97 <=? n) && (n <=? 122) then ascii_of_N (N_of_ascii c - 32) else c.

(** [s.toUpperCase()] *)
Definition toUpperCase (s : string) : string :=
  string_of_list_ascii (List.map upper_char (list_ascii_of_string s)).

(** ToBoolean on a string: [!s] holds for the empty string only. *)
Definition nonempty (s : string) : bool :=
  match s with EmptyString => false | _ => true end.

(** ** Number(string) *)

Definition digit (c : ascii) : option Z :=
  let n := code c in
  if (48 <=? n) && (n <=? 57) then Some (n - 48) else None.

Definition hex_digit (c : ascii) : option Z :=
  let n := code c in
  if (48 <=? n) && (n <=? 57) then Some (n - 48)
  else if (97 <=? n) && (n <=? 102) then Some (n - 87)
  else if (65 <=? n) && (n <=? 70) then Some (n - 55)
  else None.

Definition octal_digit (c : ascii) : option Z :=
  let n := code c in
  if (48 <=? n) && (n <=? 55) then Some (n - 48) else None.

Definition binary_digit (c : ascii) : option Z :=
  let n := code c in
  if (48 <=? n) && (n <=? 49) then Some (n - 48) else None.

(** The longest run of digits at the head of [s]: its value, its length
    and what follows. *)
Fixpoint read_digits (dig : ascii -> option Z) (base : Z) (s : list ascii)
    (acc : Z) (count : nat) : Z * nat * list ascii :=
  match s with
  | c :: r =>
      match dig c with
      | Some d => read_digits dig base r (acc * base + d) (S count)
      | None => (acc, count, s)
      end
  | [] => (acc, count, [])
  end.

Definition read_sign (s : list ascii) : bool * list ascii :=
  match s with
  | "+"%char :: r => (false, r)
  | "-"%char :: r => (true, r)
  | _ => (false, s)
  end.

(** A literal with a radix prefix: digits only, at least one. *)
Definition read_radix (dig : ascii -> option Z) (base : Z) (s : list ascii) : num :=
  match read_digits dig base s 0 0%nat with
  | (v, S _, []) => Fin (inject_Z v)
  | _ => NaN
  end.

(** The exponent part, which must reach the end of the literal. *)
Definition read_exponent (s : list ascii) : option Z :=
  match s with
  | [] => Some 0
  | ("e"%char | "E"%char) :: r =>
      let (negative, r1) := read_sign r in
      match read_digits digit 10 r1 0 0%nat with
      | (v, S _, []) => Some (if negative then - v else v)
      | _ => None
      end
  | _ => None
  end.

Definition Qpow10 (e : Z) : Q :=
  if 0 <=? e then inject_Z (10 ^ e) else 1 # Z.to_pos (10 ^ (- e)).

Definition read_unsigned_decimal (s : list ascii) : num :=
  if String.eqb (string_of_list_ascii s) "Infinity" then PInf
  else
    let '(ip, ni, r1) := read_digits digit 10 s 0 0%nat in
    let '(fp, nf, r2) :=
      match r1 with
      | "."%char :: r => read_digits digit 10 r 0 0%nat
      | _ => (0, 0%nat, r1)
      end in
    match (ni + nf)%nat, read_exponent r2 with
    | S _, Some e =>
        Fin ((inject_Z ip + (fp # Z.to_pos (pow10 nf))) * Qpow10 e)
    | _, _ => NaN
    end.

(** StringToNumber: white space is trimmed, the empty string is 0, then
    a radix literal or a signed decimal literal; anything else is NaN. *)
Definition StringToNumber (str : string) : num :=
  match trim_chars (list_ascii_of_string str) with
  | [] => Fin 0
  | "0"%char :: ("x"%char | "X"%char) :: r => read_radix hex_digit 16 r
  | "0"%char :: ("o"%char | "O"%char) :: r => read_radix octal_digit 8 r
  | "0"%char :: ("b"%char | "B"%char) :: r => read_radix binary_digit 2 r
  | s =>
      let (negative, r) := read_sign s in
      let v := read_unsigned_decimal r in
      if negative then neg v else v
  end.

(** [Number(v)] *)
Definition Number (v : value) : num :=
  match v with
  | VUndefined => NaN
  | VNull => Fin 0
  | VBool b => if b then Fin 1 else Fin 0
  | VNum n => n
  | VStr s => StringToNumber s
  end.

(** ToBoolean: the test of [if (v)], [!v] and [v ? a : b]. *)
Definition ToBoolean (v : value) : bool :=
  match v with
  | VUndefined | VNull => false
  | VBool b => b
  | VNum n => truthy n
  | VStr s => nonempty s
  end.

(** [v === null || v === undefined] *)
Definition nullish (v : value) : bool :=
  match v with VUndefined | VNull => true | _ => false end.

(** ** Searching and replacing in strings *)

(** What follows [pattern] at the head of [s], when [s] starts with it. *)
Fixpoint drop_prefix (pattern s : string) : option string :=
  match pattern, s with
  | EmptyString, _ => Some s
  | String a p, String b r => if Ascii.eqb a b then drop_prefix p r else None
  | String _ _, EmptyString => None
  end.

(** The first occurrence of [pattern] in [s], as the parts of [s] before
    and after it: [s.indexOf(pattern)] is the length of the first part. *)
Fixpoint search (pattern s : string) : option (string * string) :=
  match drop_prefix pattern s with
  | Some after => Some (EmptyString, after)
  | None =>
      match s with
      | EmptyString => None
      | String c rest =>
          match search pattern rest with
          | Some (before, after) => Some (String c before, after)
          | None => None
          end
      end
  end.

(** [s.includes(pattern)] *)
Definition includes (s pattern : string) : bool :=
  match search pattern s with Some _ => true | None => false end.

(** GetSubstitution for a pattern that is a string, which captures
    nothing: in the replacement, [$$] is a dollar sign, [$&] the match,
    [$`] and [$'] what comes before and after it, and every other
    character stands for itself. *)
Fixpoint GetSubstitution (matched before after template : string) : string :=
  match template with
  | EmptyString => EmptyString
  | String c rest =>
      let literal := String c (GetSubstitution matched before after rest) in
      if Ascii.eqb c "$" then
        match rest with
        | String d rest' =>
            let tail := GetSubstitution matched before after rest' in
            if Ascii.eqb d "$" then String "$" tail
            else if Ascii.eqb d "&" then String.append matched tail
            else if Ascii.eqb d "`" then String.append before tail
            else if Ascii.eqb d "'" then String.append after tail
            else literal
        | EmptyString => literal
        end
      else literal
  end.

(** [s.replace(pattern, replacement)] with a string for pattern: the
    first occurrence only. *)
Definition replace (s pattern replacement : string) : string :=
  match search pattern s with
  | Some (before, after) =>
      String.append before
        (String.append (GetSubstitution pattern before after replacement) after)
  | None => s
  end.

(** [s.replace(/\/$/, '')]: one slash at the very end is removed. *)
Definition drop_final_slash (s : string) : string :=
  match rev (list_ascii_of_string s) with
  | "/"%char :: r => string_of_list_ascii (rev r)
  | _ => s
  end.

(** ** Math.min and Math.max *)

Definition min2 (a b : num) : num :=
  match a, b with
  | NaN, _ | _, NaN => NaN
  | _, _ => if lt b a then b else a
  end.

Definition max2 (a b : num) : num :=
  match a, b with
  | NaN, _ | _, NaN => NaN
  | _, _ => if lt a b then b else a
  end.

(** [Math.min(...values)] and [Math.max(...values)] *)
Definition Math_min (values : list num) : num := fold_left min2 values PInf.
Definition Math_max (values : list num) : num := fold_left max2 values NInf.

(** ** isNaN and parseFloat *)

(** [isNaN(v)], on the number that [v] converts to. *)
Definition isNaN (n : num) : bool :=
  match n with NaN => true | _ => false end.

(** The value of the exponent part at the head of [s]; 0 when no whole
    exponent part stands there. *)
Definition read_exponent_prefix (s : list ascii) : Z :=
  match s with
  | ("e"%char | "E"%char) :: r =>
      let (negative, r1) := read_sign r in
      match read_digits digit 10 r1 0 0%nat with
      | (v, S _, _) => if negative then - v else v
      | _ => 0
      end
  | _ => 0
  end.

(** The longest unsigned decimal literal at the head of [s]; what follows
    it is ignored. *)
Definition read_decimal_prefix (s : list ascii) : num :=
  match drop_prefix "Infinity" (string_of_list_ascii s) with
  | Some _ => PInf
  | None =>
      let '(ip, ni, r1) := read_digits digit 10 s 0 0%nat in
      let '(fp, nf, r2) :=
        match r1 with
        | "."%char :: r => read_digits digit 10 r 0 0%nat
        | _ => (0, 0%nat, r1)
        end in
      match (ni + nf)%nat with
      | S _ =>
          Fin ((inject_Z ip + (fp # Z.to_pos (pow10 nf)))
               * Qpow10 (read_exponent_prefix r2))
      | O => NaN
      end
  end.

(** [parseFloat(str)]: white space at the head is dropped, then the
    longest prefix that is a signed decimal literal is read; NaN when
    there is none. *)
Definition parseFloat (str : string) : num :=
  let (negative, r) := read_sign (drop_space (list_ascii_of_string str)) in
  let v := read_decimal_prefix r in
  if negative then neg v else v.

End JS.

(* ================================================================== *)
(** * Errors, outcomes and the world                                   *)
(* ================================================================== *)

(** A thrown value: an [Error] of JavaScript or the error object of the
    table store, which carries [message], [code], [details] and [hint]. *)
Record js_error : Type := {
  err_name : string;
  err_message : string;
  err_code : option string;
  err_details : option string;
  err_hint : option string
}.

Definition make_error (name message : string) : js_error :=
  {| err_name := name; err_message := message;
     err_code := None; err_details := None; err_hint := None |}.

(** [new Error(message)] *)
Definition Error (message : string) : js_error := make_error "Error" message.
Definition RangeError (message : string) : js_error := make_error "RangeError" message.
Definition ReferenceError (message : string) : js_error := make_error "ReferenceError" message.

Inductive outcome (A : Type) : Type :=
| Returns (a : A)
| Throws (e : js_error).
Arguments Returns {A} a.
Arguments Throws {A} e.

(** ** Tables *)

Record ExchangeRate : Type := {
  from_currency : string;
  to_currency : string;
  rate : JS.num;
  recorded_at : Z;
  source : string
}.

Record Commodity : Type := {
  commodity_name : string;
  commodity_symbol : string;
  commodity_is_active : bool
}.

Record PriceRange : Type := {
  range_commodity_id : string;
  min_price_zar : JS.value;
  max_price_zar : JS.value;
  min_price_usd : JS.value;
  max_price_usd : JS.value;
  range_is_active : bool;
  updated_by : option string;
  updated_at : Z
}.

Record CurrentPrice : Type := {
  current_price_zar : JS.num;
  current_price_usd : JS.num;
  current_exchange_rate : JS.num;
  change_24h_percent : JS.num;
  last_updated : Z
}.

Record PriceHistory : Type := {
  history_commodity_id : string;
  history_price_zar : JS.num;
  history_price_usd : JS.num;
  history_exchange_rate : JS.num;
  recorded_date : Z
}.

Record PriceUpdateRun : Type := {
  executed_at : Z;
  triggered_by : option string;
  trigger_source : string;
  total_commodities : nat;
  updated_commodities : nat;
  status : string;
  notes : option string
}.

(** Modelled from the spec: the table store behind [supabase.getAdminClient()]
    (the module [../supabase] is not among the sources, only its callers
    are).  Section 6 gives it [select], [insert] and [upsert], each
    answering [(data, error)], with [commodity_id] unique in CurrentPrice
    and PriceRange.  [exchange_rates], [price_history] and
    [price_update_runs] are logs in insertion order; [current_prices] is
    keyed by commodity id; [price_ranges] keeps its rows in table order. *)
Record store : Type := {
  exchange_rates : list ExchangeRate;
  commodities : gmap string Commodity;
  price_ranges : list PriceRange;
  current_prices : gmap string CurrentPrice;
  price_history : list PriceHistory;
  price_update_runs : list PriceUpdateRun
}.

(** The places where the services call the store. *)
Inductive db_op : Type :=
| SelectCachedRate (from to : string)
| SelectStaleRate (from to : string)
| InsertRate (from to source : string)
| SelectActiveRanges
| SelectCurrentPrice (commodity : string)
| UpsertCurrentPrice (commodity : string)
| InsertHistory (commodity : string)
| InsertRun
| UpsertRange (commodity : string).

(** What the operations of one call did, oldest first. *)
Inductive event : Type :=
| Db (op : db_op)
| Fetch (base : string).

(** How a store call goes wrong: it answers [{ error }], or it throws. *)
Inductive fault : Type :=
| NoFault
| ErrorResult (e : js_error)
| Exception (e : js_error).

(** Everything outside the process during one call. *)
Record environment : Type := {
  (** [Date.now()], in milliseconds *)
  now : Z;
  (** [supabase.getAdminClient()] throws this, when set *)
  admin_client : option js_error;
  fault_of : db_op -> fault;
  (** the provider's answer for a base currency: [None] when the request
      fails (network, time-out, status, URL not configured), else the
      [rates] object of the response, empty when the response has none *)
  provider : string -> option (gmap string JS.value);
  (** the successive results of [Math.random()] *)
  random : nat -> Q;
  (** the order in which the awaited calls of the fan-out of a daily
      cycle complete, each named by the index of its callback; what the
      list leaves out completes afterwards *)
  schedule : list nat
}.

Record world : Type := {
  db : store;
  trace : list event;
  drawn : nat
}.

Definition with_db (s : store) (w : world) : world :=
  {| db := s; trace := trace w; drawn := drawn w |}.

Definition record_event (e : event) (w : world) : world :=
  {| db := db w; trace := trace w ++ [e]; drawn := drawn w |}.

(** ** Computations *)

Definition M (A : Type) : Type := world -> outcome A * world.

Definition ret {A} (a : A) : M A := fun w => (Returns a, w).

Definition throw {A} (e : js_error) : M A := fun w => (Throws e, w).

Definition bind {A B} (m : M A) (k : A -> M B) : M B :=
  fun w =>
    match m w with
    | (Returns a, w') => k a w'
    | (Throws e, w') => (Throws e, w')
    end.

(** [try { m } catch (error) { handler error }] *)
Definition try_catch {A} (m : M A) (handler : js_error -> M A) : M A :=
  fun w =>
    match m w with
    | (Returns a, w') => (Returns a, w')
    | (Throws e, w') => handler e w'
    end.

Definition lift {A} (o : outcome A) : M A := fun w => (o, w).

Notation "'let*' x ':=' m 'in' k" := (bind m (fun x => k))
  (at level 10, x name, m at level 100, k at level 200, only parsing).
Notation "'await' m 'in' k" := (bind m (fun _ => k))
  (at level 10, m at level 100, k at level 200, only parsing).

(** [a ?? b] where null is [None]. *)
Definition nullish_or {A} (a : option A) (b : A) : A :=
  match a with Some x => x | None => b end.
Infix "??" := nullish_or (at level 45, left associativity).

(** A number, or null, used as a condition: [if (rate)]. *)
Definition if_truthy (o : option JS.num) : option JS.num :=
  match o with
  | Some n => if JS.truthy n then Some n else None
  | None => None
  end.

Section Store.

Context (env : environment).

(** [this.adminClient()] *)
Definition adminClient : M unit :=
  match admin_client env with
  | Some e => throw e
  | None => ret tt
  end.

(** One awaited call on the client: the answer is [inl data] or
    [inr error]. *)
Definition call {A} (op : db_op) (run : store -> A * store) : M (A + js_error) :=
  fun w =>
    let w1 := record_event (Db op) w in
    match fault_of env op with
    | NoFault => let (a, s) := run (db w1) in (Returns (inl a), with_db s w1)
    | ErrorResult e => (Returns (inr e), w1)
    | Exception e => (Throws e, w1)
    end.

Definition reading {A} (f : store -> A) : store -> A * store :=
  fun s => (f s, s).

Definition writing (f : store -> store) : store -> unit * store :=
  fun s => (tt, f s).

(** [.eq('from_currency', from).eq('to_currency', to)
     .order('recorded_at', { ascending: false }).limit(1)] *)
Definition newer (best : option ExchangeRate) (r : ExchangeRate) : option ExchangeRate :=
  match best with
  | None => Some r
  | Some b => if recorded_at b <? recorded_at r then Some r else Some b
  end.

Definition latest_rate (from to : string) (s : store) : option ExchangeRate :=
  foldl newer None
    (filter (fun r => from_currency r = from /\ to_currency r = to) (exchange_rates s)).

(** [.insert({ from_currency, to_currency, rate, source })]; the column
    [recorded_at] takes the time of the insert. *)
Definition insert_rate (from to : string) (r : JS.num) (src : string) (s : store) : store :=
  {| exchange_rates := exchange_rates s ++
       [{| from_currency := from; to_currency := to; rate := r;
           recorded_at := now env; source := src |}];
     commodities := commodities s;
     price_ranges := price_ranges s;
     current_prices := current_prices s;
     price_history := price_history s;
     price_update_runs := price_update_runs s |}.

(** [.upsert(row, { onConflict: 'commodity_id' })] on current_prices *)
Definition upsert_current (commodity : string) (row : CurrentPrice) (s : store) : store :=
  {| exchange_rates := exchange_rates s;
     commodities := commodities s;
     price_ranges := price_ranges s;
     current_prices := <[commodity := row]> (current_prices s);
     price_history := price_history s;
     price_update_runs := price_update_runs s |}.

Definition insert_history (row : PriceHistory) (s : store) : store :=
  {| exchange_rates := exchange_rates s;
     commodities := commodities s;
     price_ranges := price_ranges s;
     current_prices := current_prices s;
     price_history := price_history s ++ [row];
     price_update_runs := price_update_runs s |}.

Definition insert_run (row : PriceUpdateRun) (s : store) : store :=
  {| exchange_rates := exchange_rates s;
     commodities := commodities s;
     price_ranges := price_ranges s;
     current_prices := current_prices s;
     price_history := price_history s;
     price_update_runs := price_update_runs s ++ [row] |}.

(** The row of a commodity is replaced where it stands, or added. *)
Fixpoint upsert_row (row : PriceRange) (rows : list PriceRange) : list PriceRange :=
  match rows with
  | [] => [row]
  | r :: rest =>
      if String.eqb (range_commodity_id r) (range_commodity_id row)
      then row :: rest
      else r :: upsert_row row rest
  end.

Definition upsert_range (row : PriceRange) (s : store) : store :=
  {| exchange_rates := exchange_rates s;
     commodities := commodities s;
     price_ranges := upsert_row row (price_ranges s);
     current_prices := current_prices s;
     price_history := price_history s;
     price_update_runs := price_update_runs s |}.

(** [.select('..., commodities!inner(id, name, symbol, is_active)')
     .eq('is_active', true)]: the active ranges, each with its
    commodity; a range without one is left out by the inner join. *)
Definition join_commodity (s : store) (r : PriceRange) : option (PriceRange * Commodity) :=
  match commodities s !! range_commodity_id r with
  | Some c => Some (r, c)
  | None => None
  end.

Definition select_active_ranges (s : store) : list (PriceRange * Commodity) :=
  omap (join_commodity s) (filter (fun r => range_is_active r = true) (price_ranges s)).

End Store.

(* ================================================================== *)
(** * currencyService.js                                               *)
(* ================================================================== *)

Module CurrencyService.

(** The fields of the service that rate resolution reads.  [apiUrl] and
    [apiKey] only shape the request, which [provider] answers. *)
Record t : Type := {
  fallbackRate : JS.num;
  fallbackBaseFrom : string;
  fallbackBaseTo : string;
  fallbackInversePrecision : JS.num
}.

(** [normaliseCurrencyCode(code)]: [String(code || '').trim().toUpperCase()]
    on a string. *)
Definition normaliseCurrencyCode (code : string) : string :=
  JS.toUpperCase (JS.trim code).

(** The variables of [process.env] that the constructor reads. *)
Record process_env : Type := {
  CURRENCY_FALLBACK_RATE : option string;
  CURRENCY_FALLBACK_BASE_FROM : option string;
  CURRENCY_FALLBACK_BASE_TO : option string;
  CURRENCY_FALLBACK_INVERSE_PRECISION : option string
}.

(** [process.env.X || fallback]: unset and empty both give the fallback. *)
Definition env_or {A} (x : option string) (set : string -> A) (unset : A) : A :=
  match x with
  | Some s => if JS.nonempty s then set s else unset
  | None => unset
  end.

Definition constructor (e : process_env) : t :=
  {| fallbackRate :=
       env_or (CURRENCY_FALLBACK_RATE e) JS.StringToNumber (JS.Fin 0.054%Q);
     fallbackBaseFrom :=
       normaliseCurrencyCode (env_or (CURRENCY_FALLBACK_BASE_FROM e) id "ZAR");
     fallbackBaseTo :=
       normaliseCurrencyCode (env_or (CURRENCY_FALLBACK_BASE_TO e) id "USD");
     fallbackInversePrecision :=
       env_or (CURRENCY_FALLBACK_INVERSE_PRECISION e) JS.StringToNumber (JS.Fin 6) |}.

(** [module.exports = new CurrencyService()] in a process started with
    none of the variables set. *)
Definition service : t :=
  constructor {| CURRENCY_FALLBACK_RATE := None;
                 CURRENCY_FALLBACK_BASE_FROM := None;
                 CURRENCY_FALLBACK_BASE_TO := None;
                 CURRENCY_FALLBACK_INVERSE_PRECISION := None |}.

Section Methods.

Context (this : t) (env : environment).

(** [fetchExchangeRateFromAPI(fromCurrency, toCurrency)]: the rate, or
    null after any failure. *)
Definition fetchExchangeRateFromAPI (fromCurrency toCurrency : string) : M (option JS.num) :=
  fun w =>
    let w1 := record_event (Fetch fromCurrency) w in
    match provider env fromCurrency with
    | Some rates =>
        let rate := default JS.VUndefined (rates !! toCurrency) in
        if JS.ToBoolean rate then (Returns (Some (JS.Number rate)), w1)
        else (Returns None, w1)
    | None => (Returns None, w1)
    end.

(** The constant [precision] of [resolveFallbackRate]. *)
Definition precision : JS.num :=
  if JS.isFinite (fallbackInversePrecision this)
     && JS.ge (fallbackInversePrecision this) (JS.Fin 0)
  then fallbackInversePrecision this
  else JS.Fin 6.

(** [resolveFallbackRate(fromCurrency, toCurrency)] *)
Definition resolveFallbackRate (fromCurrency toCurrency : string) : outcome (option JS.num) :=
  if negb (JS.truthy (fallbackRate this)) || negb (JS.isFinite (fallbackRate this))
  then Returns None
  else
    let from := normaliseCurrencyCode fromCurrency in
    let to := normaliseCurrencyCode toCurrency in
    if negb (JS.nonempty from) || negb (JS.nonempty to) then Returns None
    else if String.eqb from to then Returns (Some (JS.Fin 1))
    else if String.eqb from (fallbackBaseFrom this) && String.eqb to (fallbackBaseTo this)
    then Returns (Some (fallbackRate this))
    else if String.eqb from (fallbackBaseTo this) && String.eqb to (fallbackBaseFrom this)
    then
      match JS.toFixed_digits precision with
      | Some digits =>
          Returns (Some (JS.toFixed (JS.div (JS.Fin 1) (fallbackRate this)) digits))
      | None => Throws (RangeError "toFixed() digits argument must be between 0 and 100")
      end
    else Returns None.

(** [getCachedExchangeRate(fromCurrency, toCurrency)]: the newest row of
    the pair when it is under four hours old, else null. *)
Definition getCachedExchangeRate (fromCurrency toCurrency : string) : M (option JS.num) :=
  let from := normaliseCurrencyCode fromCurrency in
  let to := normaliseCurrencyCode toCurrency in
  try_catch
    (await adminClient env in
     let* answer := call env (SelectCachedRate from to) (reading (latest_rate from to)) in
     match answer with
     | inr error => throw error
     | inl None => ret None
     | inl (Some cached) =>
         let ageHours :=
           JS.div (JS.sub (JS.Fin (inject_Z (now env)))
                          (JS.Fin (inject_Z (recorded_at cached))))
                  (JS.Fin (inject_Z (1000 * 60 * 60))) in
         if JS.lt ageHours (JS.Fin 4) then ret (Some (rate cached))
         else ret None
     end)
    (fun error => ret None).

(** [saveExchangeRate(fromCurrency, toCurrency, rate, source)]: failures
    are logged, never thrown. *)
Definition saveExchangeRate (fromCurrency toCurrency : string) (r : JS.num)
    (src : string) : M unit :=
  let from := normaliseCurrencyCode fromCurrency in
  let to := normaliseCurrencyCode toCurrency in
  try_catch
    (await adminClient env in
     let* answer := call env (InsertRate from to src) (writing (insert_rate env from to r src)) in
     match answer with
     | inr error => throw error
     | inl _ => ret tt
     end)
    (fun error => ret tt).

(** [getCurrencyRate(fromCurrency, toCurrency)] *)
Definition getCurrencyRate (fromCurrency toCurrency : string) : M JS.num :=
  let from := normaliseCurrencyCode fromCurrency in
  let to := normaliseCurrencyCode toCurrency in
  try_catch
    (if negb (JS.nonempty from) || negb (JS.nonempty to)
     then throw (Error "Invalid currency codes supplied")
     else if String.eqb from to then ret (JS.Fin 1)
     else
       let* cachedRate := getCachedExchangeRate from to in
       match if_truthy cachedRate with
       | Some cachedRate => ret cachedRate
       | None =>
           let* apiRate := fetchExchangeRateFromAPI from to in
           match if_truthy apiRate with
           | Some apiRate =>
               await saveExchangeRate from to apiRate "api" in
               ret apiRate
           | None =>
               await adminClient env in
               let* answer := call env (SelectStaleRate from to) (reading (latest_rate from to)) in
               match answer with
               | inl (Some row) => ret (rate row)
               | _ =>
                   let* resolved := lift (resolveFallbackRate from to) in
                   let fallbackResolved := resolved ?? fallbackRate this in
                   if negb (JS.truthy fallbackResolved) || negb (JS.isFinite fallbackResolved)
                   then throw (Error "Fallback exchange rate unavailable")
                   else
                     await saveExchangeRate from to fallbackResolved "fallback" in
                     ret fallbackResolved
               end
           end
       end)
    (fun error =>
       let* resolved := lift (resolveFallbackRate fromCurrency toCurrency) in
       ret (resolved ?? fallbackRate this)).


End Methods.


(** ** Requests to the rate provider *)

(** The fields of the service that shape a request. *)
Record request_settings : Type := {
  apiUrl : string;
  apiKey : option string;
  rateTableTtlMs : JS.num
}.

(** The variables of [process.env] that these fields come from. *)
Record request_env : Type := {
  CURRENCY_API_URL : option string;
  CURRENCY_API_KEY : option string;
  CURRENCY_TABLE_CACHE_TTL_MS : option string
}.

Definition request_constructor (e : request_env) : request_settings :=
  {| apiUrl := env_or (CURRENCY_API_URL e) id "https://api.exchangerate-api.com/v4/latest";
     apiKey := CURRENCY_API_KEY e;
     rateTableTtlMs :=
       env_or (CURRENCY_TABLE_CACHE_TTL_MS e) JS.StringToNumber
         (JS.Fin (inject_Z (1000 * 60 * 15))) |}.

(** An entry of [rateTableCache]. *)
Record cached_table : Type := {
  fetchedAt : Z;
  table_rates : gmap string JS.value
}.

(** [cacheKey(baseCurrency)] *)
Definition cacheKey (baseCurrency : string) : string :=
  normaliseCurrencyCode baseCurrency.

Section Requests.

Context (settings : request_settings).

(** [this.apiKey] used as a condition: unset and empty are both false. *)
Definition key : option string :=
  match apiKey settings with
  | Some k => if JS.nonempty k then Some k else None
  | None => None
  end.

(** [buildLatestUrl(fromCurrency)] *)
Definition buildLatestUrl (fromCurrency : string) : outcome string :=
  let base := JS.trim (apiUrl settings) in
  if negb (JS.nonempty base) then Throws (Error "CURRENCY_API_URL is not configured")
  else
    let base := JS.drop_final_slash base in
    if JS.includes base "exchangerate-api.com/v6" then
      match key with
      | None => Throws (Error "CURRENCY_API_KEY is required for ExchangeRate-API v6")
      | Some apiKey =>
          Returns (String.append base (String.append "/" (String.append apiKey
                    (String.append "/latest/" fromCurrency))))
      end
    else if JS.includes base "{API_KEY}" then
      match key with
      | None => Throws (Error "CURRENCY_API_KEY is required for the configured API URL")
      | Some apiKey =>
          Returns (String.append (JS.replace base "{API_KEY}" apiKey)
                     (String.append "/" fromCurrency))
      end
    else
      let url := String.append base (String.append "/" fromCurrency) in
      match key with
      | Some apiKey =>
          let separator := if JS.includes url "?" then "&" else "?" in
          Returns (String.append url (String.append separator
                     (String.append "access_key=" apiKey)))
      | None => Returns url
      end.

(** [axios.get(url, ...)] as [fetchRateTable] sees it: the [rates] object
    of the response, or [None] when the request fails or the response
    has no such object, which both end in the [catch] block. *)
Context (env : environment) (axios_get : string -> option (gmap string JS.value)).

(** [fetchRateTable(fromCurrency)] over [this.rateTableCache]: the table or
    null, and the cache afterwards. *)
Definition fetchRateTable (fromCurrency : string) (rateTableCache : gmap string cached_table)
    : option (gmap string JS.value) * gmap string cached_table :=
  let cacheKey := cacheKey fromCurrency in
  let request :=
    match buildLatestUrl fromCurrency with
    | Returns url =>
        match axios_get url with
        | Some rates =>
            (Some rates,
             <[cacheKey := {| fetchedAt := now env; table_rates := rates |}]> rateTableCache)
        | None => (None, rateTableCache)
        end
    | Throws error => (None, rateTableCache)
    end in
  match rateTableCache !! cacheKey with
  | Some cached =>
      if JS.lt (JS.sub (JS.Fin (inject_Z (now env))) (JS.Fin (inject_Z (fetchedAt cached))))
               (rateTableTtlMs settings)
      then (Some (table_rates cached), rateTableCache)
      else request
  | None => request
  end.

End Requests.

(** [[...new Set(values)]]: the values, each at its first occurrence. *)
Fixpoint Set_values (values seen : list string) : list string :=
  match values with
  | [] => []
  | v :: rest =>
      if existsb (String.eqb v) seen then Set_values rest seen
      else v :: Set_values rest (v :: seen)
  end.

(** The constant [distinctTargets] of [getCurrencyRates], for an array of
    strings, which is what the route passes. *)
Definition distinctTargets (targetCurrencies : list string) : list string :=
  Set_values
    (List.map (fun code => JS.toUpperCase (JS.trim code))
       (List.filter JS.nonempty targetCurrencies))
    [].

(** ** getCurrencyRates

    The two fan-outs are cut at their awaits, as the fan-out of the daily
    cycle is below: a call to the store or to the provider takes effect
    when the function that awaits it is resumed.  Every key read in
    [result] or in the table is in upper case, which no property that an
    object inherits is. *)

(** The shared variables of a call of [getCurrencyRates]. *)
Record gathered : Type := {
  result : gmap string JS.num;
  missingTargets : list string
}.

(** A call of [getCurrencyRate] between two steps: settled with its
    value, or suspended at one of its awaits. *)
Inductive rate_call : Type :=
| Resolved (rate : JS.num)
| AwaitsCached (fromCurrency toCurrency : string)
| AwaitsProvider (fromCurrency toCurrency : string)
| AwaitsStale (fromCurrency toCurrency : string)
| AwaitsSave (fromCurrency toCurrency : string) (rate : JS.num) (source : string).

Definition is_resolved (c : rate_call) : bool :=
  match c with Resolved _ => true | _ => false end.

(** What completes during the second fan-out: the insert of a rate found
    in the table, or the awaited call of a [getCurrencyRate]. *)
Inductive completion : Type :=
| SaveDone (i : nat)
| CallDone (i : nat).

(** The second fan-out between two steps: the inserts not yet complete,
    the calls of [getCurrencyRate] with their targets, and [result]. *)
Record pool : Type := {
  saves : list (option (string * JS.num));
  calls : list (string * rate_call);
  rates : gmap string JS.num
}.

Section Batch.

Context (this : t) (settings : request_settings) (env : environment)
        (axios_get : string -> option (gmap string JS.value))
        (lookups : list nat) (completions : list completion).

(** The [catch] block of [getCurrencyRate]. *)
Definition rate_handler (fromCurrency toCurrency : string) : M rate_call :=
  let* resolved := lift (resolveFallbackRate this fromCurrency toCurrency) in
  ret (Resolved (resolved ?? fallbackRate this)).

(** [getCurrencyRate] from its start to its first await. *)
Definition launch_rate (fromCurrency toCurrency : string) : M rate_call :=
  let from := normaliseCurrencyCode fromCurrency in
  let to := normaliseCurrencyCode toCurrency in
  if negb (JS.nonempty from) || negb (JS.nonempty to)
  then rate_handler fromCurrency toCurrency
  else if String.eqb from to then ret (Resolved (JS.Fin 1))
  else ret (AwaitsCached fromCurrency toCurrency).

(** [getCurrencyRate] from one await to the next, or to its end. *)
Definition resume_rate (c : rate_call) : M rate_call :=
  match c with
  | Resolved rate => ret (Resolved rate)
  | AwaitsCached fromCurrency toCurrency =>
      let from := normaliseCurrencyCode fromCurrency in
      let to := normaliseCurrencyCode toCurrency in
      let* cachedRate := getCachedExchangeRate env from to in
      match if_truthy cachedRate with
      | Some cachedRate => ret (Resolved cachedRate)
      | None => ret (AwaitsProvider fromCurrency toCurrency)
      end
  | AwaitsProvider fromCurrency toCurrency =>
      let from := normaliseCurrencyCode fromCurrency in
      let to := normaliseCurrencyCode toCurrency in
      let* apiRate := fetchExchangeRateFromAPI env from to in
      match if_truthy apiRate with
      | Some apiRate => ret (AwaitsSave fromCurrency toCurrency apiRate "api")
      | None => ret (AwaitsStale fromCurrency toCurrency)
      end
  | AwaitsStale fromCurrency toCurrency =>
      let from := normaliseCurrencyCode fromCurrency in
      let to := normaliseCurrencyCode toCurrency in
      try_catch
        (await adminClient env in
         let* answer := call env (SelectStaleRate from to) (reading (latest_rate from to)) in
         match answer with
         | inl (Some row) => ret (Resolved (rate row))
         | _ =>
             let* resolved := lift (resolveFallbackRate this from to) in
             let fallbackResolved := resolved ?? fallbackRate this in
             if negb (JS.truthy fallbackResolved) || negb (JS.isFinite fallbackResolved)
             then throw (Error "Fallback exchange rate unavailable")
             else ret (AwaitsSave fromCurrency toCurrency fallbackResolved "fallback")
         end)
        (fun error => rate_handler fromCurrency toCurrency)
  | AwaitsSave fromCurrency toCurrency rate source =>
      let from := normaliseCurrencyCode fromCurrency in
      let to := normaliseCurrencyCode toCurrency in
      await saveExchangeRate env from to rate source in
      ret (Resolved rate)
  end.

(** The callback of the first fan-out, from the completion of its lookup
    to its end. *)
Definition gather (base target : string) (g : gathered) : M gathered :=
  let* cachedRate := getCachedExchangeRate env base target in
  match if_truthy cachedRate with
  | Some cachedRate =>
      ret {| result := <[target := cachedRate]> (result g);
             missingTargets := missingTargets g |}
  | None =>
      ret {| result := result g;
             missingTargets := missingTargets g ++ [target] |}
  end.

(** The lookup of callback [i] completes. *)
Definition lookup_at (base : string) (i : nat) (f : list (option string) * gathered)
    : M (list (option string) * gathered) :=
  match fst f !! i with
  | Some (Some target) =>
      let* g := gather base target (snd f) in
      ret (<[i := None]> (fst f), g)
  | _ => ret f
  end.

Fixpoint lookup_each (base : string) (order : list nat)
    (f : list (option string) * gathered) : M (list (option string) * gathered) :=
  match order with
  | [] => ret f
  | i :: rest =>
      let* f' := lookup_at base i f in
      lookup_each base rest f'
  end.

(** The first [await Promise.all(...)]: the lookups complete in the order
    of [lookups], then the remaining ones callback by callback. *)
Definition first_fan_out (base : string) (distinctTargets : list string) : M gathered :=
  let* scheduled :=
    lookup_each base lookups
      (List.map Some distinctTargets, {| result := ∅; missingTargets := [] |}) in
  let* settled := lookup_each base (seq 0 (length distinctTargets)) scheduled in
  ret (snd settled).

(** [missingTargets.forEach(...)] over the table: a rate that is a number
    goes to [result], and its insert is started. *)
Definition from_table (table : gmap string JS.value) (missingTargets : list string)
    (result : gmap string JS.num) : gmap string JS.num * list (string * JS.num) :=
  fold_left
    (fun acc target =>
       match table !! target with
       | Some (JS.VNum rate) => (<[target := rate]> (fst acc), snd acc ++ [(target, rate)])
       | _ => acc
       end)
    missingTargets (result, []).

(** The callback of the second fan-out after its call has settled. *)
Definition settle (target : string) (c : rate_call) (result : gmap string JS.num)
    : gmap string JS.num :=
  match c with
  | Resolved rate => if JS.truthy rate then <[target := rate]> result else result
  | _ => result
  end.

(** [unresolved.map(callback)]: every call runs to its first await. *)
Fixpoint launch_calls (base : string) (unresolved : list string)
    (result : gmap string JS.num) : M (list (string * rate_call) * gmap string JS.num) :=
  match unresolved with
  | [] => ret ([], result)
  | target :: rest =>
      let* c := launch_rate base target in
      let* others := launch_calls base rest (settle target c result) in
      ret ((target, c) :: fst others, snd others)
  end.

(** One completion; once every call has settled the function has
    returned, and what completes later is not part of the call. *)
Definition complete (base : string) (c : completion) (p : pool) : M pool :=
  if forallb (fun tc => is_resolved (snd tc)) (calls p) then ret p
  else
    match c with
    | SaveDone i =>
        match saves p !! i with
        | Some (Some (target, rate)) =>
            await saveExchangeRate env base target rate "api_batch" in
            ret {| saves := <[i := None]> (saves p); calls := calls p; rates := rates p |}
        | _ => ret p
        end
    | CallDone i =>
        match calls p !! i with
        | Some (target, c) =>
            let* c' := resume_rate c in
            ret {| saves := saves p;
                   calls := <[i := (target, c')]> (calls p);
                   rates := settle target c' (rates p) |}
        | None => ret p
        end
    end.

Fixpoint complete_each (base : string) (order : list completion) (p : pool) : M pool :=
  match order with
  | [] => ret p
  | c :: rest =>
      let* p' := complete base c p in
      complete_each base rest p'
  end.

(** The second [await Promise.all(...)], with the inserts that the
    [forEach] started still under way: completions come in the order of
    [completions], then the remaining calls proceed one by one; four
    rounds settle every call. *)
Definition second_fan_out (base : string) (unresolved : list string)
    (started : list (string * JS.num)) (result : gmap string JS.num)
    : M (gmap string JS.num) :=
  let* launched := launch_calls base unresolved result in
  let* scheduled :=
    complete_each base completions
      {| saves := List.map Some started; calls := fst launched; rates := snd launched |} in
  let round := List.map CallDone (seq 0 (length unresolved)) in
  let* settled := complete_each base (round ++ round ++ round ++ round) scheduled in
  ret (rates settled).

(** [getCurrencyRates(fromCurrency, targetCurrencies)] for an array of
    strings, over [this.rateTableCache]: the object returned and the
    cache afterwards. *)
Definition getCurrencyRates (fromCurrency : string) (targetCurrencies : list string)
    (rateTableCache : gmap string cached_table)
    : M (gmap string JS.num * gmap string cached_table) :=
  let base := normaliseCurrencyCode fromCurrency in
  match targetCurrencies with
  | [] => ret (∅, rateTableCache)
  | _ =>
      let distinctTargets := distinctTargets targetCurrencies in
      let* g := first_fan_out base distinctTargets in
      match missingTargets g with
      | [] => ret (result g, rateTableCache)
      | missingTargets =>
          let (table, rateTableCache) :=
            fetchRateTable settings env axios_get base rateTableCache in
          let (result, started) :=
            match table with
            | Some table => from_table table missingTargets (result g)
            | None => (result g, [])
            end in
          let unresolved :=
            List.filter
              (fun code => match result !! code with None => true | Some _ => false end)
              missingTargets in
          let* result := second_fan_out base unresolved started result in
          ret (result, rateTableCache)
      end
  end.

End Batch.

End CurrencyService.

(* ================================================================== *)
(** * priceService.js                                                  *)
(* ================================================================== *)

Module PriceService.

(** The second argument of [updateCommodityPrice]. *)
Record prices : Type := {
  priceUsd : JS.value;
  priceZar : JS.value
}.

(** The second argument of [updatePriceRange]. *)
Record range_input : Type := {
  minPriceUsd : JS.value;
  maxPriceUsd : JS.value;
  minPriceZar : JS.value;
  maxPriceZar : JS.value
}.

(** The argument of [updateDailyPrices]. *)
Record options : Type := {
  triggerSource : string;
  triggeredBy : option string
}.

(** An entry of [skipped]. *)
Record skip : Type := {
  skip_commodityId : string;
  reason : string;
  skip_minUsd : option JS.num;
  skip_maxUsd : option JS.num;
  skip_minZar : option JS.num;
  skip_maxZar : option JS.num
}.

(** An entry of [failures] ([friendlyError]). *)
Record failure : Type := {
  commodityId : string;
  symbol : option string;
  message : string;
  code : option string;
  details : option string;
  hint : option string
}.

(** The variables that the callbacks of one cycle share. *)
Record tally : Type := {
  updatedCount : nat;
  skipped : list skip;
  failures : list failure
}.

(** What [updateDailyPrices] returns. *)
Record summary : Type := {
  success : bool;
  updated : nat;
  total : nat;
  summary_skipped : list skip;
  summary_failures : list failure
}.

(** The [data] of what [updateCommodityPrice] returns. *)
Record price_data : Type := {
  data_commodity_id : string;
  data_price_zar : JS.num;
  data_price_usd : JS.num;
  data_change_24h_percent : JS.value;
  data_exchange_rate : JS.num
}.

(** Reading a variable: a name that no enclosing scope binds throws. *)
Definition identifier (scope : list (string * JS.value)) (x : string) : M JS.value :=
  match List.find (fun b => String.eqb (fst b) x) scope with
  | Some b => ret (snd b)
  | None => throw (ReferenceError (String.append x " is not defined"))
  end.

(** [parseNumber(value)], the helper that the three update functions
    declare alike: a finite number, or undefined. *)
Definition parseNumber (v : JS.value) : option JS.num :=
  if JS.nullish v then None
  else
    let numeric := JS.Number v in
    if JS.isFinite numeric then Some numeric else None.

(** [calculateChangePercentage(previousPrice, newPrice)] *)
Definition calculateChangePercentage (previousPrice newPrice : JS.value) : JS.num :=
  let prev := JS.Number previousPrice in
  let next := JS.Number newPrice in
  if negb (JS.isFinite prev) || JS.le prev (JS.Fin 0) || negb (JS.isFinite next)
  then JS.Fin 0
  else
    let change := JS.mul (JS.div (JS.sub next prev) prev) (JS.Fin 100) in
    JS.toFixed change 2.

Section Methods.

Context (currencyService : CurrencyService.t) (env : environment).

(** [Math.random()]: the next value of the stream. *)
Definition Math_random : M Q :=
  fun w =>
    (Returns (random env (drawn w)),
     {| db := db w; trace := trace w; drawn := S (drawn w) |}).

(** [generateRandomPrice(minPrice, maxPrice)] *)
Definition generateRandomPrice (minPrice maxPrice : JS.num) : M JS.num :=
  let range := JS.sub maxPrice minPrice in
  let* randomFactor := Math_random in
  ret (JS.toFixed (JS.add minPrice (JS.mul range (JS.Fin randomFactor))) 4).

(** [getCurrentPriceRecord(commodityId)]: the row, or null when there is
    none or the read fails. *)
Definition getCurrentPriceRecord (commodityId : string) : M (option CurrentPrice) :=
  try_catch
    (await adminClient env in
     let* answer := call env (SelectCurrentPrice commodityId)
                      (reading (fun s => current_prices s !! commodityId)) in
     match answer with
     | inr error => throw error
     | inl data => ret data
     end)
    (fun error => ret None).

(** [currentRecord?.price_zar ? Number(currentRecord.price_zar) : null] *)
Definition previous_price (currentRecord : option CurrentPrice) : JS.value :=
  match currentRecord with
  | Some record =>
      if JS.truthy (current_price_zar record)
      then JS.VNum (current_price_zar record)
      else JS.VNull
  | None => JS.VNull
  end.

(** The USD bounds of a range in [updateDailyPrices]: its own when both
    are finite, else those derived from the ZAR bounds, else none. *)
Definition usd_bounds (zarToUsdRate : JS.num) (range : PriceRange) : option (JS.num * JS.num) :=
  match parseNumber (min_price_usd range), parseNumber (max_price_usd range) with
  | Some minUsdRaw, Some maxUsdRaw => Some (minUsdRaw, maxUsdRaw)
  | _, _ =>
      match parseNumber (min_price_zar range), parseNumber (max_price_zar range) with
      | Some minZarRaw, Some maxZarRaw =>
          Some (JS.mul minZarRaw zarToUsdRate, JS.mul maxZarRaw zarToUsdRate)
      | _, _ => None
      end
  end.

(** The object pushed on [skipped] for a range without a complete pair
    of bounds. *)
Definition skipped_entry (range : PriceRange) : skip :=
  {| skip_commodityId := range_commodity_id range;
     reason := "Incomplete price range values";
     skip_minUsd := parseNumber (min_price_usd range);
     skip_maxUsd := parseNumber (max_price_usd range);
     skip_minZar := parseNumber (min_price_zar range);
     skip_maxZar := parseNumber (max_price_zar range) |}.

(** [friendlyError], the object pushed on [failures]: an error here is an
    [Error] or the error object of the store, and has its [message]. *)
Definition friendlyError (range : PriceRange) (commodity : Commodity)
    (error : js_error) : failure :=
  {| commodityId := range_commodity_id range;
     symbol := Some (commodity_symbol commodity);
     message := err_message error;
     code := err_code error;
     details := err_details error;
     hint := err_hint error |}.

(** The callback of [activeRanges.map] in [updateDailyPrices], as it is
    written: what it does when nothing else runs between its steps. *)
Definition update_range (zarToUsdRate usdToZarRate : JS.num)
    (item : PriceRange * Commodity) (t : tally) : M tally :=
  let (range, commodity) := item in
  try_catch
    (let commodityId := range_commodity_id range in
     match usd_bounds zarToUsdRate range with
     | None =>
         ret {| updatedCount := updatedCount t;
                skipped := skipped t ++ [skipped_entry range];
                failures := failures t |}
     | Some (minUsd, maxUsd) =>
         let* newPriceUsd := generateRandomPrice minUsd maxUsd in
         let newPriceZar := JS.toFixed (JS.mul newPriceUsd usdToZarRate) 4 in
         let normalizedPriceUsd := JS.toFixed newPriceUsd 4 in
         let* currentRecord := getCurrentPriceRecord commodityId in
         let previousPriceZar := previous_price currentRecord in
         let change24hValue :=
           calculateChangePercentage previousPriceZar (JS.VNum newPriceZar) in
         let* current := call env (UpsertCurrentPrice commodityId)
           (writing (upsert_current commodityId
              {| current_price_zar := newPriceZar;
                 current_price_usd := normalizedPriceUsd;
                 current_exchange_rate := zarToUsdRate;
                 change_24h_percent := change24hValue;
                 last_updated := now env |})) in
         match current with
         | inr currentError => throw currentError
         | inl _ =>
             let* history := call env (InsertHistory commodityId)
               (writing (insert_history
                  {| history_commodity_id := commodityId;
                     history_price_zar := newPriceZar;
                     history_price_usd := normalizedPriceUsd;
                     history_exchange_rate := zarToUsdRate;
                     recorded_date := now env / 86400000 |})) in
             match history with
             | inr historyError => throw historyError
             | inl _ =>
                 ret {| updatedCount := updatedCount t + 1;
                        skipped := skipped t;
                        failures := failures t |}
             end
         end
     end)
    (fun error =>
       ret {| updatedCount := updatedCount t;
              skipped := skipped t;
              failures := failures t ++ [friendlyError range commodity error] |}).

(** ** The fan-out

    [await Promise.all(activeRanges.map(async (range) => { ... }))] runs
    every callback up to its first [await], in the order of the array,
    and then resumes the callbacks one awaited call at a time, in the
    order in which the calls complete.  A call takes effect on the store
    when its callback is resumed.  Below, the callback is cut at its three
    awaits. *)

(** A callback between two steps: settled, or suspended at the await of
    [getCurrentPriceRecord], of the upsert or of the insert, with the
    constants it has computed so far. *)
Inductive callback : Type :=
| Settled
| AwaitsCurrent (range : PriceRange) (commodity : Commodity)
    (newPriceZar normalizedPriceUsd : JS.num)
| AwaitsUpsert (range : PriceRange) (commodity : Commodity)
    (newPriceZar normalizedPriceUsd change24hValue : JS.num)
| AwaitsHistory (range : PriceRange) (commodity : Commodity)
    (newPriceZar normalizedPriceUsd : JS.num).

(** The [catch] block of the callback. *)
Definition caught (range : PriceRange) (commodity : Commodity) (t : tally)
    (error : js_error) : M (callback * tally) :=
  ret (Settled,
       {| updatedCount := updatedCount t;
          skipped := skipped t;
          failures := failures t ++ [friendlyError range commodity error] |}).

(** The callback from its start to its first await. *)
Definition launch (zarToUsdRate usdToZarRate : JS.num)
    (item : PriceRange * Commodity) (t : tally) : M (callback * tally) :=
  let (range, commodity) := item in
  match usd_bounds zarToUsdRate range with
  | None =>
      ret (Settled,
           {| updatedCount := updatedCount t;
              skipped := skipped t ++ [skipped_entry range];
              failures := failures t |})
  | Some (minUsd, maxUsd) =>
      let* newPriceUsd := generateRandomPrice minUsd maxUsd in
      let newPriceZar := JS.toFixed (JS.mul newPriceUsd usdToZarRate) 4 in
      let normalizedPriceUsd := JS.toFixed newPriceUsd 4 in
      ret (AwaitsCurrent range commodity newPriceZar normalizedPriceUsd, t)
  end.

(** The callback from one await to the next, or to its end. *)
Definition resume (zarToUsdRate : JS.num) (c : callback) (t : tally)
    : M (callback * tally) :=
  match c with
  | Settled => ret (Settled, t)
  | AwaitsCurrent range commodity newPriceZar normalizedPriceUsd =>
      let* currentRecord := getCurrentPriceRecord (range_commodity_id range) in
      let previousPriceZar := previous_price currentRecord in
      let change24hValue :=
        calculateChangePercentage previousPriceZar (JS.VNum newPriceZar) in
      ret (AwaitsUpsert range commodity newPriceZar normalizedPriceUsd change24hValue, t)
  | AwaitsUpsert range commodity newPriceZar normalizedPriceUsd change24hValue =>
      try_catch
        (let* current := call env (UpsertCurrentPrice (range_commodity_id range))
           (writing (upsert_current (range_commodity_id range)
              {| current_price_zar := newPriceZar;
                 current_price_usd := normalizedPriceUsd;
                 current_exchange_rate := zarToUsdRate;
                 change_24h_percent := change24hValue;
                 last_updated := now env |})) in
         match current with
         | inr currentError => throw currentError
         | inl _ => ret (AwaitsHistory range commodity newPriceZar normalizedPriceUsd, t)
         end)
        (caught range commodity t)
  | AwaitsHistory range commodity newPriceZar normalizedPriceUsd =>
      try_catch
        (let* history := call env (InsertHistory (range_commodity_id range))
           (writing (insert_history
              {| history_commodity_id := range_commodity_id range;
                 history_price_zar := newPriceZar;
                 history_price_usd := normalizedPriceUsd;
                 history_exchange_rate := zarToUsdRate;
                 recorded_date := now env / 86400000 |})) in
         match history with
         | inr historyError => throw historyError
         | inl _ =>
             ret (Settled,
                  {| updatedCount := updatedCount t + 1;
                     skipped := skipped t;
                     failures := failures t |})
         end)
        (caught range commodity t)
  end.

(** [activeRanges.map(callback)]: every callback runs to its first await. *)
Fixpoint launch_all (zarToUsdRate usdToZarRate : JS.num)
    (items : list (PriceRange * Commodity)) (t : tally) : M (list callback * tally) :=
  match items with
  | [] => ret ([], t)
  | item :: rest =>
      let* first := launch zarToUsdRate usdToZarRate item t in
      let* others := launch_all zarToUsdRate usdToZarRate rest (snd first) in
      ret (fst first :: fst others, snd others)
  end.

(** The awaited call of callback [i] completes. *)
Definition resume_at (zarToUsdRate : JS.num) (i : nat) (f : list callback * tally)
    : M (list callback * tally) :=
  match fst f !! i with
  | Some c =>
      let* next := resume zarToUsdRate c (snd f) in
      ret (<[i := fst next]> (fst f), snd next)
  | None => ret f
  end.

Fixpoint resume_each (zarToUsdRate : JS.num) (order : list nat)
    (f : list callback * tally) : M (list callback * tally) :=
  match order with
  | [] => ret f
  | i :: rest =>
      let* f' := resume_at zarToUsdRate i f in
      resume_each zarToUsdRate rest f'
  end.

(** [await Promise.all(items.map(callback))]: the calls complete in the
    order of the schedule, then the remaining ones callback by callback;
    three rounds settle every callback.  The result is the state of the
    shared variables. *)
Definition Promise_all (zarToUsdRate usdToZarRate : JS.num)
    (items : list (PriceRange * Commodity)) (t : tally) : M tally :=
  let* launched := launch_all zarToUsdRate usdToZarRate items t in
  let* scheduled := resume_each zarToUsdRate (schedule env) launched in
  let round := seq 0 (length items) in
  let* settled := resume_each zarToUsdRate (round ++ round ++ round) scheduled in
  ret (snd settled).

(** [updateDailyPrices({ triggerSource, triggeredBy })] *)
Definition updateDailyPrices (o : options) : M summary :=
  try_catch
    (await adminClient env in
     let* zarToUsdRate := CurrencyService.getCurrencyRate currencyService env "ZAR" "USD" in
     if negb (JS.truthy zarToUsdRate) then throw (Error "Failed to load exchange rate")
     else
       let usdToZarRate := JS.toFixed (JS.div (JS.Fin 1) zarToUsdRate) 6 in
       let* answer := call env SelectActiveRanges (reading select_active_ranges) in
       match answer with
       | inr rangeError => throw rangeError
       | inl ranges =>
           let activeRanges :=
             List.filter (fun range => commodity_is_active (snd range)) ranges in
           let* t := Promise_all zarToUsdRate usdToZarRate activeRanges
                       {| updatedCount := 0; skipped := []; failures := [] |} in
           let* rate_logged := call env (InsertRate "ZAR" "USD" "daily_update")
             (writing (insert_rate env "ZAR" "USD" zarToUsdRate "daily_update")) in
           await try_catch
             (let* run_logged := call env InsertRun
                (writing (insert_run
                   {| executed_at := now env;
                      triggered_by := triggeredBy o;
                      trigger_source := triggerSource o;
                      total_commodities := length activeRanges;
                      updated_commodities := updatedCount t;
                      status := if (0 <? updatedCount t)%nat then "success" else "no_updates";
                      notes := None |})) in
              ret tt)
             (fun runError => ret tt) in
           ret {| success := true;
                  updated := updatedCount t;
                  total := length activeRanges;
                  summary_skipped := skipped t;
                  summary_failures := failures t |}
       end)
    (fun error => throw error).

(** [updateCommodityPrice(commodityId, prices, triggeredBy, triggerSource)] *)
Definition updateCommodityPrice (commodityId : string) (p : prices)
    (triggeredBy : option string) (triggerSource : string) : M price_data :=
  try_catch
    (await adminClient env in
     let* zarToUsdRate := CurrencyService.getCurrencyRate currencyService env "ZAR" "USD" in
     if negb (JS.truthy zarToUsdRate) then throw (Error "Failed to load exchange rate")
     else
       let usdToZarRate := JS.toFixed (JS.div (JS.Fin 1) zarToUsdRate) 6 in
       let priceUsd0 := parseNumber (priceUsd p) in
       let priceZar0 := parseNumber (priceZar p) in
       match priceUsd0, priceZar0 with
       | None, None => throw (Error "A price must be provided in USD or ZAR")
       | _, _ =>
           let priceUsd1 :=
             match priceUsd0, priceZar0 with
             | None, Some zar => Some (JS.toFixed (JS.mul zar zarToUsdRate) 4)
             | _, _ => priceUsd0
             end in
           let priceZar1 :=
             match priceZar0, priceUsd1 with
             | None, Some usd => Some (JS.toFixed (JS.mul usd usdToZarRate) 4)
             | _, _ => priceZar0
             end in
           match priceUsd1, priceZar1 with
           | Some priceUsd, Some priceZar =>
               let normalizedUsd := JS.toFixed priceUsd 4 in
               let normalizedZar := JS.toFixed priceZar 4 in
               let* currentRecord := getCurrentPriceRecord commodityId in
               let previousPriceZar := previous_price currentRecord in
               let change24hValue :=
                 calculateChangePercentage previousPriceZar (JS.VNum normalizedZar) in
               let* current := call env (UpsertCurrentPrice commodityId)
                 (writing (upsert_current commodityId
                    {| current_price_zar := normalizedZar;
                       current_price_usd := normalizedUsd;
                       current_exchange_rate := zarToUsdRate;
                       change_24h_percent := change24hValue;
                       last_updated := now env |})) in
               match current with
               | inr currentError => throw currentError
               | inl _ =>
                   let* history := call env (InsertHistory commodityId)
                     (writing (insert_history
                        {| history_commodity_id := commodityId;
                           history_price_zar := normalizedZar;
                           history_price_usd := normalizedUsd;
                           history_exchange_rate := zarToUsdRate;
                           recorded_date := now env / 86400000 |})) in
                   match history with
                   | inr historyError => throw historyError
                   | inl _ =>
                       await try_catch
                         (let* run_logged := call env InsertRun
                            (writing (insert_run
                               {| executed_at := now env;
                                  triggered_by := triggeredBy;
                                  trigger_source := triggerSource;
                                  total_commodities := 1;
                                  updated_commodities := 1;
                                  status := "success";
                                  notes := Some (String.append
                                    "Manual price update for commodity "
                                    commodityId) |})) in
                          ret tt)
                         (fun runError => ret tt) in
                       (* the numbers in scope at the return statement; the
                          other names bound there (the parameters, [client],
                          [parseNumber], [currentRecord], [currentError],
                          [historyError], the module's [supabase],
                          [currencyService] and [PriceService]) and the
                          globals of the runtime are all spelled otherwise
                          than the one name read below *)
                       let scope :=
                         [("zarToUsdRate", JS.VNum zarToUsdRate);
                          ("usdToZarRate", JS.VNum usdToZarRate);
                          ("priceUsd", JS.VNum priceUsd);
                          ("priceZar", JS.VNum priceZar);
                          ("normalizedUsd", JS.VNum normalizedUsd);
                          ("normalizedZar", JS.VNum normalizedZar);
                          ("previousPriceZar", previousPriceZar);
                          ("change24hValue", JS.VNum change24hValue)] in
                       let* change24h := identifier scope "change24h" in
                       ret {| data_commodity_id := commodityId;
                              data_price_zar := normalizedZar;
                              data_price_usd := normalizedUsd;
                              data_change_24h_percent := change24h;
                              data_exchange_rate := zarToUsdRate |}
                   end
               end
           | _, _ => throw (Error "Unable to resolve USD and ZAR price values")
           end
       end)
    (fun error => throw error).

(** The four bounds that [updatePriceRange] settles on: the USD pair with
    the ZAR pair derived from it, else the ZAR pair with the USD pair
    derived from it, else none. *)
Definition resolved_bounds (zarToUsdRate usdToZarRate : JS.num) (r : range_input)
    : option (JS.num * JS.num * JS.num * JS.num) :=
  match parseNumber (minPriceUsd r), parseNumber (maxPriceUsd r) with
  | Some minUsd, Some maxUsd =>
      Some (minUsd, maxUsd,
            JS.toFixed (JS.mul minUsd usdToZarRate) 4,
            JS.toFixed (JS.mul maxUsd usdToZarRate) 4)
  | _, _ =>
      match parseNumber (minPriceZar r), parseNumber (maxPriceZar r) with
      | Some minZar, Some maxZar =>
          Some (JS.toFixed (JS.mul minZar zarToUsdRate) 4,
                JS.toFixed (JS.mul maxZar zarToUsdRate) 4,
                minZar, maxZar)
      | _, _ => None
      end
  end.

(** [updatePriceRange(commodityId, range, updatedBy)]; the row returned is
    the one written. *)
Definition updatePriceRange (commodityId : string) (r : range_input)
    (updatedBy : option string) : M PriceRange :=
  try_catch
    (await adminClient env in
     let* zarToUsdRate := CurrencyService.getCurrencyRate currencyService env "ZAR" "USD" in
     if negb (JS.truthy zarToUsdRate)
     then throw (Error "Failed to load exchange rate for price range update")
     else
       let usdToZarRate := JS.toFixed (JS.div (JS.Fin 1) zarToUsdRate) 6 in
       match resolved_bounds zarToUsdRate usdToZarRate r with
       | None => throw (Error "Valid price range values were not provided")
       | Some (minUsd, maxUsd, minZar, maxZar) =>
           if JS.ge minUsd maxUsd || JS.ge minZar maxZar
           then throw (Error "Minimum price must be less than maximum price")
           else
             let row :=
               {| range_commodity_id := commodityId;
                  min_price_zar := JS.VNum minZar;
                  max_price_zar := JS.VNum maxZar;
                  min_price_usd := JS.VNum minUsd;
                  max_price_usd := JS.VNum maxUsd;
                  range_is_active := true;
                  updated_by := updatedBy;
                  updated_at := now env |} in
             let* answer := call env (UpsertRange commodityId)
                              (fun s => (row, upsert_range row s)) in
             match answer with
             | inr error => throw error
             | inl data => ret data
             end
       end)
    (fun error => throw error).

End Methods.

(** ** Lookups *)

(** The reads of the store that the lookups make. *)
Inductive db_read : Type :=
| SelectPriceRange (commodity : string)
| SelectPriceHistory (commodity : string)
| SelectLatestRate (from to : string).

(** What [getPriceRange] and [updatePriceRange] select of a row. *)
Record range_view : Type := {
  view_commodity_id : string;
  view_min_price_zar : JS.value;
  view_max_price_zar : JS.value;
  view_min_price_usd : JS.value;
  view_max_price_usd : JS.value;
  view_is_active : bool
}.

Definition view_of (row : PriceRange) : range_view :=
  {| view_commodity_id := range_commodity_id row;
     view_min_price_zar := min_price_zar row;
     view_max_price_zar := max_price_zar row;
     view_min_price_usd := min_price_usd row;
     view_max_price_usd := max_price_usd row;
     view_is_active := range_is_active row |}.

(** What [getLatestExchangeRate] selects of a row. *)
Record rate_view : Type := {
  view_rate : JS.num;
  view_recorded_at : Z;
  view_source : string
}.

(** What [getCommodityStats] returns when there is data. *)
Record stats : Type := {
  data_points : nat;
  stats_min_price_zar : JS.num;
  stats_max_price_zar : JS.num;
  avg_price_zar : JS.num;
  stats_min_price_usd : JS.num;
  stats_max_price_usd : JS.num;
  avg_price_usd : JS.num;
  period_start : Z;
  period_end : Z
}.

(** What [periodDaysMap[period]] finds: a number of days under one of
    the four keys of the object, the function or object that
    [Object.prototype] has under the name, or nothing. *)
Inductive found : Type :=
| Days (days : Z)
| Inherited
| Missing.

Definition Object_prototype : list string :=
  ["constructor"; "__defineGetter__"; "__defineSetter__"; "hasOwnProperty";
   "__lookupGetter__"; "__lookupSetter__"; "isPrototypeOf"; "propertyIsEnumerable";
   "toString"; "valueOf"; "__proto__"; "toLocaleString"]%string.

Definition periodDaysMap (period : string) : found :=
  if String.eqb period "7d" then Days 7
  else if String.eqb period "30d" then Days 30
  else if String.eqb period "90d" then Days 90
  else if String.eqb period "1y" then Days 365
  else if existsb (String.eqb period) Object_prototype then Inherited
  else Missing.

(** [arr.reduce((total, value) => total + value, 0)] *)
Definition sum (arr : list JS.num) : JS.num :=
  fold_left JS.add arr (JS.Fin 0).

(** [.maybeSingle()]: the row, null when there is none, and an error when
    there are several. *)
Definition maybeSingle {A} (rows : list A) : option A + js_error :=
  match rows with
  | [] => inl None
  | [row] => inl (Some row)
  | _ =>
      inr {| err_name := "PostgrestError";
             err_message := "JSON object requested, multiple (or no) rows returned";
             err_code := Some "PGRST116"%string;
             err_details := None;
             err_hint := None |}
  end.

(** The order of [.order('recorded_date', { ascending: true })]. *)
Definition earlier (a b : PriceHistory) : Prop :=
  (recorded_date a <= recorded_date b)%Z.

#[local] Instance earlier_dec : RelDecision earlier.
Proof. intros a b. unfold earlier. apply _. Defined.

Section Lookups.

(** [read_fault] tells how each read goes wrong, if it does.  [sinceDay]
    is the calendar: the UTC day on which the instant falls that
    [setDate(getDate() - days)] makes of the given one, in the time zone
    of the process. *)
Context (env : environment) (read_fault : db_read -> fault) (sinceDay : Z -> Z -> Z).

(** One awaited read on the client. *)
Definition query {A} (op : db_read) (answer : store -> A + js_error) : M (A + js_error) :=
  fun w =>
    match read_fault op with
    | NoFault => (Returns (answer (db w)), w)
    | ErrorResult e => (Returns (inr e), w)
    | Exception e => (Throws e, w)
    end.

(** [getPriceRange(commodityId)] *)
Definition getPriceRange (commodityId : string) : M (option range_view) :=
  try_catch
    (await adminClient env in
     let* answer := query (SelectPriceRange commodityId)
       (fun s =>
          maybeSingle
            (List.map view_of
               (List.filter (fun r => String.eqb (range_commodity_id r) commodityId)
                  (price_ranges s)))) in
     match answer with
     | inr error => throw error
     | inl data => ret data
     end)
    (fun error => ret None).

(** The rows that [getCommodityStats] selects: those of the commodity
    from the day [since] on, by date. *)
Definition history_since (commodityId : string) (since : Z) (s : store) : list PriceHistory :=
  merge_sort earlier
    (List.filter
       (fun h => String.eqb (history_commodity_id h) commodityId
                 && (since <=? recorded_date h)%Z)
       (price_history s)).

(** [getCommodityStats(commodityId, period)] *)
Definition getCommodityStats (commodityId period : string) : M (option stats) :=
  try_catch
    (match periodDaysMap period with
     | Inherited =>
         (* [getDate() - days] is NaN, the date is invalid, and
            [toISOString()] throws *)
         throw (RangeError "Invalid time value")
     | looked_up =>
         let days := match looked_up with Days d => d | _ => 30%Z end in
         let since := sinceDay (now env) days in
         await adminClient env in
         let* answer := query (SelectPriceHistory commodityId)
           (fun s => inl (history_since commodityId since s)) in
         match answer with
         | inr error => throw error
         | inl [] => ret None
         | inl ((first :: _) as data) =>
             let pricesZar := List.map history_price_zar data in
             let pricesUsd := List.map history_price_usd data in
             ret (Some
               {| data_points := length data;
                  stats_min_price_zar := JS.Math_min pricesZar;
                  stats_max_price_zar := JS.Math_max pricesZar;
                  avg_price_zar :=
                    JS.toFixed (JS.div (sum pricesZar)
                                  (JS.Fin (inject_Z (Z.of_nat (length pricesZar))))) 4;
                  stats_min_price_usd := JS.Math_min pricesUsd;
                  stats_max_price_usd := JS.Math_max pricesUsd;
                  avg_price_usd :=
                    JS.toFixed (JS.div (sum pricesUsd)
                                  (JS.Fin (inject_Z (Z.of_nat (length pricesUsd))))) 4;
                  period_start := recorded_date first;
                  period_end := recorded_date (List.last data first) |})
         end
     end)
    (fun error => throw error).

(** [getLatestExchangeRate(fromCurrency, toCurrency)] *)
Definition getLatestExchangeRate (fromCurrency toCurrency : string) : M (option rate_view) :=
  try_catch
    (await adminClient env in
     let* answer := query (SelectLatestRate fromCurrency toCurrency)
       (fun s =>
          inl (option_map
                 (fun row => {| view_rate := rate row;
                                view_recorded_at := recorded_at row;
                                view_source := source row |})
                 (latest_rate fromCurrency toCurrency s))) in
     match answer with
     | inr error => throw error
     | inl data => ret data
     end)
    (fun error => throw error).

End Lookups.

End PriceService.

(* ================================================================== *)
(** * The routes that call the two services                            *)
(* ================================================================== *)

Module Routes.

(** What a handler sends: the status, 200 unless [res.status] sets it,
    and the body given to [res.json], which is
    [{ success: true, data }] or [{ error: { message } }]. *)
Inductive body (A : Type) : Type :=
| Data (data : A)
| Failure (message : string).
Arguments Data {A} data.
Arguments Failure {A} message.

Record response (A : Type) : Type := {
  status : Z;
  json : body A
}.
Arguments status {A} r.
Arguments json {A} r.

Definition ok {A} (data : A) : response A :=
  {| status := 200; json := Data data |}.










Section Handlers.

Context (currencyService : CurrencyService.t) (env : environment).




End Handlers.

End Routes.

(* ================================================================== *)
(** * Vocabulary of the properties                                     *)
(* ================================================================== *)

Local Open Scope Q_scope.


(** Nothing to drop at the head of a list that starts with a character
    other than white space. *)
Definition clean_head (l : list ascii) : Prop :=
  match l with [] => True | c :: _ => JS.is_space c = false end.

(** ** Counting what a call did *)

Definition is_update (e : event) : bool :=
  match e with Db (UpsertCurrentPrice _) => true | _ => false end.

Definition is_run_insert (e : event) : bool :=
  match e with Db InsertRun => true | _ => false end.

(** The upserts of CurrentPrice that were attempted. *)
Definition attempted_updates (tr : list event) : nat :=
  length (List.filter is_update tr).

(** The inserts of PriceUpdateRun that were attempted. *)
Definition run_inserts (tr : list event) : nat :=
  length (List.filter is_run_insert tr).

(** The price tables are the same in both stores. *)
Definition same_prices (s s' : store) : Prop :=
  commodities s' = commodities s
  /\ price_ranges s' = price_ranges s
  /\ current_prices s' = current_prices s
  /\ price_history s' = price_history s
  /\ price_update_runs s' = price_update_runs s.

(** What rate resolution may do to the world: read and extend
    [exchange_rates], call the provider, and nothing else. *)
Definition rate_step (w w' : world) : Prop :=
  same_prices (db w) (db w')
  /\ drawn w' = drawn w
  /\ attempted_updates (trace w') = attempted_updates (trace w)
  /\ run_inserts (trace w') = run_inserts (trace w).

(** ** Rate resolution *)

(** The value of the static tier of [getCurrencyRate], which is also what
    its [catch] block returns. *)
Definition static_fallback (this : CurrencyService.t) (fromCurrency toCurrency : string)
    : outcome JS.num :=
  match CurrencyService.resolveFallbackRate this fromCurrency toCurrency with
  | Returns resolved => Returns (resolved ?? CurrencyService.fallbackRate this)
  | Throws e => Throws e
  end.

(** The tier that answers a call of [getCurrencyRate] and its answer:
    the identity, a persisted row of the pair (fresh or stale), the
    provider, or the static fallback. *)
Inductive answered (this : CurrencyService.t) (env : environment) (w : world)
    (from to : string) : outcome JS.num -> Prop :=
| by_identity :
    from = to -> from <> EmptyString ->
    answered this env w from to (Returns (JS.Fin 1))
| by_row (row : ExchangeRate) :
    In row (exchange_rates (db w)) ->
    from_currency row = from -> to_currency row = to ->
    answered this env w from to (Returns (rate row))
| by_provider (rates : gmap string JS.value) (v : JS.value) :
    provider env from = Some rates -> rates !! to = Some v ->
    JS.truthy (JS.Number v) = true ->
    answered this env w from to (Returns (JS.Number v))
| by_fallback :
    answered this env w from to (static_fallback this from to).





(** ** Sample worlds *)

(** Nothing fails, the provider is down, [Math.random()] is constantly [u]. *)
Definition quiet (u : Q) : environment :=
  {| now := 1700000000000;
     admin_client := None;
     fault_of := fun _ => NoFault;
     provider := fun _ => None;
     random := fun _ => u;
     schedule := [] |}.

(** The same, the awaited calls of a fan-out completing in the given
    order. *)
Definition interleaved (u : Q) (order : list nat) : environment :=
  {| now := 1700000000000;
     admin_client := None;
     fault_of := fun _ => NoFault;
     provider := fun _ => None;
     random := fun _ => u;
     schedule := order |}.

(** The provider answers for base ZAR with a number for USD, a string for
    EUR and a zero for GBP. *)
Definition live : environment :=
  {| now := 1700000000000;
     admin_client := None;
     fault_of := fun _ => NoFault;
     provider := fun base =>
       if String.eqb base "ZAR"
       then Some (list_to_map [("USD"%string, JS.VNum (JS.Fin 0.055));
                               ("EUR"%string, JS.VStr "0.05");
                               ("GBP"%string, JS.VNum (JS.Fin 0))])
       else None;
     random := fun _ => 0;
     schedule := [] |}.

(** Neither the client of the store nor the provider is there. *)
Definition cut_off : environment :=
  {| now := 1700000000000;
     admin_client := Some (Error "Supabase admin client is not configured");
     fault_of := fun _ => NoFault;
     provider := fun _ => None;
     random := fun _ => 0;
     schedule := [] |}.

Definition empty_store : store :=
  {| exchange_rates := [];
     commodities := ∅;
     price_ranges := [];
     current_prices := ∅;
     price_history := [];
     price_update_runs := [] |}.

Definition blank : world :=
  {| db := empty_store; trace := []; drawn := 0 |}.

(** One row for ZAR to USD, five hours old. *)
Definition stale_world : world :=
  {| db := {| exchange_rates :=
                [{| from_currency := "ZAR"; to_currency := "USD";
                    rate := JS.Fin 0.05;
                    recorded_at := 1700000000000 - 5 * 3600000;
                    source := "api" |}];
              commodities := ∅;
              price_ranges := [];
              current_prices := ∅;
              price_history := [];
              price_update_runs := [] |};
     trace := [];
     drawn := 0 |}.

(** ** The daily cycle *)

(** The ranges that [updateDailyPrices] works on: active, with an active
    commodity. *)
Definition active_ranges (s : store) : list (PriceRange * Commodity) :=
  List.filter (fun range => commodity_is_active (snd range)) (select_active_ranges s).

(** Both bounds of a pair are present and finite. *)
Definition complete_pair (lo hi : JS.value) : bool :=
  match PriceService.parseNumber lo, PriceService.parseNumber hi with
  | Some _, Some _ => true
  | _, _ => false
  end.

(** An incomplete bound pair: neither both USD bounds nor both ZAR bounds
    are finite. *)
Definition incomplete (range : PriceRange) : bool :=
  negb (complete_pair (min_price_usd range) (max_price_usd range))
  && negb (complete_pair (min_price_zar range) (max_price_zar range)).

(** The error of the first persistence write that fails for a commodity,
    if one does: the upsert of CurrentPrice, then the insert of
    PriceHistory. *)
Definition write_fault (env : environment) (commodity : string) : option js_error :=
  match fault_of env (UpsertCurrentPrice commodity) with
  | ErrorResult e | Exception e => Some e
  | NoFault =>
      match fault_of env (InsertHistory commodity) with
      | ErrorResult e | Exception e => Some e
      | NoFault => None
      end
  end.

(** The price generated within bounds at the random factor [u]. *)
Definition price_drawn (minUsd maxUsd : JS.num) (u : Q) : JS.num :=
  JS.toFixed (JS.add minUsd (JS.mul (JS.sub maxUsd minUsd) (JS.Fin u))) 4.

(** The two prices of a callback that drew [u]: the generated price and
    its counterpart, to 4 decimals. *)
Definition prices_at (zarToUsdRate usdToZarRate : JS.num) (range : PriceRange)
    (u : Q) (zar usd : JS.num) : Prop :=
  exists minUsd maxUsd : JS.num,
    PriceService.usd_bounds zarToUsdRate range = Some (minUsd, maxUsd)
    /\ usd = JS.toFixed (price_drawn minUsd maxUsd u) 4
    /\ zar = JS.toFixed (JS.mul (price_drawn minUsd maxUsd u) usdToZarRate) 4.

(** The CurrentPrice row and the PriceHistory row of one update: the
    prices of the callback, the rate of the cycle, the time. *)
Definition written (env : environment) (zarToUsdRate usdToZarRate : JS.num)
    (range : PriceRange) (u : Q) (row : CurrentPrice) (h : PriceHistory) : Prop :=
  prices_at zarToUsdRate usdToZarRate range u (current_price_zar row) (current_price_usd row)
  /\ current_exchange_rate row = zarToUsdRate
  /\ last_updated row = now env
  /\ h = {| history_commodity_id := range_commodity_id range;
            history_price_zar := current_price_zar row;
            history_price_usd := current_price_usd row;
            history_exchange_rate := zarToUsdRate;
            recorded_date := (now env / 86400000)%Z |}.

(** ** Callbacks in flight *)

(** The callback has not attempted its upsert yet. *)
Definition before_upsert (c : PriceService.callback) : bool :=
  match c with
  | PriceService.AwaitsCurrent _ _ _ _ | PriceService.AwaitsUpsert _ _ _ _ _ => true
  | _ => false
  end.

(** The commodity that a suspended callback works on. *)
Definition commodity_of (c : PriceService.callback) : option string :=
  match c with
  | PriceService.Settled => None
  | PriceService.AwaitsCurrent range _ _ _
  | PriceService.AwaitsUpsert range _ _ _ _
  | PriceService.AwaitsHistory range _ _ _ => Some (range_commodity_id range)
  end.

Definition unsettled (c : PriceService.callback) : bool :=
  match c with PriceService.Settled => false | _ => true end.

(** The awaits that a callback has before it. *)
Definition awaits_left (c : PriceService.callback) : nat :=
  match c with
  | PriceService.Settled => 0
  | PriceService.AwaitsHistory _ _ _ _ => 1
  | PriceService.AwaitsUpsert _ _ _ _ _ => 2
  | PriceService.AwaitsCurrent _ _ _ _ => 3
  end.

Definition awaits_left_at (cs : list PriceService.callback) (i : nat) : nat :=
  match cs !! i with Some c => awaits_left c | None => 0 end.

Definition count (P : PriceService.callback -> bool) (cs : list PriceService.callback) : nat :=
  length (List.filter P cs).

Definition one_if (b : bool) : nat := if b then 1 else 0.

(** What resuming callbacks may do to the shared variables and to the
    world between two moments: [failures] and the history grow, the
    current prices change for the commodities of [touched] only, and
    nothing else changes. *)
Definition progress (touched : string -> Prop) (t : PriceService.tally) (w : world)
    (t' : PriceService.tally) (w' : world) : Prop :=
  PriceService.skipped t' = PriceService.skipped t
  /\ (exists more, PriceService.failures t' = PriceService.failures t ++ more)
  /\ (exists more, price_history (db w') = price_history (db w) ++ more)
  /\ (forall id, ~ touched id ->
        current_prices (db w') !! id = current_prices (db w) !! id)
  /\ exchange_rates (db w') = exchange_rates (db w)
  /\ commodities (db w') = commodities (db w)
  /\ price_ranges (db w') = price_ranges (db w)
  /\ price_update_runs (db w') = price_update_runs (db w)
  /\ run_inserts (trace w') = run_inserts (trace w)
  /\ drawn w' = drawn w.

(** The books of a fan-out of [n] callbacks that got past their bounds,
    started in the world [w0]: every such callback attempts one upsert,
    and ends in [failures] or in the count of updates, with one row of
    history for each update. *)
Definition balanced (w0 : world) (n : nat) (cs : list PriceService.callback)
    (t : PriceService.tally) (w : world) : Prop :=
  (attempted_updates (trace w) + count before_upsert cs
   = attempted_updates (trace w0) + n)%nat
  /\ (PriceService.updatedCount t + length (PriceService.failures t)
      + count unsettled cs = n)%nat
  /\ length (price_history (db w))
     = (length (price_history (db w0)) + PriceService.updatedCount t)%nat.

(** A callback is where its range and the faults of the store put it:
    settled, it was skipped, or its failure is in [failures], or its rows
    are written, the history row among those added since [w0]; suspended,
    it carries the prices it drew. *)
Definition on_course (env : environment) (zarToUsdRate usdToZarRate : JS.num)
    (w0 : world) (t : PriceService.tally) (w : world)
    (item : PriceRange * Commodity) (c : PriceService.callback) : Prop :=
  let id := range_commodity_id (fst item) in
  match c with
  | PriceService.Settled =>
      incomplete (fst item) = true
      \/ (incomplete (fst item) = false
          /\ match write_fault env id with
             | Some e =>
                 In (PriceService.friendlyError (fst item) (snd item) e)
                    (PriceService.failures t)
             | None =>
                 exists row h u new,
                   written env zarToUsdRate usdToZarRate (fst item) u row h
                   /\ current_prices (db w) !! id = Some row
                   /\ price_history (db w) = price_history (db w0) ++ new
                   /\ In h new
             end)
  | PriceService.AwaitsCurrent range commodity zar usd
  | PriceService.AwaitsUpsert range commodity zar usd _ =>
      (range, commodity) = item
      /\ exists u, prices_at zarToUsdRate usdToZarRate range u zar usd
  | PriceService.AwaitsHistory range commodity zar usd =>
      (range, commodity) = item
      /\ fault_of env (UpsertCurrentPrice id) = NoFault
      /\ exists u row,
           prices_at zarToUsdRate usdToZarRate range u zar usd
           /\ current_prices (db w) !! id = Some row
           /\ current_price_zar row = zar
           /\ current_price_usd row = usd
           /\ current_exchange_rate row = zarToUsdRate
           /\ last_updated row = now env
  end.

(** The ranges of a list that have an incomplete bound pair. *)
Definition incomplete_count (items : list (PriceRange * Commodity)) : nat :=
  length (List.filter (fun item => incomplete (fst item)) items).

(** The outcome of the fan-out of a cycle over [items], from the world
    [w] to the shared variables [t] and the world [w']: one attempted
    upsert for each range with bounds, one entry of [skipped] for each
    range without, every other range in [failures] or counted as updated,
    one row of history added for each update, nothing else written. *)
Definition fanned (items : list (PriceRange * Commodity)) (w : world)
    (t : PriceService.tally) (w' : world) : Prop :=
  (attempted_updates (trace w') + incomplete_count items
   = attempted_updates (trace w) + length items)%nat
  /\ length (PriceService.skipped t) = incomplete_count items
  /\ (PriceService.updatedCount t + length (PriceService.failures t)
      + incomplete_count items = length items)%nat
  /\ length (price_history (db w'))
     = (length (price_history (db w)) + PriceService.updatedCount t)%nat
  /\ (exists new, price_history (db w') = price_history (db w) ++ new)
  /\ exchange_rates (db w') = exchange_rates (db w)
  /\ commodities (db w') = commodities (db w)
  /\ price_ranges (db w') = price_ranges (db w)
  /\ price_update_runs (db w') = price_update_runs (db w)
  /\ run_inserts (trace w') = run_inserts (trace w).

(** The conditions under which a cycle gets past its top-level steps: the
    client is there, the rate resolves to [zarToUsdRate], which is
    usable, the ranges load, and logging the rate does not throw. *)
Definition cycle_starts (this : CurrencyService.t) (env : environment) (w : world)
    (zarToUsdRate : JS.num) (w1 : world) : Prop :=
  admin_client env = None
  /\ CurrencyService.getCurrencyRate this env "ZAR" "USD" w = (Returns zarToUsdRate, w1)
  /\ JS.truthy zarToUsdRate = true
  /\ fault_of env SelectActiveRanges = NoFault
  /\ (forall e, fault_of env (InsertRate "ZAR" "USD" "daily_update") <> Exception e).

(** The PriceUpdateRun row of a cycle. *)
Definition run_row (env : environment) (o : PriceService.options) (total : nat)
    (t : PriceService.tally) : PriceUpdateRun :=
  {| executed_at := now env;
     triggered_by := PriceService.triggeredBy o;
     trigger_source := PriceService.triggerSource o;
     total_commodities := total;
     updated_commodities := PriceService.updatedCount t;
     status := if (0 <? PriceService.updatedCount t)%nat then "success" else "no_updates";
     notes := None |}.

(** The world at the end of a cycle, from the world [w2] at the end of
    its fan-out: the rate and the run are logged, when the store takes
    them. *)
Definition cycle_end (env : environment) (row : PriceUpdateRun) (w2 w' : world) : Prop :=
  commodities (db w') = commodities (db w2)
  /\ price_ranges (db w') = price_ranges (db w2)
  /\ current_prices (db w') = current_prices (db w2)
  /\ price_history (db w') = price_history (db w2)
  /\ price_update_runs (db w')
     = price_update_runs (db w2)
       ++ match fault_of env InsertRun with NoFault => [row] | _ => [] end
  /\ attempted_updates (trace w') = attempted_updates (trace w2)
  /\ run_inserts (trace w') = S (run_inserts (trace w2)).

(** ** Sample markets *)

Definition commodity (sym : string) : Commodity :=
  {| commodity_name := sym; commodity_symbol := sym; commodity_is_active := true |}.

(** A range with USD bounds only. *)
Definition usd_range (id : string) (lo hi : Q) : PriceRange :=
  {| range_commodity_id := id;
     min_price_zar := JS.VNull; max_price_zar := JS.VNull;
     min_price_usd := JS.VNum (JS.Fin lo); max_price_usd := JS.VNum (JS.Fin hi);
     range_is_active := true; updated_by := None; updated_at := 0 |}.

(** A range with a USD minimum and nothing else. *)
Definition half_range (id : string) (lo : Q) : PriceRange :=
  {| range_commodity_id := id;
     min_price_zar := JS.VNull; max_price_zar := JS.VNull;
     min_price_usd := JS.VNum (JS.Fin lo); max_price_usd := JS.VNull;
     range_is_active := true; updated_by := None; updated_at := 0 |}.

Definition market_of (ranges : list PriceRange) : world :=
  {| db := {| exchange_rates := [];
              commodities :=
                list_to_map (List.map (fun r => (range_commodity_id r,
                                                 commodity (range_commodity_id r))) ranges);
              price_ranges := ranges;
              current_prices := ∅;
              price_history := [];
              price_update_runs := [] |};
     trace := [];
     drawn := 0 |}.

(** One active range, whose bounds are incomplete. *)
Definition lone_incomplete : world := market_of [half_range "gold" 10].

(** Five complete ranges and an incomplete one. *)
Definition market : world :=
  market_of [usd_range "gold" 10 20; usd_range "silver" 1 2;
             usd_range "copper" 3 4; half_range "zinc" 5;
             usd_range "tin" 6 7; usd_range "lead" 8 9].

(** Two orders in which the awaited calls of six callbacks may complete
    (they name a callback that does not exist, and leave calls out). *)
Definition mixed_order : list nat := [5; 0; 1; 0; 4; 2; 2; 9; 1]%nat.
Definition other_order : list nat := [5; 2; 0; 2; 1; 0; 4; 4; 4; 0]%nat.

Definition cron : PriceService.options :=
  {| PriceService.triggerSource := "cron"; PriceService.triggeredBy := None |}.

(** The commodity ids of a list of ranges. *)
Definition ids (items : list (PriceRange * Commodity)) : list string :=
  List.map (fun item => range_commodity_id (fst item)) items.

(** An error object of the store. *)
Definition store_error : js_error :=
  {| err_name := "PostgrestError";
     err_message := "connection reset";
     err_code := Some "08006"%string;
     err_details := None;
     err_hint := None |}.

(** The store refuses to write the current price of one commodity;
    nothing else fails.  The awaited calls complete in the given order. *)
Definition refusing (commodity : string) (u : Q) (order : list nat) : environment :=
  {| now := 1700000000000;
     admin_client := None;
     fault_of := fun op =>
       match op with
       | UpsertCurrentPrice c =>
           if String.eqb c commodity then ErrorResult store_error else NoFault
       | _ => NoFault
       end;
     provider := fun _ => None;
     random := fun _ => u;
     schedule := order |}.

(** The message of the validation error of [updatePriceRange]. *)
Definition bounds_rejected : js_error :=
  Error "Minimum price must be less than maximum price".

(** ** The tier chain, in the words of the specification

    Section 4.1: identity; the most recent persisted row when under four
    hours old; the live rate; the most recent persisted row of any age;
    the static fallback.  A tier that fails, by an error or an exception,
    yields nothing; invalid codes and an exception at the stale tier go
    to the fallback. *)

Definition age_hours (env : environment) (row : ExchangeRate) : JS.num :=
  JS.div (JS.sub (JS.Fin (inject_Z (now env))) (JS.Fin (inject_Z (recorded_at row))))
         (JS.Fin (inject_Z 3600000)).

(** The most recent row of the pair, when the store answers the query. *)
Definition persisted (env : environment) (op : db_op) (s : store) (from to : string)
    : option ExchangeRate :=
  match admin_client env, fault_of env op with
  | None, NoFault => latest_rate from to s
  | _, _ => None
  end.

Definition fresh_tier (env : environment) (s : store) (from to : string) : option JS.num :=
  match persisted env (SelectCachedRate from to) s from to with
  | Some row =>
      if JS.lt (age_hours env row) (JS.Fin 4) && JS.truthy (rate row)
      then Some (rate row) else None
  | None => None
  end.

Definition live_tier (env : environment) (from to : string) : option JS.num :=
  match provider env from with
  | Some rates =>
      match rates !! to with
      | Some v =>
          if JS.ToBoolean v && JS.truthy (JS.Number v) then Some (JS.Number v) else None
      | None => None
      end
  | None => None
  end.

Definition stale_tier (env : environment) (s : store) (from to : string) : option JS.num :=
  match persisted env (SelectStaleRate from to) s from to with
  | Some row => Some (rate row)
  | None => None
  end.

Definition tier_chain (this : CurrencyService.t) (env : environment) (s : store)
    (from to : string) : outcome JS.num :=
  if negb (JS.nonempty from) || negb (JS.nonempty to) then static_fallback this from to
  else if String.eqb from to then Returns (JS.Fin 1)
  else
    match fresh_tier env s from to with
    | Some r => Returns r
    | None =>
        match live_tier env from to with
        | Some r => Returns r
        | None =>
            match stale_tier env s from to with
            | Some r => Returns r
            | None => static_fallback this from to
            end
        end
    end.

(* ================================================================== *)
(** * Vocabulary of the further properties                             *)
(* ================================================================== *)

(** The row that [saveExchangeRate] inserts. *)
Definition rate_row (env : environment) (from to : string) (r : JS.num) (src : string)
    : ExchangeRate :=
  {| from_currency := from; to_currency := to; rate := r;
     recorded_at := now env; source := src |}.

Definition is_fetch (e : event) : bool :=
  match e with Fetch _ => true | Db _ => false end.

Definition is_write (e : event) : bool :=
  match e with
  | Db (InsertRate _ _ _) | Db (UpsertCurrentPrice _) | Db (InsertHistory _)
  | Db InsertRun | Db (UpsertRange _) => true
  | _ => false
  end.

(** From [w] to [w'] the trace grew by a given number of provider calls
    and of writes, and by reads. *)
Definition logged (w w' : world) (fetches writes : nat) : Prop :=
  exists evs,
    trace w' = (trace w ++ evs)%list
    /\ length (List.filter is_fetch evs) = fetches
    /\ length (List.filter is_write evs) = writes.

(** Two distinct codes, neither empty: a pair that [getCurrencyRate]
    resolves through its tiers. *)
Definition proper_pair (from to : string) : Prop :=
  JS.nonempty from = true /\ JS.nonempty to = true /\ String.eqb from to = false.

(** A string that has no white space at either end, is not empty and
    does not end with a slash. *)
Definition plain_url (u : string) : Prop :=
  u <> EmptyString
  /\ clean_head (list_ascii_of_string u)
  /\ match rev (list_ascii_of_string u) with
     | c :: _ => JS.is_space c = false /\ c <> "/"%char
     | [] => True
     end.

Definition blanks (s : string) : Prop :=
  Forall (fun c => JS.is_space c = true) (list_ascii_of_string s).



(** A store with three rows of history for gold. *)
Definition gold_history : world :=
  {| db := {| exchange_rates := [];
              commodities := ∅;
              price_ranges := [];
              current_prices := ∅;
              price_history :=
                [{| history_commodity_id := "gold"; history_price_zar := JS.Fin 300;
                    history_price_usd := JS.Fin 16.2; history_exchange_rate := JS.Fin 0.054;
                    recorded_date := 19670 |};
                 {| history_commodity_id := "silver"; history_price_zar := JS.Fin 20;
                    history_price_usd := JS.Fin 1.08; history_exchange_rate := JS.Fin 0.054;
                    recorded_date := 19670 |};
                 {| history_commodity_id := "gold"; history_price_zar := JS.Fin 280;
                    history_price_usd := JS.Fin 15.12; history_exchange_rate := JS.Fin 0.054;
                    recorded_date := 19660 |};
                 {| history_commodity_id := "gold"; history_price_zar := JS.Fin 250;
                    history_price_usd := JS.Fin 13.5; history_exchange_rate := JS.Fin 0.054;
                    recorded_date := 19000 |}];
              price_update_runs := [] |};
     trace := [];
     drawn := 0 |}.

(** The calendar of a process that runs in UTC. *)
Definition utc (now days : Z) : Z := (now / 86400000 - days)%Z.


(** Every row of the log of rates holds its two codes in normal form. *)
Definition canonical_rates (s : store) : Prop :=
  forall row, In row (exchange_rates s) ->
    CurrencyService.normaliseCurrencyCode (from_currency row) = from_currency row
    /\ CurrencyService.normaliseCurrencyCode (to_currency row) = to_currency row.

(** Every row of the pair in the log is older than the call. *)
Definition rates_past (env : environment) (from to : string) (s : store) : Prop :=
  forall row, In row (exchange_rates s) ->
    from_currency row = from -> to_currency row = to ->
    (recorded_at row < now env)%Z.

(** ** Prices and their ranges *)





(** The conditions under which a cycle gets to its fan-out: the client
    is there, the rate resolves to [zarToUsdRate], which is usable, and
    the ranges load. *)
Definition cycle_fans (this : CurrencyService.t) (env : environment) (w : world)
    (zarToUsdRate : JS.num) (w1 : world) : Prop :=
  admin_client env = None
  /\ CurrencyService.getCurrencyRate this env "ZAR" "USD" w = (Returns zarToUsdRate, w1)
  /\ JS.truthy zarToUsdRate = true
  /\ fault_of env SelectActiveRanges = NoFault.

(** What a cycle returns. *)
Definition summary_of (items : list (PriceRange * Commodity)) (t : PriceService.tally)
    : PriceService.summary :=
  {| PriceService.success := true;
     PriceService.updated := PriceService.updatedCount t;
     PriceService.total := length items;
     PriceService.summary_skipped := PriceService.skipped t;
     PriceService.summary_failures := PriceService.failures t |}.

(** The end of a cycle, from the world [w2] that its fan-out left: the
    rate is logged, then the run; an insert of the rate that throws ends
    the cycle there. *)
Definition cycle_closes (env : environment) (o : PriceService.options)
    (items : list (PriceRange * Commodity)) (zarToUsdRate : JS.num)
    (t : PriceService.tally) (w2 : world)
    (result : outcome PriceService.summary * world) : Prop :=
  let w' := snd result in
  commodities (db w') = commodities (db w2)
  /\ price_ranges (db w') = price_ranges (db w2)
  /\ current_prices (db w') = current_prices (db w2)
  /\ price_history (db w') = price_history (db w2)
  /\ attempted_updates (trace w') = attempted_updates (trace w2)
  /\ match fault_of env (InsertRate "ZAR" "USD" "daily_update") with
     | Exception e =>
         fst result = Throws e
         /\ exchange_rates (db w') = exchange_rates (db w2)
         /\ price_update_runs (db w') = price_update_runs (db w2)
         /\ run_inserts (trace w') = run_inserts (trace w2)
     | logged =>
         fst result = Returns (summary_of items t)
         /\ exchange_rates (db w')
            = (exchange_rates (db w2)
               ++ match logged with
                  | NoFault => [rate_row env "ZAR" "USD" zarToUsdRate "daily_update"]
                  | _ => []
                  end)%list
         /\ price_update_runs (db w')
            = (price_update_runs (db w2)
               ++ match fault_of env InsertRun with
                  | NoFault => [run_row env o (length items) t]
                  | _ => []
                  end)%list
         /\ run_inserts (trace w') = S (run_inserts (trace w2))
     end.

(** ** Manual updates *)




(** ** The routes *)





(** ** The batch of rates *)

(** A code that [normaliseCurrencyCode] leaves as it is. *)
Definition normal (code : string) : Prop :=
  CurrencyService.normaliseCurrencyCode code = code.

(** The inverse precision is one that [toFixed] accepts. *)
Definition precision_accepted (this : CurrencyService.t) : Prop :=
  exists d, JS.toFixed_digits (CurrencyService.precision this) = Some d.

(** The rate of a target in the table of the provider, when it is there
    as a number. *)
Definition table_rate (table : option (gmap string JS.value)) (target : string)
    : option JS.num :=
  match table with
  | Some table =>
      match table !! target with
      | Some (JS.VNum rate) => Some rate
      | _ => None
      end
  | None => None
  end.

(** What the tier chain gives for a pair, when it is a number that
    counts as true. *)
Definition resolved_rate (this : CurrencyService.t) (env : environment) (s : store)
    (base target : string) : option JS.num :=
  match tier_chain this env s base target with
  | Returns r => if JS.truthy r then Some r else None
  | Throws _ => None
  end.

(** The rate that [getCurrencyRates] reports for a target: the fresh
    persisted rate, else the number of the table, else what the tier
    chain gives. *)
Definition batch_rate (this : CurrencyService.t) (env : environment)
    (table : option (gmap string JS.value)) (s : store) (base target : string)
    : option JS.num :=
  match fresh_tier env s base target with
  | Some r => Some r
  | None =>
      match table_rate table target with
      | Some r => Some r
      | None => resolved_rate this env s base target
      end
  end.

(** The awaits that a call of [getCurrencyRate] has before it. *)
Definition rate_awaits_left (c : CurrencyService.rate_call) : nat :=
  match c with
  | CurrencyService.Resolved _ => 0
  | CurrencyService.AwaitsSave _ _ _ _ => 1
  | CurrencyService.AwaitsStale _ _ => 2
  | CurrencyService.AwaitsProvider _ _ => 3
  | CurrencyService.AwaitsCached _ _ => 4
  end.

Definition rate_awaits_left_at (cs : list (string * CurrencyService.rate_call)) (i : nat)
    : nat :=
  match cs !! i with Some tc => rate_awaits_left (snd tc) | None => 0 end.

(** From [s] to [s'] nothing changed, or the log of rates has one more
    row, of the pair of [base] and [target] and of this moment, with a
    rate and a source that [ok] accepts. *)
Definition grows (env : environment) (base target : string)
    (ok : JS.num -> string -> Prop) (s s' : store) : Prop :=
  same_prices s s'
  /\ (exchange_rates s' = exchange_rates s
      \/ exists r src,
           ok r src
           /\ exchange_rates s' = (exchange_rates s ++ [rate_row env base target r src])%list).

(** From [s0] to [s] the price tables are the same and the log of rates
    has grown by rows of [base], of this moment, that [ok] accepts. *)
Definition rows_added (env : environment) (base : string)
    (ok : string -> JS.num -> string -> Prop) (s0 s : store) : Prop :=
  same_prices s0 s
  /\ exists rows,
       exchange_rates s = (exchange_rates s0 ++ rows)%list
       /\ Forall (fun row => exists target r src,
                    row = rate_row env base target r src /\ ok target r src) rows.

(** The rate and the source of the row that a call of [getCurrencyRate]
    persists: the value of the tier chain on the store [s0], from the
    provider or from the fallback. *)
Definition call_row (this : CurrencyService.t) (env : environment) (s0 : store)
    (base target : string) (r : JS.num) (src : string) : Prop :=
  (src = "api"%string \/ src = "fallback"%string)
  /\ tier_chain this env s0 base target = Returns r
  /\ JS.truthy r = true.

(** A call of [getCurrencyRate] for [base] and [target] that started on
    the store [s0] and has got to the store [s] is on its way to the
    value of the tier chain on [s0]. *)
Definition call_on_track (this : CurrencyService.t) (env : environment) (s0 s : store)
    (base : string) (tc : string * CurrencyService.rate_call) : Prop :=
  let target := fst tc in
  match snd tc with
  | CurrencyService.Resolved r => tier_chain this env s0 base target = Returns r
  | CurrencyService.AwaitsSave f t r src =>
      f = base /\ t = target /\ call_row this env s0 base target r src
  | CurrencyService.AwaitsCached f t =>
      f = base /\ t = target /\ proper_pair base target
      /\ latest_rate base target s = latest_rate base target s0
  | CurrencyService.AwaitsProvider f t =>
      f = base /\ t = target /\ proper_pair base target
      /\ latest_rate base target s = latest_rate base target s0
      /\ fresh_tier env s0 base target = None
  | CurrencyService.AwaitsStale f t =>
      f = base /\ t = target /\ proper_pair base target
      /\ latest_rate base target s = latest_rate base target s0
      /\ fresh_tier env s0 base target = None
      /\ live_tier env base target = None
  end.

(** The call of a target in the second fan-out. *)
Definition call_of (cs : list (string * CurrencyService.rate_call)) (code : string)
    : option CurrencyService.rate_call :=
  match List.find (fun tc => String.eqb (fst tc) code) cs with
  | Some tc => Some (snd tc)
  | None => None
  end.

(** What [result] holds for a code during the second fan-out that
    started with [result1]: the value of the call of that code once it
    has settled with a number that counts as true. *)
Definition reported (result1 : gmap string JS.num)
    (cs : list (string * CurrencyService.rate_call)) (code : string) : option JS.num :=
  match call_of cs code with
  | Some (CurrencyService.Resolved r) => if JS.truthy r then Some r else result1 !! code
  | _ => result1 !! code
  end.

(** The rows that the second fan-out may add: the number of the table
    for a target whose insert the [forEach] started, or the row of a call
    of [getCurrencyRate] for a target that was left. *)
Definition pool_row (this : CurrencyService.t) (env : environment) (s0 : store)
    (base : string) (started : list (string * JS.num)) (unresolved : list string)
    (target : string) (r : JS.num) (src : string) : Prop :=
  (src = "api_batch"%string /\ In (target, r) started)
  \/ (target ∈ unresolved /\ call_row this env s0 base target r src).

(** The second fan-out on its way: the calls are of the targets that
    were left, which are distinct and in normal form, and are on track;
    the inserts under way are of other targets; [result] holds what the
    settled calls gave; and the store has grown by rows of the fan-out
    only. *)
Definition pool_on_track (this : CurrencyService.t) (env : environment) (s0 : store)
    (base : string) (result1 : gmap string JS.num) (started : list (string * JS.num))
    (unresolved : list string) (p : CurrencyService.pool) (w : world) : Prop :=
  (fst <$> CurrencyService.calls p) = unresolved
  /\ NoDup unresolved
  /\ Forall normal unresolved
  /\ Forall (call_on_track this env s0 (db w) base) (CurrencyService.calls p)
  /\ (forall i t r, CurrencyService.saves p !! i = Some (Some (t, r)) ->
        normal t /\ (t ∉ unresolved) /\ In (t, r) started)
  /\ (forall code,
        CurrencyService.rates p !! code = reported result1 (CurrencyService.calls p) code)
  /\ rows_added env base (pool_row this env s0 base started unresolved) s0 (db w).

(** The first fan-out between two steps, for the targets [targets] on
    the store [s0]: a target whose lookup is under way is in neither
    variable; one whose lookup is complete is in [result] with its fresh
    rate or, having none, in [missingTargets]. *)
Definition gathered_on_track (env : environment) (s0 : store) (base : string)
    (targets : list string) (pending : list (option string))
    (g : CurrencyService.gathered) : Prop :=
  length pending = length targets
  /\ NoDup (CurrencyService.missingTargets g)
  /\ (forall code, code ∉ targets ->
        CurrencyService.result g !! code = None
        /\ code ∉ CurrencyService.missingTargets g)
  /\ forall i t, targets !! i = Some t ->
       match pending !! i with
       | Some (Some t') =>
           t' = t /\ CurrencyService.result g !! t = None
           /\ t ∉ CurrencyService.missingTargets g
       | _ =>
           CurrencyService.result g !! t = fresh_tier env s0 base t
           /\ (t ∈ CurrencyService.missingTargets g <-> fresh_tier env s0 base t = None)
       end.

Definition lookups_left (pending : list (option string)) (i : nat) : nat :=
  match pending !! i with Some (Some _) => 1 | _ => 0 end.

(** The request settings of a process started with none of the variables
    set, and the provider of an environment asked for ZAR at the URL
    that these settings give. *)
Definition standard_settings : CurrencyService.request_settings :=
  CurrencyService.request_constructor
    {| CurrencyService.CURRENCY_API_URL := None;
       CurrencyService.CURRENCY_API_KEY := None;
       CurrencyService.CURRENCY_TABLE_CACHE_TTL_MS := None |}.

Definition table_request (env : environment) (url : string)
    : option (gmap string JS.value) :=
  if String.eqb url "https://api.exchangerate-api.com/v4/latest/ZAR"
  then provider env "ZAR" else None.

(** Seven targets in the spelling of a caller, and orders in which the
    awaited calls of the two fan-outs complete. *)
Definition asked : list string :=
  ["usd"; " eur"; "GBP"; "usd"; "JPY"; "zar"; "  "]%string.

Definition lookup_order : list nat := [3; 1]%nat.

Definition completion_order : list CurrencyService.completion :=
  [CurrencyService.CallDone 1; CurrencyService.SaveDone 0; CurrencyService.CallDone 0;
   CurrencyService.CallDone 0; CurrencyService.CallDone 1; CurrencyService.CallDone 0].

(* ================================================================== *)
(** * Rounding                                                         *)
(* ================================================================== *)

Lemma Qltb_lt x y : JS.Qltb x y = true <-> x < y.
Proof.
  unfold JS.Qltb. rewrite negb_true_iff. split.
  - intros H. apply Qnot_le_lt. intros L. apply Qle_bool_iff in L. congruence.
  - intros H. destruct (Qle_bool y x) eqn:E; [|reflexivity].
    apply Qle_bool_iff in E. lra.
Qed.



Lemma Qzero_eq x : JS.Qzero x = true <-> x == 0.
Proof. unfold JS.Qzero. apply Qeq_bool_iff. Qed.














(* ================================================================== *)
(** * Price synthesizer                                                *)
(* ================================================================== *)







(* ================================================================== *)
(** * Currency codes                                                   *)
(* ================================================================== *)

Lemma upper_char_idem c : JS.upper_char (JS.upper_char c) = JS.upper_char c.
Proof. destruct c as [[] [] [] [] [] [] [] []]; reflexivity. Qed.

Lemma upper_char_space c : JS.is_space (JS.upper_char c) = JS.is_space c.
Proof. destruct c as [[] [] [] [] [] [] [] []]; reflexivity. Qed.

Lemma drop_space_map l :
  JS.drop_space (List.map JS.upper_char l) = List.map JS.upper_char (JS.drop_space l).
Proof.
  induction l as [|c l IH]; [reflexivity|].
  simpl. rewrite upper_char_space. destruct (JS.is_space c); [exact IH | reflexivity].
Qed.

Lemma trim_chars_map l :
  JS.trim_chars (List.map JS.upper_char l) = List.map JS.upper_char (JS.trim_chars l).
Proof.
  unfold JS.trim_chars.
  rewrite drop_space_map, <- List.map_rev, drop_space_map, <- List.map_rev.
  reflexivity.
Qed.

Lemma drop_space_clean l : clean_head (JS.drop_space l).
Proof.
  induction l as [|c l IH]; [exact I|].
  simpl. destruct (JS.is_space c) eqn:E; [exact IH | exact E].
Qed.

Lemma drop_space_id l : clean_head l -> JS.drop_space l = l.
Proof. destruct l as [|c l]; [reflexivity|]. simpl. intros ->. reflexivity. Qed.

(** Dropping white space at the end keeps a clean head. *)
Lemma drop_end_clean l : clean_head l -> clean_head (rev (JS.drop_space (rev l))).
Proof.
  induction l as [|c l IH] using rev_ind; [intros _; exact I|].
  intros H. rewrite rev_app_distr. simpl.
  destruct (JS.is_space c) eqn:E.
  - apply IH. destruct l; [exact I | exact H].
  - simpl. rewrite rev_involutive. exact H.
Qed.

Lemma trim_chars_idem l : JS.trim_chars (JS.trim_chars l) = JS.trim_chars l.
Proof.
  unfold JS.trim_chars.
  rewrite (drop_space_id (rev (JS.drop_space (rev (JS.drop_space l))))).
  - rewrite rev_involutive. rewrite (drop_space_id (JS.drop_space _)); [reflexivity|].
    apply drop_space_clean.
  - apply drop_end_clean, drop_space_clean.
Qed.

(** Normalising a currency code twice is normalising it once. *)
Lemma normaliseCurrencyCode_idem code :
  CurrencyService.normaliseCurrencyCode (CurrencyService.normaliseCurrencyCode code)
  = CurrencyService.normaliseCurrencyCode code.
Proof.
  unfold CurrencyService.normaliseCurrencyCode, JS.toUpperCase, JS.trim.
  rewrite !list_ascii_of_string_of_list_ascii.
  rewrite trim_chars_map, trim_chars_idem, List.map_map.
  f_equal. apply List.map_ext. intros c. apply upper_char_idem.
Qed.

Lemma nonempty_false s : JS.nonempty s = false <-> s = EmptyString.
Proof. destruct s; simpl; split; congruence. Qed.

Lemma nonempty_true s : JS.nonempty s = true <-> s <> EmptyString.
Proof. destruct s; simpl; split; congruence. Qed.

(* ================================================================== *)
(** * Rate resolver                                                    *)
(* ================================================================== *)

Lemma attempted_updates_event tr e :
  attempted_updates (tr ++ [e])
  = (attempted_updates tr + (if is_update e then 1 else 0))%nat.
Proof.
  unfold attempted_updates. rewrite List.filter_app, length_app. simpl.
  destruct (is_update e); reflexivity.
Qed.

Lemma run_inserts_event tr e :
  run_inserts (tr ++ [e])
  = (run_inserts tr + (if is_run_insert e then 1 else 0))%nat.
Proof.
  unfold run_inserts. rewrite List.filter_app, length_app. simpl.
  destruct (is_run_insert e); reflexivity.
Qed.

Lemma rate_step_refl w : rate_step w w.
Proof. repeat split. Qed.

Lemma rate_step_trans w1 w2 w3 : rate_step w1 w2 -> rate_step w2 w3 -> rate_step w1 w3.
Proof.
  unfold rate_step, same_prices. intros H1 H2.
  destruct H1 as ((?&?&?&?&?)&?&?&?), H2 as ((?&?&?&?&?)&?&?&?).
  repeat split; congruence.
Qed.

(** Unfolding of the plumbing of computations. *)
Ltac unfold_M :=
  unfold adminClient, call, reading, writing, bind, ret, throw, try_catch, lift in *.

(** Closes [rate_step w w'] when [w'] is [w] after reads, provider calls
    and inserts of rates. *)
Ltac rate_step_tac :=
  unfold rate_step, same_prices; simpl;
  rewrite ?attempted_updates_event, ?run_inserts_event; simpl;
  repeat split; lia.

Lemma newer_fold_in rows : forall best row,
  foldl newer best rows = Some row ->
  best = Some row \/ In row rows.
Proof.
  induction rows as [|r rows IH]; intros best row H; simpl in H.
  - left. exact H.
  - apply IH in H. destruct H as [H | H]; [|right; right; exact H].
    unfold newer in H. destruct best as [b|].
    + destruct (recorded_at b <? recorded_at r)%Z; inversion H; subst; auto.
      right. left. reflexivity.
    + inversion H. right. left. reflexivity.
Qed.

(** The row that a rate query answers is a row of the pair in the table. *)
Lemma latest_rate_in f t s row :
  latest_rate f t s = Some row ->
  In row (exchange_rates s) /\ from_currency row = f /\ to_currency row = t.
Proof.
  unfold latest_rate. intros H. apply newer_fold_in in H.
  destruct H as [H | H]; [discriminate|].
  apply list_elem_of_In, list_elem_of_filter in H. destruct H as [[Hf Ht] Hin].
  apply list_elem_of_In in Hin. auto.
Qed.

Lemma getCachedExchangeRate_run env f t w :
  exists r w',
    CurrencyService.getCachedExchangeRate env f t w = (Returns r, w')
    /\ rate_step w w' /\ db w' = db w
    /\ (r = None
        \/ exists row,
             latest_rate (CurrencyService.normaliseCurrencyCode f)
                         (CurrencyService.normaliseCurrencyCode t) (db w) = Some row
             /\ r = Some (rate row)).
Proof.
  unfold CurrencyService.getCachedExchangeRate. unfold_M.
  destruct (admin_client env).
  { do 2 eexists. split; [reflexivity|]. split; [apply rate_step_refl|]. auto. }
  destruct (fault_of env _).
  - simpl. destruct (latest_rate _ _ (db w)) as [row|] eqn:L.
    + match goal with |- context [if ?c then _ else _] => destruct c end;
        do 2 eexists; (split; [reflexivity|]);
        (split; [rate_step_tac|]); split; eauto.
    + do 2 eexists. split; [reflexivity|].
      split; [rate_step_tac|]. auto.
  - do 2 eexists. split; [reflexivity|].
    split; [rate_step_tac|]. auto.
  - do 2 eexists. split; [reflexivity|].
    split; [rate_step_tac|]. auto.
Qed.

Lemma fetchExchangeRateFromAPI_run env f t w :
  exists r w',
    CurrencyService.fetchExchangeRateFromAPI env f t w = (Returns r, w')
    /\ rate_step w w' /\ db w' = db w
    /\ (r = None
        \/ exists rates v,
             provider env f = Some rates /\ rates !! t = Some v
             /\ r = Some (JS.Number v)).
Proof.
  unfold CurrencyService.fetchExchangeRateFromAPI.
  destruct (provider env f) as [rates|].
  - destruct (rates !! t) as [v|] eqn:L; simpl.
    + destruct (JS.ToBoolean v); do 2 eexists; (split; [reflexivity|]);
        (split; [rate_step_tac|]); (split; [reflexivity|]); eauto 10.
    + do 2 eexists. split; [reflexivity|].
      split; [rate_step_tac|]. auto.
  - do 2 eexists. split; [reflexivity|].
    split; [rate_step_tac|]. auto.
Qed.

Lemma saveExchangeRate_run env f t r src w :
  exists w',
    CurrencyService.saveExchangeRate env f t r src w = (Returns tt, w')
    /\ rate_step w w'.
Proof.
  unfold CurrencyService.saveExchangeRate. unfold_M.
  destruct (admin_client env).
  { eexists. split; [reflexivity|]. apply rate_step_refl. }
  destruct (fault_of env _); simpl; eexists; (split; [reflexivity|]).
  all: rate_step_tac.
Qed.

Lemma resolveFallbackRate_normalised this f t :
  CurrencyService.resolveFallbackRate this
    (CurrencyService.normaliseCurrencyCode f) (CurrencyService.normaliseCurrencyCode t)
  = CurrencyService.resolveFallbackRate this f t.
Proof.
  unfold CurrencyService.resolveFallbackRate.
  rewrite !normaliseCurrencyCode_idem. reflexivity.
Qed.

Lemma static_fallback_normalised this f t :
  static_fallback this
    (CurrencyService.normaliseCurrencyCode f) (CurrencyService.normaliseCurrencyCode t)
  = static_fallback this f t.
Proof. unfold static_fallback. rewrite resolveFallbackRate_normalised. reflexivity. Qed.

Lemma if_truthy_some o n : if_truthy o = Some n -> o = Some n /\ JS.truthy n = true.
Proof.
  destruct o as [m|]; simpl; [|discriminate].
  destruct (JS.truthy m) eqn:E; [|discriminate].
  intros H. inversion H. subst. auto.
Qed.

(** The [catch] block of [getCurrencyRate]. *)
Lemma getCurrencyRate_handler this f t w :
  (let* resolved := lift (CurrencyService.resolveFallbackRate this f t) in
   ret (resolved ?? CurrencyService.fallbackRate this)) w
  = (static_fallback this f t, w).
Proof.
  unfold static_fallback. unfold_M.
  destruct (CurrencyService.resolveFallbackRate this f t); reflexivity.
Qed.

(** [getCurrencyRate] is answered by one of its tiers, and touches nothing
    but the log of rates. *)
Lemma getCurrencyRate_answered this env f t w :
  exists o w',
    CurrencyService.getCurrencyRate this env f t w = (o, w')
    /\ rate_step w w'
    /\ answered this env w (CurrencyService.normaliseCurrencyCode f)
         (CurrencyService.normaliseCurrencyCode t) o.
Proof.
  unfold CurrencyService.getCurrencyRate.
  set (from := CurrencyService.normaliseCurrencyCode f).
  set (to := CurrencyService.normaliseCurrencyCode t).
  assert (Hfb : forall w1, rate_step w w1 ->
    exists o w', ((let* resolved := lift (CurrencyService.resolveFallbackRate this f t) in
                  ret (resolved ?? CurrencyService.fallbackRate this)) w1) = (o, w')
      /\ rate_step w w' /\ answered this env w from to o).
  { intros w1 H1. rewrite getCurrencyRate_handler. do 2 eexists.
    split; [reflexivity|]. split; [exact H1|].
    unfold from, to. rewrite <- static_fallback_normalised. apply by_fallback. }
  unfold try_catch at 1.
  destruct (negb (JS.nonempty from) || negb (JS.nonempty to)) eqn:Hne.
  { unfold throw at 1. apply Hfb, rate_step_refl. }
  apply orb_false_elim in Hne. destruct Hne as [Hf Ht].
  apply negb_false_iff, nonempty_true in Hf.
  destruct (String.eqb from to) eqn:Heq.
  { apply String.eqb_eq in Heq. unfold ret at 1. do 2 eexists.
    split; [reflexivity|]. split; [apply rate_step_refl|].
    apply by_identity; assumption. }
  unfold bind at 1.
  destruct (getCachedExchangeRate_run env from to w) as (r & w1 & E1 & S1 & D1 & R1).
  rewrite E1.
  destruct (if_truthy r) as [cachedRate|] eqn:Hc.
  { apply if_truthy_some in Hc. destruct Hc as [-> _].
    destruct R1 as [R1 | (row & L & R1)]; [discriminate|].
    inversion R1; subst. unfold from, to in L.
    rewrite !normaliseCurrencyCode_idem in L. apply latest_rate_in in L.
    destruct L as (Hin & Hfrom & Hto).
    unfold ret at 1. do 2 eexists. split; [reflexivity|]. split; [exact S1|].
    apply by_row; assumption. }
  unfold bind at 1.
  destruct (fetchExchangeRateFromAPI_run env from to w1) as (a & w2 & E2 & S2 & D2 & R2).
  rewrite E2.
  destruct (if_truthy a) as [apiRate|] eqn:Ha.
  { apply if_truthy_some in Ha. destruct Ha as [-> Htr].
    destruct R2 as [R2 | (rates & v & P & L & R2)]; [discriminate|].
    inversion R2; subst.
    unfold bind at 1.
    destruct (saveExchangeRate_run env from to (JS.Number v) "api" w2) as (w3 & E3 & S3).
    rewrite E3. unfold ret at 1. do 2 eexists. split; [reflexivity|].
    split; [eauto using rate_step_trans|].
    eapply by_provider; eassumption. }
  assert (S12 : rate_step w w2) by eauto using rate_step_trans.
  unfold bind at 1. unfold adminClient.
  destruct (admin_client env) as [e|].
  { unfold throw at 1. apply Hfb. exact S12. }
  unfold ret at 1. unfold bind at 1. unfold call.
  set (w3 := record_event (Db (SelectStaleRate from to)) w2).
  assert (S3 : rate_step w w3).
  { eapply rate_step_trans; [exact S12|]. unfold w3. rate_step_tac. }
  assert (Htail : exists o w',
    try_catch
      (let* resolved := lift (CurrencyService.resolveFallbackRate this from to) in
       let fallbackResolved := resolved ?? CurrencyService.fallbackRate this in
       if negb (JS.truthy fallbackResolved) || negb (JS.isFinite fallbackResolved)
       then throw (Error "Fallback exchange rate unavailable")
       else
         await CurrencyService.saveExchangeRate env from to fallbackResolved "fallback" in
         ret fallbackResolved)
      (fun _ =>
         let* resolved := lift (CurrencyService.resolveFallbackRate this f t) in
         ret (resolved ?? CurrencyService.fallbackRate this)) w3 = (o, w')
    /\ rate_step w w' /\ answered this env w from to o).
  { unfold try_catch at 1. unfold bind at 1. unfold lift at 1.
    unfold from at 1, to at 1. rewrite resolveFallbackRate_normalised.
    destruct (CurrencyService.resolveFallbackRate this f t) as [resolved|e] eqn:Hr.
    - cbv zeta.
      destruct (negb (JS.truthy (resolved ?? CurrencyService.fallbackRate this))
                || negb (JS.isFinite (resolved ?? CurrencyService.fallbackRate this))).
      + unfold throw at 1. apply Hfb. exact S3.
      + unfold bind at 1.
        destruct (saveExchangeRate_run env from to
                    (resolved ?? CurrencyService.fallbackRate this) "fallback" w3)
          as (w4 & E4 & S4).
        rewrite E4. unfold ret at 1. do 2 eexists. split; [reflexivity|].
        split; [eauto using rate_step_trans|].
        replace (Returns (resolved ?? CurrencyService.fallbackRate this))
          with (static_fallback this from to); [apply by_fallback|].
        unfold static_fallback, from, to.
        rewrite resolveFallbackRate_normalised, Hr. reflexivity.
    - apply Hfb. exact S3. }
  destruct (fault_of env (SelectStaleRate from to)) as [|e|e].
  - unfold reading. fold w3.
    destruct (latest_rate from to (db w3)) as [row|] eqn:L.
    + apply latest_rate_in in L. destruct L as (Hin & Hfrom & Hto).
      unfold ret at 1. do 2 eexists. split; [reflexivity|].
      split; [exact S3|].
      apply by_row; try assumption.
      unfold w3 in Hin. simpl in Hin. rewrite D2, D1 in Hin. exact Hin.
    + exact Htail.
  - exact Htail.
  - apply Hfb. exact S3.
Qed.

Lemma getCachedExchangeRate_fresh env from to w r w' :
  CurrencyService.getCachedExchangeRate env from to w = (Returns r, w') ->
  if_truthy r
  = fresh_tier env (db w)
      (CurrencyService.normaliseCurrencyCode from) (CurrencyService.normaliseCurrencyCode to).
Proof.
  unfold CurrencyService.getCachedExchangeRate, fresh_tier, persisted.
  unfold_M.
  destruct (admin_client env); [intros E; inversion E; subst; reflexivity|].
  destruct (fault_of env _); try (intros E; inversion E; subst; reflexivity).
  cbn [db record_event].
  destruct (latest_rate _ _ (db w)) as [row|];
    [|intros E; inversion E; subst; reflexivity].
  change (JS.div (JS.sub (JS.Fin (inject_Z (now env)))
                         (JS.Fin (inject_Z (recorded_at row))))
                 (JS.Fin (inject_Z (1000 * 60 * 60))))
    with (age_hours env row).
  destruct (JS.lt (age_hours env row) (JS.Fin 4));
    intros E; inversion E; subst; reflexivity.
Qed.

Lemma fetchExchangeRateFromAPI_live env from to w r w' :
  CurrencyService.fetchExchangeRateFromAPI env from to w = (Returns r, w') ->
  if_truthy r = live_tier env from to.
Proof.
  unfold CurrencyService.fetchExchangeRateFromAPI, live_tier.
  destruct (provider env from) as [rates|]; [|intros E; inversion E; subst; reflexivity].
  destruct (rates !! to) as [v|]; simpl; [|intros E; inversion E; subst; reflexivity].
  destruct (JS.ToBoolean v); intros E; inversion E; subst; reflexivity.
Qed.

(** [getCurrencyRate] computes the tier chain of the normalised codes on
    the store it starts from. *)
Lemma getCurrencyRate_tier_chain this env f t w :
  fst (CurrencyService.getCurrencyRate this env f t w)
  = tier_chain this env (db w)
      (CurrencyService.normaliseCurrencyCode f) (CurrencyService.normaliseCurrencyCode t).
Proof.
  unfold CurrencyService.getCurrencyRate, tier_chain.
  set (from := CurrencyService.normaliseCurrencyCode f).
  set (to := CurrencyService.normaliseCurrencyCode t).
  assert (Hfb : forall w1,
    fst ((let* resolved := lift (CurrencyService.resolveFallbackRate this f t) in
          ret (resolved ?? CurrencyService.fallbackRate this)) w1)
    = static_fallback this from to).
  { intros w1. rewrite getCurrencyRate_handler. unfold from, to.
    rewrite static_fallback_normalised. reflexivity. }
  unfold try_catch at 1.
  destruct (negb (JS.nonempty from) || negb (JS.nonempty to)).
  { unfold throw at 1. apply Hfb. }
  destruct (String.eqb from to); [reflexivity|].
  unfold bind at 1.
  destruct (getCachedExchangeRate_run env from to w) as (r & w1 & E1 & _ & D1 & _).
  pose proof (getCachedExchangeRate_fresh env from to w r w1 E1) as Hfresh.
  rewrite E1.
  unfold from at 1, to at 1 in Hfresh. rewrite !normaliseCurrencyCode_idem in Hfresh.
  fold from to in Hfresh. rewrite <- Hfresh.
  destruct (if_truthy r) as [cachedRate|]; [reflexivity|].
  unfold bind at 1.
  destruct (fetchExchangeRateFromAPI_run env from to w1) as (a & w2 & E2 & _ & D2 & _).
  pose proof (fetchExchangeRateFromAPI_live env from to w1 a w2 E2) as Hlive.
  rewrite E2. rewrite <- Hlive.
  destruct (if_truthy a) as [apiRate|].
  { unfold bind at 1.
    destruct (saveExchangeRate_run env from to apiRate "api" w2) as (w3 & E3 & _).
    rewrite E3. reflexivity. }
  unfold stale_tier, persisted.
  unfold bind at 1. unfold adminClient.
  destruct (admin_client env) as [e|].
  { unfold throw at 1. apply Hfb. }
  unfold ret at 1. unfold bind at 1. unfold call.
  set (w3 := record_event (Db (SelectStaleRate from to)) w2).
  assert (Htail :
    fst (try_catch
      (let* resolved := lift (CurrencyService.resolveFallbackRate this from to) in
       let fallbackResolved := resolved ?? CurrencyService.fallbackRate this in
       if negb (JS.truthy fallbackResolved) || negb (JS.isFinite fallbackResolved)
       then throw (Error "Fallback exchange rate unavailable")
       else
         await CurrencyService.saveExchangeRate env from to fallbackResolved "fallback" in
         ret fallbackResolved)
      (fun _ =>
         let* resolved := lift (CurrencyService.resolveFallbackRate this f t) in
         ret (resolved ?? CurrencyService.fallbackRate this)) w3)
    = static_fallback this from to).
  { unfold try_catch at 1. unfold bind at 1. unfold lift at 1.
    unfold from at 1, to at 1. rewrite resolveFallbackRate_normalised.
    destruct (CurrencyService.resolveFallbackRate this f t) as [resolved|e] eqn:Hr.
    - cbv zeta.
      destruct (negb (JS.truthy (resolved ?? CurrencyService.fallbackRate this))
                || negb (JS.isFinite (resolved ?? CurrencyService.fallbackRate this))).
      + unfold throw at 1. apply Hfb.
      + unfold bind at 1.
        destruct (saveExchangeRate_run env from to
                    (resolved ?? CurrencyService.fallbackRate this) "fallback" w3)
          as (w4 & E4 & _).
        rewrite E4. unfold ret at 1. simpl.
        unfold static_fallback, from, to.
        rewrite resolveFallbackRate_normalised, Hr. reflexivity.
    - apply Hfb. }
  destruct (fault_of env (SelectStaleRate from to)) as [|e|e].
  - unfold reading. fold w3.
    assert (Hdb : latest_rate from to (db w3) = latest_rate from to (db w))
      by (unfold w3; simpl; congruence).
    rewrite Hdb.
    destruct (latest_rate from to (db w)) as [row|]; [reflexivity|].
    exact Htail.
  - exact Htail.
  - apply Hfb.
Qed.













Example getRate_stale_row :
  fst (CurrencyService.getCurrencyRate CurrencyService.service (quiet 0) "zar" "usd" stale_world)
  = Returns (JS.Fin 0.05).
Proof. reflexivity. Qed.

(* ================================================================== *)
(** * Daily update orchestrator                                        *)
(* ================================================================== *)

Lemma usd_bounds_incomplete rate range :
  PriceService.usd_bounds rate range = None <-> incomplete range = true.
Proof.
  unfold PriceService.usd_bounds, incomplete, complete_pair.
  destruct (PriceService.parseNumber (min_price_usd range)),
           (PriceService.parseNumber (max_price_usd range)),
           (PriceService.parseNumber (min_price_zar range)),
           (PriceService.parseNumber (max_price_zar range));
    simpl; split; congruence.
Qed.

Lemma usd_bounds_complete rate range b :
  PriceService.usd_bounds rate range = Some b -> incomplete range = false.
Proof.
  intros H. destruct (incomplete range) eqn:E; [|reflexivity].
  apply usd_bounds_incomplete with (rate := rate) in E. congruence.
Qed.

Lemma prices_at_complete rate rate' range u zar usd :
  prices_at rate rate' range u zar usd -> incomplete range = false.
Proof. intros (a & b & H & _). eapply usd_bounds_complete, H. Qed.

(** Reading the current price never throws and changes nothing. *)
Lemma getCurrentPriceRecord_run env commodity w :
  exists r w',
    PriceService.getCurrentPriceRecord env commodity w = (Returns r, w')
    /\ db w' = db w /\ drawn w' = drawn w
    /\ attempted_updates (trace w') = attempted_updates (trace w)
    /\ run_inserts (trace w') = run_inserts (trace w).
Proof.
  unfold PriceService.getCurrentPriceRecord. unfold_M.
  destruct (admin_client env); [do 2 eexists; repeat split|].
  destruct (fault_of env _); simpl; do 2 eexists;
    (split; [reflexivity|]); simpl;
    rewrite attempted_updates_event, run_inserts_event; simpl;
    repeat split; lia.
Qed.

(** Closes [progress touched t w t' w'] for a tally and a world built
    from [t] and [w]. *)
Ltac progress_tac :=
  unfold progress; simpl;
  rewrite ?run_inserts_event; simpl;
  repeat split; try congruence; try lia;
  try (eexists; reflexivity);
  try (exists []; rewrite app_nil_r; reflexivity);
  try (intros; rewrite ?lookup_insert_ne by congruence; congruence).

Lemma progress_refl touched t w : progress touched t w t w.
Proof.
  unfold progress. repeat split; try reflexivity;
    exists []; rewrite app_nil_r; reflexivity.
Qed.

Lemma progress_trans (touched : string -> Prop) t1 w1 t2 w2 t3 w3 :
  progress touched t1 w1 t2 w2 -> progress touched t2 w2 t3 w3 ->
  progress touched t1 w1 t3 w3.
Proof.
  intros (A1 & (f1 & A2) & (h1 & A3) & A4 & A5 & A6 & A7 & A8 & A9 & A10)
         (B1 & (f2 & B2) & (h2 & B3) & B4 & B5 & B6 & B7 & B8 & B9 & B10).
  unfold progress. repeat split; try congruence.
  - exists (f1 ++ f2). rewrite B2, A2, app_assoc. reflexivity.
  - exists (h1 ++ h2). rewrite B3, A3, app_assoc. reflexivity.
  - intros id Hid. rewrite B4, A4; auto.
Qed.

Lemma progress_weaken (touched touched' : string -> Prop) t w t' w' :
  (forall id, touched id -> touched' id) ->
  progress touched t w t' w' -> progress touched' t w t' w'.
Proof.
  intros Hsub (A1 & A2 & A3 & A4 & A5). unfold progress.
  repeat split; try tauto. intros id Hid. apply A4. auto.
Qed.

(** A callback runs to its first await: skipped and settled, or priced
    and suspended. *)
Lemma launch_run env rate rate' range commodity t w :
  exists c t' w',
    PriceService.launch env rate rate' (range, commodity) t w = (Returns (c, t'), w')
    /\ db w' = db w /\ trace w' = trace w
    /\ PriceService.updatedCount t' = PriceService.updatedCount t
    /\ PriceService.failures t' = PriceService.failures t
    /\ (if incomplete range
        then c = PriceService.Settled
             /\ PriceService.skipped t'
                = PriceService.skipped t ++ [PriceService.skipped_entry range]
        else PriceService.skipped t' = PriceService.skipped t
             /\ exists zar usd,
                  c = PriceService.AwaitsCurrent range commodity zar usd
                  /\ prices_at rate rate' range (random env (drawn w)) zar usd).
Proof.
  unfold PriceService.launch.
  destruct (PriceService.usd_bounds rate range) as [[minUsd maxUsd]|] eqn:B.
  - rewrite (usd_bounds_complete _ _ _ B).
    unfold PriceService.generateRandomPrice, PriceService.Math_random, bind, ret.
    do 3 eexists. split; [reflexivity|]. simpl. repeat split.
    do 2 eexists. split; [reflexivity|].
    exists minUsd, maxUsd. split; [exact B|]. split; reflexivity.
  - apply usd_bounds_incomplete in B. rewrite B. unfold ret.
    do 3 eexists. split; [reflexivity|]. simpl. repeat split.
Qed.

(** A callback is resumed: it moves on by one await at least, and the
    books stay balanced. *)
Lemma resume_run env rate c t w :
  exists c' t' w',
    PriceService.resume env rate c t w = (Returns (c', t'), w')
    /\ progress (fun id => commodity_of c = Some id) t w t' w'
    /\ (awaits_left c' <= pred (awaits_left c))%nat
    /\ (attempted_updates (trace w') + one_if (before_upsert c')
        = attempted_updates (trace w) + one_if (before_upsert c))%nat
    /\ (PriceService.updatedCount t' + length (PriceService.failures t')
        + one_if (unsettled c')
        = PriceService.updatedCount t + length (PriceService.failures t)
          + one_if (unsettled c))%nat
    /\ (length (price_history (db w')) + PriceService.updatedCount t
        = length (price_history (db w)) + PriceService.updatedCount t')%nat.
Proof.
  destruct c as [|range commodity zar usd|range commodity zar usd change
                 |range commodity zar usd]; unfold PriceService.resume.
  - unfold ret. do 3 eexists. split; [reflexivity|].
    split; [apply progress_refl|]. simpl. repeat split; lia.
  - unfold bind at 1.
    destruct (getCurrentPriceRecord_run env (range_commodity_id range) w)
      as (r & w1 & E1 & D1 & N1 & U1 & R1).
    rewrite E1. unfold ret. do 3 eexists. split; [reflexivity|].
    split; [|simpl; rewrite D1; repeat split; lia].
    unfold progress. rewrite D1. repeat split; try assumption;
      exists []; rewrite app_nil_r; reflexivity.
  - unfold try_catch, bind, call, writing, PriceService.caught, ret, throw.
    destruct (fault_of env (UpsertCurrentPrice (range_commodity_id range)));
      do 3 eexists; (split; [reflexivity|]);
      (split; [progress_tac|]); simpl;
      rewrite ?attempted_updates_event, ?length_app; simpl; repeat split; lia.
  - unfold try_catch, bind, call, writing, PriceService.caught, ret, throw.
    destruct (fault_of env (InsertHistory (range_commodity_id range)));
      do 3 eexists; (split; [reflexivity|]);
      (split; [progress_tac|]); simpl;
      rewrite ?attempted_updates_event, ?length_app; simpl; repeat split; lia.
Qed.

Lemma count_cons P c cs : count P (c :: cs) = (one_if (P c) + count P cs)%nat.
Proof. unfold count, one_if. simpl. destruct (P c); reflexivity. Qed.

(** Replacing one callback moves a count by the difference of the two. *)
Lemma count_insert P cs : forall i c c',
  cs !! i = Some c ->
  (count P (<[i := c']> cs) + one_if (P c) = count P cs + one_if (P c'))%nat.
Proof.
  induction cs as [|x cs IH]; intros i c c' H; [discriminate|].
  destruct i as [|i]; simpl in *.
  - inversion H; subst. rewrite !count_cons. lia.
  - rewrite !count_cons. specialize (IH i c c' H). lia.
Qed.

Lemma awaits_left_at_cons c cs i :
  awaits_left_at (c :: cs) (S i) = awaits_left_at cs i.
Proof. reflexivity. Qed.

(** When no callback has an await before it, none is counted. *)
Lemma count_settled cs :
  (forall i, awaits_left_at cs i = 0%nat) ->
  count before_upsert cs = 0%nat /\ count unsettled cs = 0%nat.
Proof.
  induction cs as [|c cs IH]; intros H; [split; reflexivity|].
  destruct IH as [I1 I2].
  { intros i. specialize (H (S i)). exact H. }
  specialize (H 0%nat). unfold awaits_left_at in H. simpl in H.
  rewrite !count_cons, I1, I2. destruct c; simpl in *; try discriminate.
  split; reflexivity.
Qed.

Lemma awaits_left_at_insert cs i j c' :
  awaits_left_at (<[i := c']> cs) j
  = if decide (i = j /\ (i < length cs)%nat) then awaits_left c' else awaits_left_at cs j.
Proof.
  unfold awaits_left_at. rewrite list_lookup_insert.
  destruct (decide (i = j /\ (i < length cs)%nat)); reflexivity.
Qed.

(** The callbacks launched for a list of ranges: one for each, the
    incomplete ranges skipped, the others priced in the order of the
    list; the store and the trace are as before. *)
Lemma launch_all_run env rate rate' items : forall t w,
  exists cs t' w',
    PriceService.launch_all env rate rate' items t w = (Returns (cs, t'), w')
    /\ length cs = length items
    /\ db w' = db w /\ trace w' = trace w
    /\ PriceService.updatedCount t' = PriceService.updatedCount t
    /\ PriceService.failures t' = PriceService.failures t
    /\ length (PriceService.skipped t')
       = (length (PriceService.skipped t) + incomplete_count items)%nat
    /\ (count before_upsert cs + incomplete_count items = length items)%nat
    /\ (count unsettled cs + incomplete_count items = length items)%nat
    /\ (forall w0 t1 w1, Forall2 (on_course env rate rate' w0 t1 w1) items cs).
Proof.
  induction items as [|[range commodity] rest IH]; intros t w.
  - do 3 eexists. split; [reflexivity|]. simpl. unfold incomplete_count. simpl.
    repeat split; try lia. intros. constructor.
  - cbn [PriceService.launch_all]. unfold bind at 1.
    destruct (launch_run env rate rate' range commodity t w)
      as (c & t1 & w1 & E1 & D1 & T1 & U1 & F1 & C1).
    rewrite E1. cbn [fst snd]. unfold bind at 1.
    destruct (IH t1 w1) as (cs & t' & w' & E & L & D & T & U & F & S & B & N & O).
    rewrite E. unfold ret. cbn [fst snd].
    do 3 eexists. split; [reflexivity|].
    unfold incomplete_count in *. simpl. rewrite !count_cons.
    destruct (incomplete range) eqn:Hi; simpl.
    + destruct C1 as [-> C1]. simpl.
      split; [lia|]. split; [congruence|]. split; [congruence|].
      split; [congruence|]. split; [congruence|].
      split; [rewrite S, C1, length_app; simpl; lia|].
      split; [lia|]. split; [lia|].
      intros w0 t2 w2. constructor; [|apply O]. left. exact Hi.
    + destruct C1 as [C1 (zar & usd & -> & P)]. simpl.
      split; [lia|]. split; [congruence|]. split; [congruence|].
      split; [congruence|]. split; [congruence|].
      split; [rewrite S, C1; lia|].
      split; [lia|]. split; [lia|].
      intros w0 t2 w2. constructor; [|apply O]. simpl. split; [reflexivity|]. eauto.
Qed.

(** The commodities that resuming callback [i] may touch. *)
Lemma resume_at_run env rate i cs t w :
  exists cs' t' w',
    PriceService.resume_at env rate i (cs, t) w = (Returns (cs', t'), w')
    /\ length cs' = length cs
    /\ progress (fun id => exists c, cs !! i = Some c /\ commodity_of c = Some id) t w t' w'
    /\ (forall j, awaits_left_at cs' j <= awaits_left_at cs j)%nat
    /\ (awaits_left_at cs' i <= pred (awaits_left_at cs i))%nat
    /\ (forall w0 n, balanced w0 n cs t w -> balanced w0 n cs' t' w')
    /\ match cs !! i with
       | Some c =>
           exists c', PriceService.resume env rate c t w = (Returns (c', t'), w')
                      /\ cs' = <[i := c']> cs
       | None => cs' = cs /\ t' = t /\ w' = w
       end.
Proof.
  unfold PriceService.resume_at. cbn [fst snd].
  destruct (cs !! i) as [c|] eqn:Hc.
  - unfold bind at 1.
    destruct (resume_run env rate c t w) as (c' & t' & w' & E & P & A & B1 & B2 & B3).
    rewrite E. unfold ret. cbn [fst snd].
    do 3 eexists. split; [reflexivity|].
    split; [apply length_insert|].
    split; [eapply progress_weaken; [|exact P]; simpl; eauto|].
    assert (Hlt : (i < length cs)%nat) by (eapply lookup_lt_Some; eauto).
    split; [|split; [|split]].
    + intros j. rewrite awaits_left_at_insert. case_decide as Hd; [|lia].
      destruct Hd as [<- _]. unfold awaits_left_at. rewrite Hc. lia.
    + rewrite awaits_left_at_insert. rewrite decide_True by auto.
      unfold awaits_left_at. rewrite Hc. exact A.
    + intros w0 n (Q1 & Q2 & Q3). unfold balanced.
      pose proof (count_insert before_upsert cs i c c' Hc).
      pose proof (count_insert unsettled cs i c c' Hc).
      repeat split; lia.
    + eauto.
  - unfold ret. do 3 eexists. split; [reflexivity|].
    split; [reflexivity|]. split; [apply progress_refl|].
    split; [intros; lia|].
    split; [unfold awaits_left_at; rewrite Hc; simpl; lia|]. auto.
Qed.

(** Resuming callbacks in any order keeps the books, lets no callback
    fall back, and moves on those that the order names. *)
Lemma resume_each_run env rate order : forall cs t w,
  exists cs' t' w',
    PriceService.resume_each env rate order (cs, t) w = (Returns (cs', t'), w')
    /\ length cs' = length cs
    /\ progress (fun _ => True) t w t' w'
    /\ (forall j, awaits_left_at cs' j <= awaits_left_at cs j)%nat
    /\ (forall j, In j order -> awaits_left_at cs' j <= pred (awaits_left_at cs j))%nat
    /\ (forall w0 n, balanced w0 n cs t w -> balanced w0 n cs' t' w').
Proof.
  induction order as [|i rest IH]; intros cs t w.
  - do 3 eexists. split; [reflexivity|]. split; [reflexivity|].
    split; [apply progress_refl|]. split; [intros; lia|]. split; [intros j []|]. auto.
  - cbn [PriceService.resume_each]. unfold bind at 1.
    destruct (resume_at_run env rate i cs t w)
      as (cs1 & t1 & w1 & E1 & L1 & P1 & A1 & D1 & B1 & _).
    rewrite E1.
    destruct (IH cs1 t1 w1) as (cs' & t' & w' & E & L & P & A & D & B).
    rewrite E. do 3 eexists. split; [reflexivity|].
    split; [congruence|].
    split; [eapply progress_trans; [eapply progress_weaken; [|exact P1]; auto | exact P]|].
    split; [intros j; specialize (A j); specialize (A1 j); lia|].
    split; [|auto].
    intros j [<- | Hin].
    + specialize (A i). lia.
    + specialize (D j Hin). specialize (A1 j). lia.
Qed.

Lemma resume_each_app env rate order1 order2 f w :
  PriceService.resume_each env rate (order1 ++ order2) f w
  = (let* f' := PriceService.resume_each env rate order1 f in
     PriceService.resume_each env rate order2 f') w.
Proof.
  revert f w. induction order1 as [|i rest IH]; intros f w.
  - unfold bind. reflexivity.
  - cbn [app PriceService.resume_each]. unfold bind.
    destruct (PriceService.resume_at env rate i f w) as [[f1|e] w1]; [|reflexivity].
    specialize (IH f1 w1). unfold bind in IH. exact IH.
Qed.

Lemma incomplete_count_le items : (incomplete_count items <= length items)%nat.
Proof. unfold incomplete_count. apply List.filter_length_le. Qed.

Lemma awaits_left_at_le cs j : (awaits_left_at cs j <= 3)%nat.
Proof.
  unfold awaits_left_at. destruct (cs !! j) as [c|]; [destruct c; simpl; lia | lia].
Qed.

Lemma awaits_left_at_out cs j : (length cs <= j)%nat -> awaits_left_at cs j = 0%nat.
Proof.
  intros H. unfold awaits_left_at. rewrite lookup_ge_None_2 by exact H. reflexivity.
Qed.

(** Three rounds over all the callbacks settle every one of them. *)
Lemma settle_run env rate cs t w :
  let round := seq 0 (length cs) in
  exists cs' t' w',
    PriceService.resume_each env rate (round ++ round ++ round) (cs, t) w
    = (Returns (cs', t'), w')
    /\ progress (fun _ => True) t w t' w'
    /\ (forall j, awaits_left_at cs' j = 0%nat)
    /\ (forall w0 n, balanced w0 n cs t w -> balanced w0 n cs' t' w').
Proof.
  intros round.
  rewrite resume_each_app. unfold bind at 1.
  destruct (resume_each_run env rate round cs t w)
    as (cs1 & t1 & w1 & E1 & L1 & P1 & A1 & D1 & B1).
  rewrite E1. rewrite resume_each_app. unfold bind at 1.
  destruct (resume_each_run env rate round cs1 t1 w1)
    as (cs2 & t2 & w2 & E2 & L2 & P2 & A2 & D2 & B2).
  rewrite E2.
  destruct (resume_each_run env rate round cs2 t2 w2)
    as (cs3 & t3 & w3 & E3 & L3 & P3 & A3 & D3 & B3).
  rewrite E3. do 3 eexists. split; [reflexivity|].
  split; [eauto using progress_trans|]. split; [|auto].
  intros j. destruct (Nat.lt_ge_cases j (length cs)) as [Hlt | Hge].
  - assert (Hin : In j round) by (apply in_seq; lia).
    specialize (D1 j Hin). specialize (D2 j Hin). specialize (D3 j Hin).
    pose proof (awaits_left_at_le cs j). lia.
  - apply awaits_left_at_out. lia.
Qed.

(** The fan-out settles every callback, whatever the schedule. *)
Lemma Promise_all_run env rate rate' items w :
  exists t w',
    PriceService.Promise_all env rate rate' items
      {| PriceService.updatedCount := 0; PriceService.skipped := [];
         PriceService.failures := [] |} w
    = (Returns t, w')
    /\ fanned items w t w'.
Proof.
  unfold PriceService.Promise_all. unfold bind at 1.
  destruct (launch_all_run env rate rate' items
              {| PriceService.updatedCount := 0; PriceService.skipped := [];
                 PriceService.failures := [] |} w)
    as (cs0 & t0 & w0 & E0 & L0 & D0 & T0 & U0 & F0 & S0 & B0 & N0 & _).
  rewrite E0. unfold bind at 1.
  destruct (resume_each_run env rate (schedule env) cs0 t0 w0)
    as (cs1 & t1 & w1 & E1 & L1 & P1 & _ & _ & Bal1).
  rewrite E1. cbv zeta. unfold bind at 1.
  replace (length items) with (length cs1) by congruence.
  destruct (settle_run env rate cs1 t1 w1) as (cs2 & t2 & w2 & E2 & P2 & Z2 & Bal2).
  rewrite E2. unfold ret. cbn [snd]. do 2 eexists. split; [reflexivity|].
  pose proof (incomplete_count_le items) as Hle.
  assert (Hbal : balanced w0 (length items - incomplete_count items) cs0 t0 w0).
  { unfold balanced. rewrite U0, F0. simpl. repeat split; lia. }
  apply Bal1, Bal2 in Hbal. destruct Hbal as (Q1 & Q2 & Q3).
  destruct (count_settled cs2 Z2) as [C1 C2]. rewrite C1 in Q1. rewrite C2 in Q2.
  pose proof (progress_trans _ _ _ _ _ _ _ P1 P2)
    as (G1 & _ & (new & G3) & _ & G5 & G6 & G7 & G8 & G9 & _).
  simpl in S0. unfold fanned. rewrite T0 in Q1. rewrite D0 in *.
  repeat split; try congruence; try lia.
  exists new. exact G3.
Qed.

(** Resuming a callback that is on course leaves it on course. *)
Lemma resume_on_course env rate rate' w0 t w item c c' t' w' :
  on_course env rate rate' w0 t w item c ->
  (exists new, price_history (db w) = price_history (db w0) ++ new) ->
  PriceService.resume env rate c t w = (Returns (c', t'), w') ->
  on_course env rate rate' w0 t' w' item c'.
Proof.
  intros Hc (new & Hnew).
  destruct c as [|range commodity zar usd|range commodity zar usd change
                 |range commodity zar usd]; unfold PriceService.resume.
  - unfold ret. intros E. inversion E; subst. exact Hc.
  - unfold bind at 1.
    destruct (getCurrentPriceRecord_run env (range_commodity_id range) w)
      as (r & w1 & E1 & _).
    rewrite E1. unfold ret. intros E. inversion E; subst. exact Hc.
  - destruct Hc as [<- (u & Hp)]. simpl.
    pose proof (prices_at_complete _ _ _ _ _ _ Hp) as Hi.
    unfold try_catch, bind, call, writing, PriceService.caught, ret, throw.
    destruct (fault_of env (UpsertCurrentPrice (range_commodity_id range))) eqn:F;
      intros E; inversion E; subst; simpl.
    + split; [reflexivity|]. split; [exact F|].
      exists u. eexists. split; [exact Hp|].
      split; [apply lookup_insert_eq|]. repeat split.
    + right. split; [exact Hi|]. unfold write_fault. rewrite F.
      apply in_or_app. right. left. reflexivity.
    + right. split; [exact Hi|]. unfold write_fault. rewrite F.
      apply in_or_app. right. left. reflexivity.
  - destruct Hc as [<- (F & u & row & Hp & Hcp & Hz & Hu & Hr & Hl)]. simpl in *.
    pose proof (prices_at_complete _ _ _ _ _ _ Hp) as Hi.
    unfold try_catch, bind, call, writing, PriceService.caught, ret, throw.
    destruct (fault_of env (InsertHistory (range_commodity_id range))) eqn:F2;
      intros E; inversion E; subst; simpl; right; (split; [exact Hi|]);
      unfold write_fault; rewrite F, F2.
    + exists row. eexists. exists u. eexists.
      split; [|split; [exact Hcp|split]].
      * split; [exact Hp|]. split; [reflexivity|]. split; [exact Hl | reflexivity].
      * rewrite Hnew, <- app_assoc. reflexivity.
      * apply in_or_app. right. left. reflexivity.
    + apply in_or_app. right. left. reflexivity.
    + apply in_or_app. right. left. reflexivity.
Qed.

(** A callback stays on course while others are resumed, as long as they
    do not touch its commodity. *)
Lemma on_course_stable env rate rate' w0 (touched : string -> Prop) t w t' w' item c :
  on_course env rate rate' w0 t w item c ->
  progress touched t w t' w' ->
  ~ touched (range_commodity_id (fst item)) ->
  on_course env rate rate' w0 t' w' item c.
Proof.
  intros Hc (_ & (fs & Hf) & (hs & Hh) & Hcp & _) Hnot.
  destruct c as [|range commodity zar usd|range commodity zar usd change
                 |range commodity zar usd]; simpl in *; try exact Hc.
  - destruct Hc as [Hi | [Hi Hc]]; [left; exact Hi|]. right. split; [exact Hi|].
    destruct (write_fault env (range_commodity_id (fst item))) as [e|].
    + rewrite Hf. apply in_or_app. left. exact Hc.
    + destruct Hc as (row & h & u & new & Hw & Hrow & Hn & Hin).
      exists row, h, u, (new ++ hs).
      split; [exact Hw|]. split; [rewrite Hcp; auto|].
      split; [rewrite Hh, Hn, app_assoc; reflexivity|].
      apply in_or_app. left. exact Hin.
  - destruct Hc as (Heq & F & u & row & Hp & Hrow & Hrest).
    split; [exact Heq|]. split; [exact F|]. exists u, row.
    split; [exact Hp|]. split; [rewrite Hcp; auto|]. exact Hrest.
Qed.

Lemma on_course_commodity env rate rate' w0 t w item c id :
  on_course env rate rate' w0 t w item c ->
  commodity_of c = Some id -> id = range_commodity_id (fst item).
Proof.
  destruct c; simpl; intros Hc Hid; try discriminate;
    destruct Hc as [<- _]; simpl; congruence.
Qed.

Lemma ids_lookup items i item :
  items !! i = Some item -> ids items !! i = Some (range_commodity_id (fst item)).
Proof. intros H. unfold ids. rewrite list_lookup_fmap, H. reflexivity. Qed.

(** With distinct commodities, resuming one callback leaves all of them
    on course. *)
Lemma resume_at_on_course env rate rate' w0 items i cs t w cs' t' w' :
  NoDup (ids items) ->
  Forall2 (on_course env rate rate' w0 t w) items cs ->
  (exists new, price_history (db w) = price_history (db w0) ++ new) ->
  PriceService.resume_at env rate i (cs, t) w = (Returns (cs', t'), w') ->
  Forall2 (on_course env rate rate' w0 t' w') items cs'
  /\ (exists new, price_history (db w') = price_history (db w0) ++ new).
Proof.
  intros Hnd Hall (new & Hnew) E.
  destruct (resume_at_run env rate i cs t w)
    as (cs1 & t1 & w1 & E1 & L1 & P1 & _ & _ & _ & S1).
  rewrite E in E1. inversion E1; subst cs1 t1 w1. clear E1.
  split.
  2:{ destruct P1 as (_ & _ & (hs & Hh) & _). exists (new ++ hs).
      rewrite Hh, Hnew, app_assoc. reflexivity. }
  destruct (cs !! i) as [c|] eqn:Hci.
  2:{ destruct S1 as (-> & -> & ->). exact Hall. }
  destruct S1 as (c' & Er & ->).
  apply Forall2_same_length_lookup_2.
  { rewrite length_insert. eapply Forall2_length, Hall. }
  intros j item cj Hitem Hcj.
  destruct (decide (i = j)) as [<- | Hne].
  - rewrite list_lookup_insert_eq in Hcj by (eapply lookup_lt_Some; eauto).
    inversion Hcj; subst cj.
    eapply resume_on_course; [|eauto|exact Er].
    eapply Forall2_lookup_lr; eauto.
  - rewrite list_lookup_insert_ne in Hcj by exact Hne.
    eapply on_course_stable; [eapply Forall2_lookup_lr; eauto | exact P1 |].
    intros (c0 & Hc0 & Hid). inversion Hc0; subst c0.
    destruct (Forall2_lookup_r _ _ _ _ _ Hall Hci) as (item_i & Hitem_i & Hoc).
    apply (on_course_commodity _ _ _ _ _ _ _ _ _ Hoc) in Hid.
    apply Hne. eapply NoDup_lookup; [exact Hnd | |].
    + apply ids_lookup. exact Hitem_i.
    + rewrite <- Hid. apply ids_lookup. exact Hitem.
Qed.

Lemma resume_each_on_course env rate rate' w0 items order : forall cs t w cs' t' w',
  NoDup (ids items) ->
  Forall2 (on_course env rate rate' w0 t w) items cs ->
  (exists new, price_history (db w) = price_history (db w0) ++ new) ->
  PriceService.resume_each env rate order (cs, t) w = (Returns (cs', t'), w') ->
  Forall2 (on_course env rate rate' w0 t' w') items cs'
  /\ (exists new, price_history (db w') = price_history (db w0) ++ new).
Proof.
  induction order as [|i rest IH]; intros cs t w cs' t' w' Hnd Hall Hnew E.
  - inversion E; subst. auto.
  - cbn [PriceService.resume_each] in E. unfold bind at 1 in E.
    destruct (resume_at_run env rate i cs t w) as (cs1 & t1 & w1 & E1 & _).
    rewrite E1 in E.
    destruct (resume_at_on_course _ _ _ _ _ _ _ _ _ _ _ _ Hnd Hall Hnew E1) as [H1 N1].
    eapply IH; eauto.
Qed.

(** With distinct commodities, every range is where the faults of the
    store put it when the fan-out is over: skipped, failed and listed, or
    updated and written. *)
Lemma Promise_all_on_course env rate rate' items w t w' :
  NoDup (ids items) ->
  PriceService.Promise_all env rate rate' items
    {| PriceService.updatedCount := 0; PriceService.skipped := [];
       PriceService.failures := [] |} w
  = (Returns t, w') ->
  forall item, In item items ->
    on_course env rate rate' w t w' item PriceService.Settled.
Proof.
  intros Hnd E item Hin.
  unfold PriceService.Promise_all in E. unfold bind at 1 in E.
  destruct (launch_all_run env rate rate' items
              {| PriceService.updatedCount := 0; PriceService.skipped := [];
                 PriceService.failures := [] |} w)
    as (cs0 & t0 & w0 & E0 & L0 & D0 & _ & _ & _ & _ & _ & _ & O0).
  rewrite E0 in E. unfold bind at 1 in E.
  destruct (resume_each_run env rate (schedule env) cs0 t0 w0)
    as (cs1 & t1 & w1 & E1 & L1 & _).
  rewrite E1 in E. cbv zeta in E. unfold bind at 1 in E.
  replace (length items) with (length cs1) in E by congruence.
  destruct (settle_run env rate cs1 t1 w1) as (cs2 & t2 & w2 & E2 & _ & Z2 & _).
  rewrite E2 in E. unfold ret in E. cbn [snd] in E. inversion E; subst t2 w2.
  assert (H0 : exists new, price_history (db w0) = price_history (db w) ++ new).
  { exists []. rewrite app_nil_r, D0. reflexivity. }
  destruct (resume_each_on_course _ _ _ _ _ _ _ _ _ _ _ _ Hnd (O0 w t0 w0) H0 E1)
    as [O1 H1].
  destruct (resume_each_on_course _ _ _ _ _ _ _ _ _ _ _ _ Hnd O1 H1 E2) as [O2 _].
  apply list_elem_of_In, list_elem_of_lookup_1 in Hin. destruct Hin as (i & Hi).
  destruct (Forall2_lookup_l _ _ _ _ _ O2 Hi) as (c & Hc & Hoc).
  specialize (Z2 i). unfold awaits_left_at in Z2. rewrite Hc in Z2.
  destruct c; simpl in Z2; try discriminate. exact Hoc.
Qed.

Lemma rate_step_active_ranges w w1 :
  rate_step w w1 -> active_ranges (db w1) = active_ranges (db w).
Proof.
  intros ((Hc & Hr & _) & _).
  unfold active_ranges, select_active_ranges, join_commodity. rewrite Hc, Hr.
  reflexivity.
Qed.

(** A cycle that gets past its top-level steps runs the fan-out over the
    active ranges, logs the rate and the run, and returns its summary. *)
Lemma updateDailyPrices_run this env o w rate w1 :
  cycle_starts this env w rate w1 ->
  exists t w2 w',
    PriceService.Promise_all env rate (JS.toFixed (JS.div (JS.Fin 1) rate) 6)
      (active_ranges (db w))
      {| PriceService.updatedCount := 0; PriceService.skipped := [];
         PriceService.failures := [] |}
      (record_event (Db SelectActiveRanges) w1)
    = (Returns t, w2)
    /\ fanned (active_ranges (db w)) (record_event (Db SelectActiveRanges) w1) t w2
    /\ PriceService.updateDailyPrices this env o w
       = (Returns {| PriceService.success := true;
                     PriceService.updated := PriceService.updatedCount t;
                     PriceService.total := length (active_ranges (db w));
                     PriceService.summary_skipped := PriceService.skipped t;
                     PriceService.summary_failures := PriceService.failures t |}, w')
    /\ cycle_end env (run_row env o (length (active_ranges (db w))) t) w2 w'
    /\ rate_step w w1.
Proof.
  intros (Hclient & Hrate & Htruthy & Hsel & Hlog).
  destruct (getCurrencyRate_answered this env "ZAR" "USD" w) as (o' & w1' & E & Hstep & _).
  rewrite Hrate in E. inversion E; subst o' w1'. clear E.
  pose proof (rate_step_active_ranges _ _ Hstep) as Hact.
  unfold PriceService.updateDailyPrices, try_catch.
  unfold bind at 1. unfold adminClient. rewrite Hclient. unfold ret at 1.
  unfold bind at 1. rewrite Hrate, Htruthy. cbn [negb].
  unfold bind at 1, call at 1. rewrite Hsel. unfold reading at 1.
  change (List.filter (fun range => commodity_is_active (snd range))
            (select_active_ranges (db (record_event (Db SelectActiveRanges) w1))))
    with (active_ranges (db w1)).
  rewrite Hact.
  change (with_db (db (record_event (Db SelectActiveRanges) w1))
                  (record_event (Db SelectActiveRanges) w1))
    with (record_event (Db SelectActiveRanges) w1).
  unfold bind at 1.
  destruct (Promise_all_run env rate (JS.toFixed (JS.div (JS.Fin 1) rate) 6)
              (active_ranges (db w)) (record_event (Db SelectActiveRanges) w1))
    as (t & w2 & Efan & Hfan).
  rewrite Efan.
  exists t, w2.
  destruct (fault_of env (InsertRate "ZAR" "USD" "daily_update")) as [|e|e] eqn:F1;
    [| | exfalso; eapply Hlog; eauto];
    destruct (fault_of env InsertRun) as [|e'|e'] eqn:F2;
    unfold bind, try_catch, call, ret, writing; rewrite F1; simpl; rewrite F2;
    eexists; (split; [reflexivity|]); (split; [exact Hfan|]);
    (split; [reflexivity|]); (split; [|exact Hstep]);
    unfold cycle_end; rewrite F2; simpl;
    rewrite ?attempted_updates_event, ?run_inserts_event; simpl;
    rewrite ?app_nil_r; repeat split; lia.
Qed.

(** A cycle gets past its top-level steps, or it throws without a run row. *)
Lemma updateDailyPrices_cases this env o w :
  (exists rate w1, cycle_starts this env w rate w1)
  \/ (exists e w',
        PriceService.updateDailyPrices this env o w = (Throws e, w')
        /\ price_update_runs (db w') = price_update_runs (db w)
        /\ run_inserts (trace w') = run_inserts (trace w)).
Proof.
  destruct (getCurrencyRate_answered this env "ZAR" "USD" w) as (o' & w1 & E & Hstep & _).
  pose proof Hstep as ((_ & _ & _ & _ & Hruns) & _ & _ & Hri).
  unfold PriceService.updateDailyPrices, try_catch, cycle_starts.
  unfold bind at 1, adminClient.
  destruct (admin_client env) as [e|] eqn:Hclient.
  { right. unfold throw at 1. do 2 eexists. repeat split. }
  unfold ret at 1. unfold bind at 1. rewrite E.
  destruct o' as [rate|e].
  2:{ right. do 2 eexists. split; [reflexivity|]. auto. }
  destruct (JS.truthy rate) eqn:Htruthy; cbn [negb].
  2:{ right. do 2 eexists. split; [reflexivity|]. auto. }
  unfold bind at 1, call at 1.
  destruct (fault_of env SelectActiveRanges) as [|e|e] eqn:Hsel.
  2,3: right; do 2 eexists; (split; [reflexivity|]); simpl;
       rewrite run_inserts_event; simpl; split; [congruence | lia].
  destruct (fault_of env (InsertRate "ZAR" "USD" "daily_update")) as [|e|e] eqn:Hlog.
  1,2: left; exists rate, w1; repeat split; auto; congruence.
  right. unfold reading at 1. unfold bind at 1.
  match goal with
  | |- context [PriceService.Promise_all _ _ _ ?items _ ?w0] =>
      destruct (Promise_all_run env rate (JS.toFixed (JS.div (JS.Fin 1) rate) 6)
                  items w0) as (t & w2 & Efan & Hfan)
  end.
  rewrite Efan. destruct Hfan as (_ & _ & _ & _ & _ & _ & _ & _ & F1 & F2).
  simpl in F1, F2. rewrite run_inserts_event in F2. simpl in F2.
  unfold bind at 1, call at 1. rewrite Hlog.
  do 2 eexists. split; [reflexivity|]. simpl.
  rewrite run_inserts_event. simpl. split; [congruence | lia].
Qed.

(** C2 (as amended). In a cycle over N active ranges of which K have an
    incomplete bound pair, whatever the order in which the callbacks
    proceed, exactly N - K per-commodity updates are attempted, [skipped]
    has exactly K entries, and exactly one insert of a PriceUpdateRun row
    is made; the row is written when the store takes it, and its
    [total_commodities] is N, the skipped ranges included, as is the
    [total] that the cycle returns. *)
Theorem dailyPrices_counts (this : CurrencyService.t) (env : environment)
    (o : PriceService.options) (w : world) (zarToUsdRate : JS.num) (w1 : world) :
  cycle_starts this env w zarToUsdRate w1 ->
  let N := length (active_ranges (db w)) in
  let K := incomplete_count (active_ranges (db w)) in
  exists (s : PriceService.summary) (w' : world),
    PriceService.updateDailyPrices this env o w = (Returns s, w')
    /\ attempted_updates (trace w') = (attempted_updates (trace w) + (N - K))%nat
    /\ length (PriceService.summary_skipped s) = K
    /\ PriceService.total s = N
    /\ run_inserts (trace w') = S (run_inserts (trace w))
    /\ (fault_of env InsertRun = NoFault ->
        exists row,
          price_update_runs (db w') = price_update_runs (db w) ++ [row]
          /\ total_commodities row = N
          /\ updated_commodities row = PriceService.updated s)
    /\ (fault_of env InsertRun <> NoFault ->
        price_update_runs (db w') = price_update_runs (db w)).
Proof.
  intros Hstart N K.
  destruct (updateDailyPrices_run this env o w zarToUsdRate w1 Hstart)
    as (t & w2 & w' & _ & Hfan & Hrun & Hend & Hstep).
  destruct Hstep as ((_ & _ & _ & _ & Hruns) & _ & Hup & Hri).
  destruct Hfan as (F3 & F4 & _ & _ & _ & _ & _ & _ & F1 & F2).
  destruct Hend as (_ & _ & _ & _ & E5 & E6 & E7).
  simpl in F1, F2, F3, F4.
  rewrite attempted_updates_event in F3. rewrite run_inserts_event in F2.
  simpl in F2, F3.
  pose proof (incomplete_count_le (active_ranges (db w))) as Hle.
  fold N K in F3, F4, Hle.
  eexists. exists w'. split; [exact Hrun|]. simpl.
  repeat split; try lia.
  - intros Hok. rewrite Hok in E5. exists (run_row env o N t).
    split; [|split; reflexivity]. rewrite E5, F1, Hruns. reflexivity.
  - intros Hko. rewrite E5.
    destruct (fault_of env InsertRun); [contradiction| |];
      rewrite app_nil_r; congruence.
Qed.

Lemma dailyPrices_counts_witness :
  exists (s : PriceService.summary) (w' : world),
    PriceService.updateDailyPrices CurrencyService.service
      (interleaved (1 # 2) mixed_order) cron market
    = (Returns s, w')
    /\ attempted_updates (trace w') = 5%nat
    /\ length (PriceService.summary_skipped s) = 1%nat
    /\ PriceService.total s = 6%nat
    /\ List.map total_commodities (price_update_runs (db w')) = [6%nat].
Proof.
  destruct (dailyPrices_counts CurrencyService.service
              (interleaved (1 # 2) mixed_order) cron market
              (JS.Fin 0.054)
              (snd (CurrencyService.getCurrencyRate CurrencyService.service
                      (interleaved (1 # 2) mixed_order)
                      "ZAR" "USD" market)))
    as (s & w' & E & A & S & T & _ & R & _).
  - repeat split; try reflexivity. intros e. discriminate.
  - exists s, w'. split; [exact E|]. split; [exact A|]. split; [exact S|].
    split; [exact T|].
    destruct (R eq_refl) as (row & Hr & Ht & _).
    rewrite Hr. simpl. rewrite Ht. vm_compute. reflexivity.
Defined.

(** C2, the input on which the claim as stated fails: with one active
    range, and that one incomplete, N - K is 0, and the row of the run
    has [total_commodities = 1]. *)
Lemma dailyPrices_total_includes_skipped :
  length (active_ranges (db lone_incomplete)) = 1%nat
  /\ incomplete_count (active_ranges (db lone_incomplete)) = 1%nat
  /\ List.map total_commodities
       (price_update_runs
          (db (snd (PriceService.updateDailyPrices CurrencyService.service
                      (quiet (1 # 2)) cron lone_incomplete))))
     = [1%nat]
  /\ (1 <> 1 - 1)%nat.
Proof. repeat split. vm_compute. lia. Qed.

(** C10. Every PriceUpdateRun row that [updateDailyPrices] writes (it
    writes at most one) has status 'success' if and only if at least one
    commodity was updated in the cycle, and 'no_updates' otherwise; the
    updates it counts are the PriceHistory rows that the cycle added.  A
    cycle in which every commodity was skipped or failed reads
    'no_updates': no other status exists. *)
Theorem run_status (this : CurrencyService.t) (env : environment)
    (o : PriceService.options) (w : world) :
  let w' := snd (PriceService.updateDailyPrices this env o w) in
  exists rows : list PriceUpdateRun,
    price_update_runs (db w') = price_update_runs (db w) ++ rows
    /\ (length rows <= 1)%nat
    /\ forall row, In row rows ->
         (updated_commodities row + length (price_history (db w))
          = length (price_history (db w')))%nat
         /\ (status row = "success" <-> (0 < updated_commodities row)%nat)
         /\ (status row = "no_updates" <-> updated_commodities row = 0%nat)
         /\ (status row = "success" \/ status row = "no_updates").
Proof.
  intros w'. subst w'.
  destruct (updateDailyPrices_cases this env o w)
    as [(rate & w1 & Hstart) | (e & w' & E & Hruns & _)].
  2:{ rewrite E. simpl. exists []. rewrite app_nil_r.
      split; [exact Hruns|]. split; [simpl; lia|]. intros row []. }
  destruct (updateDailyPrices_run this env o w rate w1 Hstart)
    as (t & w2 & w' & _ & Hfan & Hrun & Hend & Hstep).
  rewrite Hrun. simpl.
  destruct Hstep as ((_ & _ & _ & Hhist & Hruns) & _).
  destruct Hfan as (_ & _ & _ & F6 & _ & _ & _ & _ & F1 & _).
  destruct Hend as (_ & _ & _ & E4 & E5 & _).
  simpl in F1, F6. rewrite Hhist in F6.
  eexists. split; [rewrite E5, F1, Hruns; reflexivity|].
  split; [destruct (fault_of env InsertRun); simpl; lia|].
  intros row Hin.
  assert (row = run_row env o (length (active_ranges (db w))) t) as ->.
  { destruct (fault_of env InsertRun); simpl in Hin; intuition. }
  simpl. rewrite E4.
  split; [lia|].
  destruct (PriceService.updatedCount t) as [|n]; simpl;
    repeat split; intros; try discriminate; try lia; auto.
Qed.

(** C4. In every cycle, whatever the order in which the callbacks
    proceed, when a persistence write of one commodity fails, the failure
    is caught for that item and is in [failures] with the commodity's id,
    symbol and message; every commodity whose own writes go through is
    updated all the same, its new price being in CurrentPrice and in the
    PriceHistory added by the cycle; the cycle returns an overall success
    with the failures in it; and the PriceUpdateRun row is written, the
    store taking it.  The active ranges have distinct commodities, as the
    store guarantees. *)
Theorem dailyPrices_isolates_failure (this : CurrencyService.t) (env : environment)
    (o : PriceService.options) (w : world) (zarToUsdRate : JS.num) (w1 : world)
    (range : PriceRange) (commodity : Commodity) (e : js_error) :
  cycle_starts this env w zarToUsdRate w1 ->
  NoDup (ids (active_ranges (db w))) ->
  In (range, commodity) (active_ranges (db w)) ->
  incomplete range = false ->
  write_fault env (range_commodity_id range) = Some e ->
  exists (s : PriceService.summary) (w' : world),
    PriceService.updateDailyPrices this env o w = (Returns s, w')
    /\ PriceService.success s = true
    /\ In {| PriceService.commodityId := range_commodity_id range;
             PriceService.symbol := Some (commodity_symbol commodity);
             PriceService.message := err_message e;
             PriceService.code := err_code e;
             PriceService.details := err_details e;
             PriceService.hint := err_hint e |}
          (PriceService.summary_failures s)
    /\ (forall range' commodity',
          In (range', commodity') (active_ranges (db w)) ->
          incomplete range' = false ->
          write_fault env (range_commodity_id range') = None ->
          exists row h new u,
            written env zarToUsdRate (JS.toFixed (JS.div (JS.Fin 1) zarToUsdRate) 6)
              range' u row h
            /\ current_prices (db w') !! range_commodity_id range' = Some row
            /\ price_history (db w') = price_history (db w) ++ new
            /\ In h new)
    /\ (fault_of env InsertRun = NoFault ->
        exists row,
          price_update_runs (db w') = price_update_runs (db w) ++ [row]
          /\ updated_commodities row = PriceService.updated s).
Proof.
  intros Hstart Hnd Hin Hc Hw.
  destruct (updateDailyPrices_run this env o w zarToUsdRate w1 Hstart)
    as (t & w2 & w' & Eall & Hfan & Hrun & Hend & Hstep).
  destruct Hstep as ((_ & _ & _ & Hhist & Hruns) & _).
  pose proof (Promise_all_on_course _ _ _ _ _ _ _ Hnd Eall) as Hcourse.
  eexists. exists w'. split; [exact Hrun|]. simpl.
  split; [reflexivity|]. split; [|split].
  - specialize (Hcourse _ Hin). simpl in Hcourse.
    destruct Hcourse as [Hi | [_ Hf]]; [congruence|].
    rewrite Hw in Hf. exact Hf.
  - intros range' commodity' Hin' Hc' Hw'.
    specialize (Hcourse _ Hin'). simpl in Hcourse.
    destruct Hcourse as [Hi | [_ Hu]]; [congruence|].
    rewrite Hw' in Hu. destruct Hu as (row & h & u & new & Hwr & Hcp & Hh & Hnew).
    destruct Hend as (_ & _ & E3 & E4 & _).
    exists row, h, new, u. split; [exact Hwr|].
    split; [rewrite E3; exact Hcp|]. split; [|exact Hnew].
    rewrite E4, Hh. simpl. rewrite Hhist. reflexivity.
  - intros Hok. destruct Hend as (_ & _ & _ & _ & E5 & _).
    rewrite Hok in E5.
    exists (run_row env o (length (active_ranges (db w))) t).
    split; [|reflexivity].
    destruct Hfan as (_ & _ & _ & _ & _ & _ & _ & _ & F1 & _).
    simpl in F1. rewrite E5, F1, Hruns. reflexivity.
Qed.

Lemma dailyPrices_isolates_failure_witness :
  exists (s : PriceService.summary) (w' : world),
    PriceService.updateDailyPrices CurrencyService.service
      (refusing "copper" (1 # 2) other_order) cron market
    = (Returns s, w')
    /\ PriceService.success s = true
    /\ In {| PriceService.commodityId := "copper";
             PriceService.symbol := Some "copper"%string;
             PriceService.message := "connection reset";
             PriceService.code := Some "08006"%string;
             PriceService.details := None;
             PriceService.hint := None |}
          (PriceService.summary_failures s)
    /\ (exists row, current_prices (db w') !! "tin"%string = Some row
                    /\ current_price_usd row = JS.Fin (13 # 2))
    /\ List.map history_commodity_id (price_history (db w'))
       = ["tin"; "gold"; "silver"; "lead"]%string
    /\ length (price_update_runs (db w')) = 1%nat.
Proof.
  destruct (dailyPrices_isolates_failure CurrencyService.service
              (refusing "copper" (1 # 2) other_order) cron market
              (JS.Fin 0.054)
              (snd (CurrencyService.getCurrencyRate CurrencyService.service
                      (refusing "copper" (1 # 2) other_order)
                      "ZAR" "USD" market))
              (usd_range "copper" 3 4) (commodity "copper") store_error)
    as (s & w' & E & S & F & U & R).
  - repeat split; try reflexivity. intros e. discriminate.
  - apply (bool_decide_unpack _). vm_compute. exact I.
  - vm_compute. tauto.
  - reflexivity.
  - reflexivity.
  - exists s, w'. split; [exact E|]. split; [exact S|]. split; [exact F|].
    assert (E' : (s, w') = (match PriceService.updateDailyPrices CurrencyService.service
                      (refusing "copper" (1 # 2) other_order)
                      cron market with
                            | (Returns s0, w0) => (s0, w0)
                            | (Throws _, w0) => (s, w0)
                            end)) by (rewrite E; reflexivity).
    vm_compute in E'. inversion E'; subst s w'. clear E' E U R F S.
    split; [|split]; [|vm_compute; reflexivity..].
    eexists. split; vm_compute; reflexivity.
Defined.

(** The pieces of the callback, run one after the other without anything
    in between, are the callback as it is written. *)
Lemma update_range_uninterrupted env rate rate' item t w :
  PriceService.update_range env rate rate' item t w
  = (let* launched := PriceService.launch env rate rate' item t in
     let* first := PriceService.resume env rate (fst launched) (snd launched) in
     let* second := PriceService.resume env rate (fst first) (snd first) in
     let* third := PriceService.resume env rate (fst second) (snd second) in
     ret (snd third)) w.
Proof.
  destruct item as [range commodity].
  unfold PriceService.update_range, PriceService.launch.
  destruct (PriceService.usd_bounds rate range) as [[minUsd maxUsd]|]; [|reflexivity].
  unfold PriceService.generateRandomPrice, PriceService.Math_random.
  unfold try_catch, bind, ret. cbn [fst snd PriceService.resume].
  unfold try_catch, bind, ret.
  destruct (getCurrentPriceRecord_run env (range_commodity_id range)
              {| db := db w; trace := trace w; drawn := S (drawn w) |})
    as (r & w1 & E1 & _).
  rewrite E1. cbn [fst snd PriceService.resume].
  unfold try_catch, bind, ret, call, writing, throw, PriceService.caught.
  destruct (fault_of env (UpsertCurrentPrice (range_commodity_id range)));
    cbn [fst snd PriceService.resume]; try reflexivity.
  unfold try_catch, bind, ret, call, writing, throw, PriceService.caught.
  destruct (fault_of env (InsertHistory (range_commodity_id range))); reflexivity.
Qed.

(** Two orders of completion give the same summary and the same current
    prices; the history has the same rows in another order. *)
Example dailyPrices_any_order :
  let run order :=
    PriceService.updateDailyPrices CurrencyService.service
      (interleaved (1 # 2) order) cron market in
  fst (run mixed_order) = fst (run other_order)
  /\ current_prices (db (snd (run mixed_order)))
     = current_prices (db (snd (run other_order)))
  /\ List.map history_commodity_id (price_history (db (snd (run [])))) 
     = ["gold"; "silver"; "copper"; "tin"; "lead"]%string
  /\ List.map history_commodity_id (price_history (db (snd (run other_order))))
     = ["tin"; "gold"; "copper"; "silver"; "lead"]%string.
Proof. vm_compute. repeat split. Qed.

(* ================================================================== *)
(** * Manual update and range editor                                   *)
(* ================================================================== *)


(** C3, the code at a failing input.  A manual update of gold to 10 USD
    derives the ZAR price at the resolved rate, writes CurrentPrice,
    PriceHistory and the run row with [trigger_source = manual_single],
    and then throws a ReferenceError instead of returning its result. *)
Theorem updateCommodityPrice_throws_after_writing :
  let call :=
    PriceService.updateCommodityPrice CurrencyService.service (quiet 0) "gold"
      {| PriceService.priceUsd := JS.VNum (JS.Fin 10);
         PriceService.priceZar := JS.VUndefined |}
      None "manual_single" market in
  fst call = Throws (ReferenceError "change24h is not defined")
  /\ (exists row,
        current_prices (db (snd call)) !! "gold"%string = Some row
        /\ current_price_usd row = JS.Fin 10
        /\ JS.strict_eq (current_price_zar row) (JS.Fin 185.1852) = true
        /\ current_exchange_rate row = JS.Fin 0.054)
  /\ List.map history_commodity_id (price_history (db (snd call))) = ["gold"%string]
  /\ List.map trigger_source (price_update_runs (db (snd call))) = ["manual_single"%string].
Proof.
  vm_compute. split; [reflexivity|]. split; [|split; reflexivity].
  eexists. split; [reflexivity|]. repeat split.
Qed.



(** A range in ZAR whose bounds coincide once converted and rounded is
    rejected too, though it is increasing in ZAR. *)
Example updatePriceRange_rejects_collapsed :
  fst (PriceService.updatePriceRange CurrencyService.service (quiet 0) "gold"
         {| PriceService.minPriceUsd := JS.VUndefined;
            PriceService.maxPriceUsd := JS.VUndefined;
            PriceService.minPriceZar := JS.VNum (JS.Fin 0.0001);
            PriceService.maxPriceZar := JS.VNum (JS.Fin 0.0002) |}
         None market)
  = Throws bounds_rejected.
Proof. reflexivity. Qed.

(** An increasing range is written. *)
Example updatePriceRange_accepts :
  List.map (fun row => (range_commodity_id row, min_price_usd row, max_price_usd row))
    (price_ranges
       (db (snd (PriceService.updatePriceRange CurrencyService.service (quiet 0) "gold"
                   {| PriceService.minPriceUsd := JS.VNum (JS.Fin 11);
                      PriceService.maxPriceUsd := JS.VNum (JS.Fin 12);
                      PriceService.minPriceZar := JS.VUndefined;
                      PriceService.maxPriceZar := JS.VUndefined |}
                   None lone_incomplete))))
  = [("gold"%string, JS.VNum (JS.Fin 11), JS.VNum (JS.Fin 12))].
Proof. vm_compute. reflexivity. Qed.

(* ================================================================== *)
(** * Worked examples                                                  *)
(* ================================================================== *)

Example StringToNumber_samples :
  JS.strict_eq (JS.StringToNumber "0.054") (JS.Fin 0.054) = true
  /\ JS.strict_eq (JS.StringToNumber "  12e-1 ") (JS.Fin 1.2) = true
  /\ JS.StringToNumber "" = JS.Fin 0
  /\ JS.StringToNumber "-Infinity" = JS.NInf
  /\ JS.StringToNumber "0x1f" = JS.Fin 31
  /\ JS.StringToNumber "1,5" = JS.NaN
  /\ JS.StringToNumber "." = JS.NaN
  /\ JS.StringToNumber "abc" = JS.NaN.
Proof. vm_compute. repeat split. Qed.

(** The constructor reads its settings from the environment variables
    that are set, and normalises the codes. *)
Example constructor_configured :
  CurrencyService.constructor
    {| CurrencyService.CURRENCY_FALLBACK_RATE := Some "0.5"%string;
       CurrencyService.CURRENCY_FALLBACK_BASE_FROM := Some " eur"%string;
       CurrencyService.CURRENCY_FALLBACK_BASE_TO := Some ""%string;
       CurrencyService.CURRENCY_FALLBACK_INVERSE_PRECISION := Some "2"%string |}
  = {| CurrencyService.fallbackRate := JS.Fin 0.5;
       CurrencyService.fallbackBaseFrom := "EUR";
       CurrencyService.fallbackBaseTo := "USD";
       CurrencyService.fallbackInversePrecision := JS.Fin 2 |}.
Proof. reflexivity. Qed.

(** The live tier: the rate is returned and persisted with source 'api';
    a rate given as a string is read as a number; a rate of zero counts
    as missing, and the chain goes on to the fallback constant. *)
Example getRate_live :
  let call to := CurrencyService.getCurrencyRate CurrencyService.service live "zar" to blank in
  fst (call "usd") = Returns (JS.Fin 0.055)
  /\ List.map source (exchange_rates (db (snd (call "usd")))) = ["api"%string]
  /\ JS.strict_eq (match fst (call "eur") with Returns r => r | Throws _ => JS.NaN end)
       (JS.Fin 0.05) = true
  /\ fst (call "gbp") = Returns (JS.Fin 0.054)
  /\ List.map source (exchange_rates (db (snd (call "gbp")))) = ["fallback"%string].
Proof. vm_compute. repeat split. Qed.

(** Within the freshness window a second call is answered by the row that
    the first call persisted, without a call of the provider. *)
Example getRate_twice :
  let first := CurrencyService.getCurrencyRate CurrencyService.service live "ZAR" "USD" blank in
  let second :=
    CurrencyService.getCurrencyRate CurrencyService.service live "ZAR" "USD"
      {| db := db (snd first); trace := []; drawn := 0 |} in
  trace (snd first) = [Db (SelectCachedRate "ZAR" "USD"); Fetch "ZAR";
                       Db (InsertRate "ZAR" "USD" "api")]
  /\ fst second = Returns (JS.Fin 0.055)
  /\ trace (snd second) = [Db (SelectCachedRate "ZAR" "USD")].
Proof. vm_compute. repeat split. Qed.

(** With nothing reachable the resolver still answers, from its [catch]
    block. *)
Example getRate_cut_off :
  CurrencyService.getCurrencyRate CurrencyService.service cut_off "USD" "ZAR" blank
  = (Returns (JS.Fin 18.518519),
     {| db := empty_store; trace := [Fetch "USD"]; drawn := 0 |}).
Proof. vm_compute. reflexivity. Qed.

(* ================================================================== *)
(** * Codes, request URLs and the table cache                          *)
(* ================================================================== *)

Lemma trim_idem s : JS.trim (JS.trim s) = JS.trim s.
Proof.
  unfold JS.trim. rewrite list_ascii_of_string_of_list_ascii, trim_chars_idem. reflexivity.
Qed.


(** ** Searching *)

Lemma append_cons c (a b : string) :
  String.append (String c a) b = String c (String.append a b).
Proof. reflexivity. Qed.

Lemma append_nil_l (b : string) : String.append EmptyString b = b.
Proof. reflexivity. Qed.

Lemma drop_prefix_app p a : JS.drop_prefix p (String.append p a) = Some a.
Proof.
  induction p as [|c p IH]; [destruct a; reflexivity|].
  rewrite append_cons. cbn [JS.drop_prefix]. rewrite Ascii.eqb_refl. exact IH.
Qed.

Lemma drop_prefix_some p : forall s a, JS.drop_prefix p s = Some a -> s = String.append p a.
Proof.
  induction p as [|c p IH]; intros s a; simpl.
  - destruct s; intros E; inversion E; reflexivity.
  - destruct s as [|d s]; [discriminate|].
    destruct (Ascii.eqb c d) eqn:E; [|discriminate].
    apply Ascii.eqb_eq in E. subst d. intros H. rewrite (IH _ _ H). reflexivity.
Qed.

Lemma search_some p : forall s b a,
  JS.search p s = Some (b, a) -> s = String.append b (String.append p a).
Proof.
  induction s as [|c s IH]; intros b a; simpl.
  - destruct (JS.drop_prefix p EmptyString) as [r|] eqn:E; [|discriminate].
    intros H. inversion H; subst. rewrite append_nil_l. apply (drop_prefix_some _ _ _ E).
  - destruct (JS.drop_prefix p (String c s)) as [r|] eqn:E.
    + intros H. inversion H; subst. rewrite append_nil_l. apply (drop_prefix_some _ _ _ E).
    + destruct (JS.search p s) as [[b' a']|] eqn:S; [|discriminate].
      intros H. inversion H; subst. rewrite append_cons. f_equal. apply IH. reflexivity.
Qed.

Lemma search_app p a : forall b, JS.search p (String.append b (String.append p a)) <> None.
Proof.
  induction b as [|c b IH]; [rewrite append_nil_l | rewrite append_cons].
  - destruct (String.append p a) eqn:E; cbn [JS.search];
      rewrite <- ?E; rewrite drop_prefix_app; discriminate.
  - cbn [JS.search]. destruct (JS.drop_prefix p (String c (String.append b (String.append p a))));
      [discriminate|].
    destruct (JS.search p (String.append b (String.append p a))) as [[? ?]|];
      [discriminate | contradiction].
Qed.

Lemma includes_app p b a : JS.includes (String.append b (String.append p a)) p = true.
Proof.
  unfold JS.includes.
  pose proof (search_app p a b) as H.
  destruct (JS.search p (String.append b (String.append p a))); [reflexivity | contradiction].
Qed.

Lemma append_assoc (a b c : string) :
  String.append (String.append a b) c = String.append a (String.append b c).
Proof. induction a as [|x a IH]; [reflexivity | rewrite !append_cons, IH; reflexivity]. Qed.

Lemma append_nil_r (a : string) : String.append a EmptyString = a.
Proof. induction a as [|x a IH]; [reflexivity | rewrite !append_cons, IH; reflexivity]. Qed.

(** A replacement without a dollar sign stands for itself. *)
Lemma GetSubstitution_plain m b a : forall template,
  JS.includes template "$" = false -> JS.GetSubstitution m b a template = template.
Proof.
  induction template as [|c r IH]; [reflexivity|].
  unfold JS.includes. cbn [JS.search JS.drop_prefix].
  destruct (Ascii.eqb "$" c) eqn:E; [discriminate|].
  intros H.
  assert (JS.includes r "$" = false) as Hr.
  { unfold JS.includes. destruct (JS.search "$" r) as [[? ?]|]; [discriminate | reflexivity]. }
  cbn [JS.GetSubstitution]. rewrite Ascii.eqb_sym, E. rewrite (IH Hr). reflexivity.
Qed.

Lemma includes_append_r s t p : JS.includes t p = true -> JS.includes (String.append s t) p = true.
Proof.
  unfold JS.includes. intros H.
  destruct (JS.search p t) as [[b a]|] eqn:E; [|discriminate].
  apply search_some in E. subst t.
  rewrite <- append_assoc. apply includes_app.
Qed.

Lemma includes_append_l s t p : JS.includes s p = true -> JS.includes (String.append s t) p = true.
Proof.
  unfold JS.includes. intros H.
  destruct (JS.search p s) as [[b a]|] eqn:E; [|discriminate].
  apply search_some in E. subst s.
  rewrite !append_assoc. apply includes_app.
Qed.

Lemma includes_suffix s p : JS.includes (String.append s p) p = true.
Proof. rewrite <- (append_nil_r p) at 1. apply includes_app. Qed.

Lemma includes_self_l p t : JS.includes (String.append p t) p = true.
Proof. apply (includes_app p EmptyString t). Qed.

(** X2. With a URL configured and a key that has no dollar sign in it,
    [buildLatestUrl] returns, whatever the format of the URL, and the URL
    that it returns contains the key and the currency code. *)
Theorem buildLatestUrl_with_key (settings : CurrencyService.request_settings)
    (fromCurrency apiKey : string) :
  JS.trim (CurrencyService.apiUrl settings) <> EmptyString ->
  CurrencyService.apiKey settings = Some apiKey ->
  apiKey <> EmptyString ->
  JS.includes apiKey "$" = false ->
  exists url,
    CurrencyService.buildLatestUrl settings fromCurrency = Returns url
    /\ JS.includes url apiKey = true
    /\ JS.includes url fromCurrency = true.
Proof.
  intros Hurl Hkey Hne Hplain.
  unfold CurrencyService.buildLatestUrl, CurrencyService.key.
  rewrite Hkey.
  apply nonempty_true in Hurl. rewrite Hurl.
  apply nonempty_true in Hne. rewrite Hne. cbn [negb].
  set (base := JS.drop_final_slash (JS.trim (CurrencyService.apiUrl settings))).
  destruct (JS.includes base "exchangerate-api.com/v6").
  { eexists. split; [reflexivity|]. split.
    - apply includes_append_r, includes_append_r, includes_self_l.
    - do 3 apply includes_append_r. apply includes_suffix. }
  destruct (JS.includes base "{API_KEY}") eqn:Hph.
  { eexists. split; [reflexivity|]. split.
    - apply includes_append_l. unfold JS.replace.
      unfold JS.includes in Hph.
      destruct (JS.search "{API_KEY}" base) as [[b a]|]; [|discriminate].
      rewrite (GetSubstitution_plain _ _ _ _ Hplain). apply includes_app.
    - apply includes_append_r, includes_suffix. }
  assert (JS.includes (String.append base (String.append "/" fromCurrency)) fromCurrency = true)
    as Hfrom by (apply includes_append_r, includes_suffix).
  destruct (JS.includes _ "?").
  - eexists. split; [reflexivity|]. split.
    + do 2 apply includes_append_r. apply includes_suffix.
    + apply includes_append_l. exact Hfrom.
  - eexists. split; [reflexivity|]. split.
    + do 2 apply includes_append_r. apply includes_suffix.
    + apply includes_append_l. exact Hfrom.
Qed.

Lemma buildLatestUrl_with_key_witness :
  exists url,
    CurrencyService.buildLatestUrl
      {| CurrencyService.apiUrl := " https://example.com/{API_KEY}/latest/ ";
         CurrencyService.apiKey := Some "k3y"%string;
         CurrencyService.rateTableTtlMs := JS.Fin 900000 |} "ZAR"
    = Returns url
    /\ JS.includes url "k3y" = true
    /\ JS.includes url "ZAR" = true.
Proof.
  apply (buildLatestUrl_with_key
           {| CurrencyService.apiUrl := " https://example.com/{API_KEY}/latest/ ";
              CurrencyService.apiKey := Some "k3y"%string;
              CurrencyService.rateTableTtlMs := JS.Fin 900000 |} "ZAR" "k3y");
    [vm_compute; discriminate | reflexivity | discriminate | reflexivity].
Defined.

(** ** White space and the final slash of the configured URL *)

Lemma list_ascii_of_append (a b : string) :
  list_ascii_of_string (String.append a b)
  = (list_ascii_of_string a ++ list_ascii_of_string b)%list.
Proof.
  induction a as [|c a IH]; [reflexivity|].
  rewrite append_cons. simpl. rewrite IH. reflexivity.
Qed.

Lemma drop_space_lead lead l :
  Forall (fun c => JS.is_space c = true) lead ->
  JS.drop_space (lead ++ l) = JS.drop_space l.
Proof.
  induction 1 as [|c lead Hc _ IH]; [reflexivity|].
  simpl. rewrite Hc. exact IH.
Qed.

Lemma trim_chars_pad lead l trail :
  Forall (fun c => JS.is_space c = true) lead ->
  Forall (fun c => JS.is_space c = true) trail ->
  clean_head l -> clean_head (rev l) ->
  JS.trim_chars (lead ++ l ++ trail) = l.
Proof.
  intros Hl Ht Hh He. unfold JS.trim_chars.
  rewrite (drop_space_lead _ _ Hl).
  destruct l as [|c l].
  - simpl. rewrite <- (app_nil_r trail), (drop_space_lead _ _ Ht). reflexivity.
  - rewrite (drop_space_id ((c :: l) ++ trail)) by exact Hh.
    rewrite rev_app_distr.
    rewrite drop_space_lead by (apply Forall_rev; exact Ht).
    rewrite (drop_space_id _ He). apply rev_involutive.
Qed.

Lemma drop_final_slash_plain u : plain_url u -> JS.drop_final_slash u = u.
Proof.
  intros (_ & _ & H). unfold JS.drop_final_slash.
  destruct (rev (list_ascii_of_string u)) as [|c r]; [reflexivity|].
  destruct H as [_ H].
  destruct c as [[] [] [] [] [] [] [] []]; try reflexivity. contradiction.
Qed.

Lemma drop_final_slash_app u :
  JS.drop_final_slash (String.append u "/") = u.
Proof.
  unfold JS.drop_final_slash. rewrite list_ascii_of_append, rev_app_distr. simpl.
  rewrite rev_involutive. apply string_of_list_ascii_of_string.
Qed.

Lemma trim_pad lead u trail :
  blanks lead -> blanks trail ->
  clean_head (list_ascii_of_string u) -> clean_head (rev (list_ascii_of_string u)) ->
  JS.trim (String.append lead (String.append u trail)) = u.
Proof.
  intros Hl Ht Hh He. unfold JS.trim.
  rewrite !list_ascii_of_append, (trim_chars_pad _ _ _ Hl Ht Hh He).
  apply string_of_list_ascii_of_string.
Qed.

(** X3. White space around the configured URL and one slash at its end
    make no difference: for a URL [u] that has neither, every padded
    spelling of [u] and of [u/] gives the request URL that [u] gives. *)
Theorem buildLatestUrl_tolerant (settings : CurrencyService.request_settings)
    (u lead trail fromCurrency : string) :
  plain_url u -> blanks lead -> blanks trail ->
  CurrencyService.apiUrl settings = u ->
  let spelled raw :=
    CurrencyService.buildLatestUrl
      {| CurrencyService.apiUrl := raw;
         CurrencyService.apiKey := CurrencyService.apiKey settings;
         CurrencyService.rateTableTtlMs := CurrencyService.rateTableTtlMs settings |}
      fromCurrency in
  spelled (String.append lead (String.append u trail))
  = CurrencyService.buildLatestUrl settings fromCurrency
  /\ spelled (String.append lead (String.append (String.append u "/") trail))
     = CurrencyService.buildLatestUrl settings fromCurrency.
Proof.
  intros Hu Hl Ht Eu. cbv zeta.
  pose proof Hu as (Hne & Hh & He).
  assert (clean_head (rev (list_ascii_of_string u))) as He'.
  { destruct (rev (list_ascii_of_string u)); [exact I | apply He]. }
  assert (JS.trim u = u) as Tu.
  { rewrite <- (append_nil_r u) at 1.
    apply (trim_pad EmptyString u EmptyString); try exact Hh; try exact He'; constructor. }
  assert (JS.trim (String.append lead (String.append u trail)) = u) as T1
    by (apply trim_pad; assumption).
  assert (JS.trim (String.append lead (String.append (String.append u "/") trail))
          = String.append u "/") as T2.
  { apply trim_pad; try assumption.
    - rewrite list_ascii_of_append.
      destruct (list_ascii_of_string u) as [|c l] eqn:E; [|exact Hh].
      destruct u; [contradiction | discriminate].
    - rewrite list_ascii_of_append, rev_app_distr. reflexivity. }
  unfold CurrencyService.buildLatestUrl, CurrencyService.key.
  cbn [CurrencyService.apiUrl CurrencyService.apiKey].
  rewrite T1, T2, Eu, Tu, drop_final_slash_app, (drop_final_slash_plain u Hu).
  assert (JS.nonempty (String.append u "/") = true) as ->
    by (destruct u; reflexivity).
  assert (JS.nonempty u = true) as -> by (apply nonempty_true; exact Hne).
  split; reflexivity.
Qed.

Lemma buildLatestUrl_tolerant_witness :
  let settings :=
    {| CurrencyService.apiUrl := "https://api.exchangerate-api.com/v4/latest";
       CurrencyService.apiKey := None;
       CurrencyService.rateTableTtlMs := JS.Fin 900000 |} in
  let spelled raw :=
    CurrencyService.buildLatestUrl
      {| CurrencyService.apiUrl := raw;
         CurrencyService.apiKey := CurrencyService.apiKey settings;
         CurrencyService.rateTableTtlMs := CurrencyService.rateTableTtlMs settings |}
      "ZAR" in
  spelled (String.append " " (String.append "https://api.exchangerate-api.com/v4/latest" "  "))
  = CurrencyService.buildLatestUrl settings "ZAR"
  /\ spelled (String.append " "
       (String.append (String.append "https://api.exchangerate-api.com/v4/latest" "/") "  "))
     = CurrencyService.buildLatestUrl settings "ZAR".
Proof.
  apply (buildLatestUrl_tolerant
           {| CurrencyService.apiUrl := "https://api.exchangerate-api.com/v4/latest";
              CurrencyService.apiKey := None;
              CurrencyService.rateTableTtlMs := JS.Fin 900000 |}
           "https://api.exchangerate-api.com/v4/latest" " " "  " "ZAR").
  - unfold plain_url. simpl. repeat split; discriminate.
  - unfold blanks. simpl. repeat constructor.
  - unfold blanks. simpl. repeat constructor.
  - reflexivity.
Defined.

(** ** The table cache *)

(** X4. A table that [fetchRateTable] returns is in the cache under the
    normalised code, and is served from there, without a request, to
    every call for a code with the same normalised form made less than
    [rateTableTtlMs] after the entry was fetched; a call that returns
    null leaves the cache as it was. *)
Theorem fetchRateTable_cached (settings : CurrencyService.request_settings)
    (env : environment) (axios_get : string -> option (gmap string JS.value))
    (fromCurrency : string) (cache : gmap string CurrencyService.cached_table) :
  match CurrencyService.fetchRateTable settings env axios_get fromCurrency cache with
  | (Some table, cache') =>
      exists entry,
        cache' !! CurrencyService.cacheKey fromCurrency = Some entry
        /\ CurrencyService.table_rates entry = table
        /\ forall (env' : environment) (axios_get' : string -> option (gmap string JS.value))
                  (fromCurrency' : string),
             CurrencyService.cacheKey fromCurrency' = CurrencyService.cacheKey fromCurrency ->
             JS.lt (JS.sub (JS.Fin (inject_Z (now env')))
                           (JS.Fin (inject_Z (CurrencyService.fetchedAt entry))))
                   (CurrencyService.rateTableTtlMs settings) = true ->
             CurrencyService.fetchRateTable settings env' axios_get' fromCurrency' cache'
             = (Some table, cache')
  | (None, cache') => cache' = cache
  end.
Proof.
  assert (forall (cache' : gmap string CurrencyService.cached_table) entry,
    cache' !! CurrencyService.cacheKey fromCurrency = Some entry ->
    forall (env' : environment) (axios_get' : string -> option (gmap string JS.value))
           (fromCurrency' : string),
      CurrencyService.cacheKey fromCurrency' = CurrencyService.cacheKey fromCurrency ->
      JS.lt (JS.sub (JS.Fin (inject_Z (now env')))
                    (JS.Fin (inject_Z (CurrencyService.fetchedAt entry))))
            (CurrencyService.rateTableTtlMs settings) = true ->
      CurrencyService.fetchRateTable settings env' axios_get' fromCurrency' cache'
      = (Some (CurrencyService.table_rates entry), cache')) as Hit.
  { intros cache' entry L env' get' from' K T.
    unfold CurrencyService.fetchRateTable. rewrite K, L, T. reflexivity. }
  unfold CurrencyService.fetchRateTable at 1.
  set (request := match CurrencyService.buildLatestUrl settings fromCurrency with
                  | Returns url => _ | Throws _ => _ end).
  assert (match request with
          | (Some table, cache') =>
              exists entry,
                cache' !! CurrencyService.cacheKey fromCurrency = Some entry
                /\ CurrencyService.table_rates entry = table
                /\ CurrencyService.fetchedAt entry = now env
          | (None, cache') => cache' = cache
          end) as Hreq.
  { unfold request.
    destruct (CurrencyService.buildLatestUrl settings fromCurrency) as [url|e]; [|reflexivity].
    destruct (axios_get url) as [rates|]; [|reflexivity].
    eexists. rewrite lookup_insert_eq. repeat split. }
  assert (match request with
          | (Some table, cache') =>
              exists entry,
                cache' !! CurrencyService.cacheKey fromCurrency = Some entry
                /\ CurrencyService.table_rates entry = table
                /\ forall env' axios_get' fromCurrency',
                     CurrencyService.cacheKey fromCurrency'
                     = CurrencyService.cacheKey fromCurrency ->
                     JS.lt (JS.sub (JS.Fin (inject_Z (now env')))
                                   (JS.Fin (inject_Z (CurrencyService.fetchedAt entry))))
                           (CurrencyService.rateTableTtlMs settings) = true ->
                     CurrencyService.fetchRateTable settings env' axios_get' fromCurrency' cache'
                     = (Some table, cache')
          | (None, cache') => cache' = cache
          end) as Hreq'.
  { destruct request as [[table|] cache']; [|exact Hreq].
    destruct Hreq as (entry & L & <- & _).
    exists entry. repeat split; [exact L|]. apply Hit. exact L. }
  destruct (cache !! CurrencyService.cacheKey fromCurrency) as [cached|] eqn:L; [|exact Hreq'].
  destruct (JS.lt _ _); [|exact Hreq'].
  exists cached. repeat split; [exact L|]. apply Hit. exact L.
Qed.

(** ** Distinct targets *)

Lemma existsb_eqb v (seen : list string) :
  existsb (String.eqb v) seen = true <-> In v seen.
Proof.
  rewrite existsb_exists. split.
  - intros (x & Hx & E). apply String.eqb_eq in E. subst. exact Hx.
  - intros H. exists v. split; [exact H | apply String.eqb_refl].
Qed.

Lemma Set_values_spec values : forall seen,
  List.NoDup (CurrencyService.Set_values values seen)
  /\ forall x, In x (CurrencyService.Set_values values seen) <-> In x values /\ ~ In x seen.
Proof.
  induction values as [|v values IH]; intros seen; simpl.
  - split; [constructor | tauto].
  - destruct (existsb (String.eqb v) seen) eqn:E.
    + apply existsb_eqb in E. destruct (IH seen) as [N M].
      split; [exact N|]. intros x. rewrite M. split; [tauto|].
      intros [[->|H] S]; [contradiction | tauto].
    + assert (~ In v seen) as Hv by (rewrite <- existsb_eqb, E; discriminate).
      destruct (IH (v :: seen)) as [N M]. split.
      * constructor; [|exact N]. rewrite M. simpl. tauto.
      * intros x. simpl. rewrite M. simpl. split.
        -- intros [<-|[H S]]; tauto.
        -- intros [[<-|H] S]; [tauto|].
           destruct (string_dec v x) as [<-|D]; tauto.
Qed.


(* ================================================================== *)
(** * Rate resolution: cache, persistence, conversion                  *)
(* ================================================================== *)








Lemma logged_refl w : logged w w 0 0.
Proof. exists []. rewrite app_nil_r. repeat split. Qed.

Lemma logged_trans w1 w2 w3 a b c d :
  logged w1 w2 a b -> logged w2 w3 c d -> logged w1 w3 (a + c) (b + d).
Proof.
  intros (e1 & T1 & F1 & W1) (e2 & T2 & F2 & W2).
  exists (e1 ++ e2)%list. rewrite T2, T1, <- app_assoc.
  rewrite !List.filter_app, !length_app. repeat split; lia.
Qed.

Lemma logged_event e w db' :
  logged w (with_db db' (record_event e w))
    (if is_fetch e then 1 else 0) (if is_write e then 1 else 0).
Proof.
  exists [e]. simpl. repeat split.
  - destruct (is_fetch e); reflexivity.
  - destruct (is_write e); reflexivity.
Qed.

Lemma logged_record e w :
  logged w (record_event e w)
    (if is_fetch e then 1 else 0) (if is_write e then 1 else 0).
Proof.
  exists [e]. simpl. repeat split.
  - destruct (is_fetch e); reflexivity.
  - destruct (is_write e); reflexivity.
Qed.

Lemma getCachedExchangeRate_log env f t w :
  exists r w',
    CurrencyService.getCachedExchangeRate env f t w = (Returns r, w')
    /\ db w' = db w /\ logged w w' 0 0.
Proof.
  unfold CurrencyService.getCachedExchangeRate. unfold_M.
  destruct (admin_client env); [do 2 eexists; repeat split; apply logged_refl|].
  set (op := SelectCachedRate _ _).
  pose proof (logged_record (Db op) w) as L.
  destruct (fault_of env op); try (do 2 eexists; repeat split; exact L).
  cbn [db record_event].
  destruct (latest_rate _ _ (db w)) as [row|];
    [destruct (JS.lt _ _)|]; do 2 eexists; repeat split; exact L.
Qed.

Lemma fetchExchangeRateFromAPI_log env f t w :
  exists r w',
    CurrencyService.fetchExchangeRateFromAPI env f t w = (Returns r, w')
    /\ db w' = db w /\ logged w w' 1 0.
Proof.
  unfold CurrencyService.fetchExchangeRateFromAPI.
  pose proof (logged_record (Fetch f) w) as L.
  destruct (provider env f) as [rates|]; [|do 2 eexists; repeat split; exact L].
  destruct (JS.ToBoolean _); do 2 eexists; repeat split; exact L.
Qed.

Lemma saveExchangeRate_log env f t r src w :
  exists w' writes,
    CurrencyService.saveExchangeRate env f t r src w = (Returns tt, w')
    /\ logged w w' 0 writes /\ (writes <= 1)%nat
    /\ same_prices (db w) (db w')
    /\ (exchange_rates (db w') = exchange_rates (db w)
        \/ exchange_rates (db w')
           = (exchange_rates (db w)
              ++ [rate_row env (CurrencyService.normaliseCurrencyCode f)
                    (CurrencyService.normaliseCurrencyCode t) r src])%list).
Proof.
  unfold CurrencyService.saveExchangeRate. unfold_M.
  destruct (admin_client env).
  { exists w, 0%nat. repeat split; auto using logged_refl. }
  set (op := InsertRate _ _ _).
  pose proof (logged_record (Db op) w) as L.
  destruct (fault_of env op).
  - eexists _, 1%nat. split; [reflexivity|].
    split; [apply (logged_event (Db op) w)|].
    split; [lia|]. split; [repeat split|]. right. reflexivity.
  - eexists _, 1%nat. repeat split; auto.
  - eexists _, 1%nat. repeat split; auto.
Qed.

(** What a call of [getCurrencyRate] does to the world: it reads, calls
    the provider at most once and writes at most once, a row of the pair
    that holds the rate returned. *)
Lemma getCurrencyRate_log this env f t w :
  let from := CurrencyService.normaliseCurrencyCode f in
  let to := CurrencyService.normaliseCurrencyCode t in
  exists o w' fetches writes,
    CurrencyService.getCurrencyRate this env f t w = (o, w')
    /\ logged w w' fetches writes
    /\ (fetches <= 1)%nat /\ (writes <= 1)%nat
    /\ same_prices (db w) (db w')
    /\ (exchange_rates (db w') = exchange_rates (db w)
        \/ exists r src,
             o = Returns r /\ JS.truthy r = true
             /\ proper_pair from to
             /\ (src = "api"%string \/ src = "fallback"%string)
             /\ exchange_rates (db w')
                = (exchange_rates (db w) ++ [rate_row env from to r src])%list).
Proof.
  cbv zeta.
  unfold CurrencyService.getCurrencyRate.
  set (from := CurrencyService.normaliseCurrencyCode f).
  set (to := CurrencyService.normaliseCurrencyCode t).
  assert (Hsame : forall s, same_prices s s) by (intros s; repeat split).
  assert (Hfb : forall w1 a b,
    logged w w1 a b -> (a <= 1)%nat -> (b <= 1)%nat -> db w1 = db w ->
    exists o w' fetches writes,
      (let* resolved := lift (CurrencyService.resolveFallbackRate this f t) in
       ret (resolved ?? CurrencyService.fallbackRate this)) w1 = (o, w')
      /\ logged w w' fetches writes
      /\ (fetches <= 1)%nat /\ (writes <= 1)%nat
      /\ same_prices (db w) (db w')
      /\ (exchange_rates (db w') = exchange_rates (db w)
          \/ exists r src,
               o = Returns r /\ JS.truthy r = true
               /\ proper_pair from to
               /\ (src = "api"%string \/ src = "fallback"%string)
               /\ exchange_rates (db w')
                  = (exchange_rates (db w) ++ [rate_row env from to r src])%list)).
  { intros w1 a b L A B D. rewrite getCurrencyRate_handler.
    exists (static_fallback this f t), w1, a, b. rewrite D. repeat split; auto. }
  unfold try_catch at 1.
  destruct (negb (JS.nonempty from) || negb (JS.nonempty to)) eqn:Hne.
  { unfold throw at 1. apply (Hfb w 0%nat 0%nat); auto using logged_refl. }
  apply orb_false_elim in Hne. destruct Hne as [Hf Ht].
  apply negb_false_iff in Hf. apply negb_false_iff in Ht.
  destruct (String.eqb from to) eqn:Hd.
  { exists (Returns (JS.Fin 1)), w, 0%nat, 0%nat. repeat split; auto using logged_refl. }
  unfold bind at 1.
  destruct (getCachedExchangeRate_log env from to w) as (r & w1 & E1 & D1 & L1).
  rewrite E1.
  destruct (if_truthy r) as [cachedRate|].
  { exists (Returns cachedRate), w1, 0%nat, 0%nat. rewrite D1. repeat split; auto. }
  unfold bind at 1.
  destruct (fetchExchangeRateFromAPI_log env from to w1) as (a & w2 & E2 & D2 & L2).
  rewrite E2.
  pose proof (logged_trans _ _ _ _ _ _ _ L1 L2) as L12. simpl in L12.
  destruct (if_truthy a) as [apiRate|] eqn:Ha.
  { apply if_truthy_some in Ha. destruct Ha as [_ Htr].
    unfold bind at 1.
    destruct (saveExchangeRate_log env from to apiRate "api" w2)
      as (w3 & n & E3 & L3 & N3 & S3 & R3).
    rewrite E3.
    pose proof (logged_trans _ _ _ _ _ _ _ L12 L3) as L13. simpl in L13.
    exists (Returns apiRate), w3, 1%nat, n.
    rewrite D2, D1 in S3, R3.
    split; [reflexivity|]. split; [exact L13|]. split; [lia|]. split; [lia|].
    split; [exact S3|].
    destruct R3 as [R3|R3]; [left; exact R3|].
    right. exists apiRate, "api"%string.
    unfold from, to in R3. rewrite !normaliseCurrencyCode_idem in R3.
    unfold proper_pair. repeat split; auto. }
  unfold bind at 1. unfold adminClient.
  destruct (admin_client env) as [e|] eqn:Hadm.
  { unfold throw at 1. apply (Hfb w2 1%nat 0%nat); auto. congruence. }
  unfold ret at 1. unfold bind at 1. unfold call.
  set (w3 := record_event (Db (SelectStaleRate from to)) w2).
  assert (L23 : logged w w3 1 0).
  { pose proof (logged_trans _ _ _ _ _ _ _ L12
                  (logged_record (Db (SelectStaleRate from to)) w2)) as L.
    simpl in L. exact L. }
  assert (D3 : db w3 = db w) by (unfold w3; simpl; congruence).
  assert (Htail : exists o w' fetches writes,
    try_catch
      (let* resolved := lift (CurrencyService.resolveFallbackRate this from to) in
       let fallbackResolved := resolved ?? CurrencyService.fallbackRate this in
       if negb (JS.truthy fallbackResolved) || negb (JS.isFinite fallbackResolved)
       then throw (Error "Fallback exchange rate unavailable")
       else
         await CurrencyService.saveExchangeRate env from to fallbackResolved "fallback" in
         ret fallbackResolved)
      (fun _ =>
         let* resolved := lift (CurrencyService.resolveFallbackRate this f t) in
         ret (resolved ?? CurrencyService.fallbackRate this)) w3 = (o, w')
    /\ logged w w' fetches writes
    /\ (fetches <= 1)%nat /\ (writes <= 1)%nat
    /\ same_prices (db w) (db w')
    /\ (exchange_rates (db w') = exchange_rates (db w)
        \/ exists r src,
             o = Returns r /\ JS.truthy r = true
             /\ proper_pair from to
             /\ (src = "api"%string \/ src = "fallback"%string)
             /\ exchange_rates (db w')
                = (exchange_rates (db w) ++ [rate_row env from to r src])%list)).
  { unfold try_catch at 1. unfold bind at 1. unfold lift at 1.
    destruct (CurrencyService.resolveFallbackRate this from to) as [resolved|e0].
    - cbv zeta.
      destruct (negb (JS.truthy (resolved ?? CurrencyService.fallbackRate this))
                || negb (JS.isFinite (resolved ?? CurrencyService.fallbackRate this)))
        eqn:Hchk.
      + unfold throw at 1. apply (Hfb w3 1%nat 0%nat); auto.
      + apply orb_false_elim in Hchk. destruct Hchk as [Htr _].
        apply negb_false_iff in Htr.
        unfold bind at 1.
        destruct (saveExchangeRate_log env from to
                    (resolved ?? CurrencyService.fallbackRate this) "fallback" w3)
          as (w4 & n & E4 & L4 & N4 & S4 & R4).
        rewrite E4. unfold ret at 1.
        pose proof (logged_trans _ _ _ _ _ _ _ L23 L4) as L24. simpl in L24.
        rewrite D3 in S4, R4.
        exists (Returns (resolved ?? CurrencyService.fallbackRate this)), w4, 1%nat, n.
        split; [reflexivity|]. split; [exact L24|]. split; [lia|]. split; [lia|].
        split; [exact S4|].
        destruct R4 as [R4|R4]; [left; exact R4|].
        right. exists (resolved ?? CurrencyService.fallbackRate this), "fallback"%string.
        unfold from, to in R4. rewrite !normaliseCurrencyCode_idem in R4.
        unfold proper_pair. repeat split; auto.
    - apply (Hfb w3 1%nat 0%nat); auto. }
  destruct (fault_of env (SelectStaleRate from to)) as [|e|e].
  - unfold reading. fold w3.
    assert (Hdb : latest_rate from to (db w3) = latest_rate from to (db w))
      by (rewrite D3; reflexivity).
    rewrite Hdb.
    destruct (latest_rate from to (db w)) as [row|]; [|exact Htail].
    exists (Returns (rate row)), (with_db (db w3) w3), 1%nat, 0%nat.
    split; [reflexivity|].
    split; [destruct L23 as (evs & T & F & W); exists evs; auto|].
    cbn [db with_db]. rewrite D3. repeat split; auto.
  - exact Htail.
  - apply (Hfb w3 1%nat 0%nat); auto.
Qed.

(** X8. A call of [getCurrencyRate], whatever its arguments and whatever
    fails, calls the provider at most once and writes at most once; it
    leaves the price tables and the random stream alone; and to the log
    of rates it adds nothing, or one row: the normalised pair, the rate
    that the call returns, which is then truthy, the time of the call,
    and the source 'api' or 'fallback'. *)
Theorem getRate_footprint (this : CurrencyService.t) (env : environment)
    (fromCurrency toCurrency : string) (w : world) :
  let from := CurrencyService.normaliseCurrencyCode fromCurrency in
  let to := CurrencyService.normaliseCurrencyCode toCurrency in
  let o := fst (CurrencyService.getCurrencyRate this env fromCurrency toCurrency w) in
  let w' := snd (CurrencyService.getCurrencyRate this env fromCurrency toCurrency w) in
  (exists evs,
     trace w' = (trace w ++ evs)%list
     /\ (length (List.filter is_fetch evs) <= 1)%nat
     /\ (length (List.filter is_write evs) <= 1)%nat)
  /\ same_prices (db w) (db w')
  /\ drawn w' = drawn w
  /\ (exchange_rates (db w') = exchange_rates (db w)
      \/ exists r src,
           o = Returns r /\ JS.truthy r = true
           /\ (src = "api"%string \/ src = "fallback"%string)
           /\ exchange_rates (db w')
              = (exchange_rates (db w) ++ [rate_row env from to r src])%list).
Proof.
  cbv zeta.
  destruct (getCurrencyRate_log this env fromCurrency toCurrency w)
    as (o & w' & a & b & E & (evs & T & F & W) & A & B & S & R).
  destruct (getCurrencyRate_answered this env fromCurrency toCurrency w)
    as (o' & w'' & E' & (_ & Hdrawn & _) & _).
  rewrite E in E'. inversion E'; subst o' w''. rewrite E. cbn [fst snd].
  split; [exists evs; repeat split; [exact T | lia | lia]|].
  split; [exact S|]. split; [exact Hdrawn|].
  destruct R as [R|(r & src & Ho & Htr & _ & Hsrc & R)]; [left; exact R|].
  right. exists r, src. auto.
Qed.

(** A fresh row answers the call after one read. *)
Lemma getCurrencyRate_hit (this : CurrencyService.t) (env : environment)
    (fromCurrency toCurrency : string) (w : world) (r : JS.num) :
  let from := CurrencyService.normaliseCurrencyCode fromCurrency in
  let to := CurrencyService.normaliseCurrencyCode toCurrency in
  from <> EmptyString -> to <> EmptyString -> from <> to ->
  fresh_tier env (db w) from to = Some r ->
  CurrencyService.getCurrencyRate this env fromCurrency toCurrency w
  = (Returns r, record_event (Db (SelectCachedRate from to)) w).
Proof.
  intros from to Nf Nt D Hfresh.
  unfold CurrencyService.getCurrencyRate. fold from to.
  apply nonempty_true in Nf. apply nonempty_true in Nt. apply String.eqb_neq in D.
  unfold try_catch at 1. rewrite Nf, Nt, D. cbn [negb orb].
  unfold bind at 1.
  unfold fresh_tier, persisted in Hfresh.
  unfold CurrencyService.getCachedExchangeRate.
  unfold from at 1 2, to at 1 2. rewrite !normaliseCurrencyCode_idem. fold from to.
  unfold_M.
  destruct (admin_client env); [discriminate|].
  destruct (fault_of env (SelectCachedRate from to)); try discriminate.
  cbn [db record_event].
  destruct (latest_rate from to (db w)) as [row|]; [|discriminate].
  change (JS.div (JS.sub (JS.Fin (inject_Z (now env)))
                         (JS.Fin (inject_Z (recorded_at row))))
                 (JS.Fin (inject_Z (1000 * 60 * 60))))
    with (age_hours env row).
  destruct (JS.lt (age_hours env row) (JS.Fin 4)); [|discriminate].
  cbn [andb] in Hfresh. unfold if_truthy.
  destruct (JS.truthy (rate row)); [|discriminate].
  inversion Hfresh; subst. reflexivity.
Qed.

(** X9. When the newest persisted row of the pair is under four hours
    old and its rate is truthy, [getCurrencyRate] returns that rate
    after one read of the store: no call of the provider, no write. *)
Theorem getRate_cache_hit (this : CurrencyService.t) (env : environment)
    (fromCurrency toCurrency : string) (w : world) (r : JS.num) :
  let from := CurrencyService.normaliseCurrencyCode fromCurrency in
  let to := CurrencyService.normaliseCurrencyCode toCurrency in
  from <> EmptyString -> to <> EmptyString -> from <> to ->
  fresh_tier env (db w) from to = Some r ->
  CurrencyService.getCurrencyRate this env fromCurrency toCurrency w
  = (Returns r, record_event (Db (SelectCachedRate from to)) w)
  /\ List.filter is_fetch (trace (record_event (Db (SelectCachedRate from to)) w))
     = List.filter is_fetch (trace w)
  /\ List.filter is_write (trace (record_event (Db (SelectCachedRate from to)) w))
     = List.filter is_write (trace w).
Proof.
  intros from to Nf Nt D Hfresh.
  split; [apply getCurrencyRate_hit; assumption|].
  cbn [trace record_event]. rewrite !List.filter_app. simpl. rewrite !app_nil_r.
  split; reflexivity.
Qed.

Lemma getRate_cache_hit_witness :
  CurrencyService.getCurrencyRate CurrencyService.service live "zar" " usd"
    (snd (CurrencyService.getCurrencyRate CurrencyService.service live "ZAR" "USD" blank))
  = (Returns (JS.Fin 0.055),
     record_event (Db (SelectCachedRate "ZAR" "USD"))
       (snd (CurrencyService.getCurrencyRate CurrencyService.service live "ZAR" "USD" blank))).
Proof.
  refine (proj1 (getRate_cache_hit CurrencyService.service live "zar" " usd"
           (snd (CurrencyService.getCurrencyRate CurrencyService.service live "ZAR" "USD" blank))
           (JS.Fin 0.055) _ _ _ _));
    try (vm_compute; discriminate).
  vm_compute. reflexivity.
Defined.

(** ** Calling the resolver again *)

Lemma latest_rate_ext from to s s' :
  exchange_rates s' = exchange_rates s -> latest_rate from to s' = latest_rate from to s.
Proof. unfold latest_rate. intros ->. reflexivity. Qed.

Lemma latest_rate_app env from to r src s s' :
  exchange_rates s' = (exchange_rates s ++ [rate_row env from to r src])%list ->
  latest_rate from to s' = newer (latest_rate from to s) (rate_row env from to r src).
Proof.
  unfold latest_rate. intros ->.
  rewrite filter_app, foldl_app.
  rewrite (filter_cons_True _ (rate_row env from to r src) []) by (split; reflexivity).
  reflexivity.
Qed.

Lemma tier_chain_ext this env s s' from to :
  exchange_rates s' = exchange_rates s ->
  tier_chain this env s' from to = tier_chain this env s from to.
Proof.
  intros E. unfold tier_chain, fresh_tier, stale_tier, persisted.
  rewrite !(latest_rate_ext from to s s' E). reflexivity.
Qed.

(** A row inserted at the time of the call is fresh. *)
Lemma age_hours_now env from to r src :
  JS.lt (age_hours env (rate_row env from to r src)) (JS.Fin 4) = true.
Proof.
  unfold age_hours, rate_row. cbn [recorded_at].
  unfold JS.sub, JS.neg, JS.add, JS.div.
  assert (JS.Qzero (inject_Z 3600000) = false) as -> by reflexivity.
  cbn [JS.lt]. apply Qltb_lt.
  assert (inject_Z (now env) + - inject_Z (now env) == 0) as H by ring.
  rewrite H. reflexivity.
Qed.

(** The outcome of a call is the outcome of the same call made on the
    world that it leaves. *)
Lemma getCurrencyRate_repeat this env fromCurrency toCurrency w :
  fst (CurrencyService.getCurrencyRate this env fromCurrency toCurrency
         (snd (CurrencyService.getCurrencyRate this env fromCurrency toCurrency w)))
  = fst (CurrencyService.getCurrencyRate this env fromCurrency toCurrency w).
Proof.
  pose proof (getCurrencyRate_tier_chain this env fromCurrency toCurrency w) as Hchain.
  destruct (getCurrencyRate_log this env fromCurrency toCurrency w)
    as (o & w' & a & b & E & _ & _ & _ & _ & R).
  rewrite E in *. cbn [fst snd] in *.
  rewrite getCurrencyRate_tier_chain.
  set (from := CurrencyService.normaliseCurrencyCode fromCurrency) in *.
  set (to := CurrencyService.normaliseCurrencyCode toCurrency) in *.
  destruct R as [R|(r & src & -> & Htr & (Nf & Nt & D) & _ & R)].
  { rewrite (tier_chain_ext _ _ _ _ _ _ R). symmetry. exact Hchain. }
  pose proof (latest_rate_app env from to r src (db w) (db w') R) as HL.
  pose proof (age_hours_now env from to r src) as Hage.
  revert Hchain.
  unfold tier_chain, fresh_tier, stale_tier, persisted.
  rewrite Nf, Nt, D, !HL. cbn [negb orb].
  unfold newer.
  destruct (latest_rate from to (db w)) as [old|].
  - destruct (recorded_at old <? recorded_at (rate_row env from to r src))%Z.
    + destruct (admin_client env);
        destruct (fault_of env (SelectCachedRate from to));
        destruct (JS.lt (age_hours env old) (JS.Fin 4) && JS.truthy (rate old));
        destruct (live_tier env from to);
        destruct (fault_of env (SelectStaleRate from to));
        rewrite ?Hage; cbn [rate rate_row andb]; rewrite ?Htr;
        congruence.
    + intros <-. reflexivity.
  - destruct (admin_client env);
      destruct (fault_of env (SelectCachedRate from to));
      destruct (live_tier env from to);
      destruct (fault_of env (SelectStaleRate from to));
      rewrite ?Hage; cbn [rate rate_row andb]; rewrite ?Htr;
      congruence.
Qed.

(** X10. Calling [getCurrencyRate] a second time for the same pair, in
    the same environment and on the world that the first call left,
    gives the outcome of the first call again, whichever tier answered
    and whatever the first call persisted. *)
Theorem getRate_again (this : CurrencyService.t) (env : environment)
    (fromCurrency toCurrency : string) (w : world) :
  let first := CurrencyService.getCurrencyRate this env fromCurrency toCurrency w in
  fst (CurrencyService.getCurrencyRate this env fromCurrency toCurrency (snd first))
  = fst first.
Proof. exact (getCurrencyRate_repeat this env fromCurrency toCurrency w). Qed.

(* ================================================================== *)
(** * Change percentages                                               *)
(* ================================================================== *)




(* ================================================================== *)
(** * Price ranges: what is stored and read back                       *)
(* ================================================================== *)



Lemma parseNumber_num q : PriceService.parseNumber (JS.VNum (JS.Fin q)) = Some (JS.Fin q).
Proof. reflexivity. Qed.



(** What a successful call of [updatePriceRange] went through. *)
Lemma updatePriceRange_returns this env id r operator w row w' :
  PriceService.updatePriceRange this env id r operator w = (Returns row, w') ->
  exists rate w1 minUsd maxUsd minZar maxZar,
    admin_client env = None
    /\ CurrencyService.getCurrencyRate this env "ZAR" "USD" w = (Returns rate, w1)
    /\ JS.truthy rate = true
    /\ PriceService.resolved_bounds rate (JS.toFixed (JS.div (JS.Fin 1) rate) 6) r
       = Some (minUsd, maxUsd, minZar, maxZar)
    /\ JS.ge minUsd maxUsd = false /\ JS.ge minZar maxZar = false
    /\ row = {| range_commodity_id := id;
                min_price_zar := JS.VNum minZar;
                max_price_zar := JS.VNum maxZar;
                min_price_usd := JS.VNum minUsd;
                max_price_usd := JS.VNum maxUsd;
                range_is_active := true;
                updated_by := operator;
                updated_at := now env |}
    /\ fault_of env (UpsertRange id) = NoFault
    /\ w' = with_db (upsert_range row (db w1)) (record_event (Db (UpsertRange id)) w1).
Proof.
  unfold PriceService.updatePriceRange, try_catch.
  unfold bind at 1, adminClient.
  destruct (admin_client env) as [e|]; [unfold throw; discriminate|].
  unfold ret at 1. unfold bind at 1.
  destruct (CurrencyService.getCurrencyRate this env "ZAR" "USD" w) as [[rate|e] w1];
    [|discriminate].
  destruct (JS.truthy rate) eqn:Htr; cbn [negb]; [|unfold throw; discriminate].
  destruct (PriceService.resolved_bounds rate _ r) as [[[[minUsd maxUsd] minZar] maxZar]|]
    eqn:Hb; [|unfold throw; discriminate].
  destruct (JS.ge minUsd maxUsd || JS.ge minZar maxZar) eqn:Hge;
    [unfold throw; discriminate|].
  apply orb_false_elim in Hge. destruct Hge as [G1 G2].
  unfold bind, call, ret, throw.
  destruct (fault_of env (UpsertRange id)) eqn:F; try discriminate.
  intros E. inversion E; subst.
  exists rate, w1, minUsd, maxUsd, minZar, maxZar. repeat split; auto.
Qed.



(** ** Reading a range back *)

Lemma upsert_row_other row rows id :
  range_commodity_id row <> id ->
  List.filter (fun r => String.eqb (range_commodity_id r) id) (upsert_row row rows)
  = List.filter (fun r => String.eqb (range_commodity_id r) id) rows.
Proof.
  intros D. induction rows as [|r rows IH]; simpl.
  - apply String.eqb_neq in D. rewrite D. reflexivity.
  - destruct (String.eqb (range_commodity_id r) (range_commodity_id row)) eqn:E.
    + apply String.eqb_eq in E. simpl.
      apply String.eqb_neq in D. rewrite D.
      rewrite E. rewrite D. reflexivity.
    + simpl. rewrite IH. reflexivity.
Qed.

Lemma filter_absent rows id :
  ~ In id (List.map range_commodity_id rows) ->
  List.filter (fun r => String.eqb (range_commodity_id r) id) rows = [].
Proof.
  induction rows as [|r rows IH]; simpl; [reflexivity|].
  intros H. destruct (String.eqb (range_commodity_id r) id) eqn:E.
  - apply String.eqb_eq in E. tauto.
  - apply IH. tauto.
Qed.

Lemma upsert_row_same row rows id :
  range_commodity_id row = id ->
  List.NoDup (List.map range_commodity_id rows) ->
  List.filter (fun r => String.eqb (range_commodity_id r) id) (upsert_row row rows)
  = [row].
Proof.
  intros <-.
  induction rows as [|r rows IH]; simpl; intros N.
  - rewrite String.eqb_refl. reflexivity.
  - inversion N as [|? ? Hnot N']; subst.
    destruct (String.eqb (range_commodity_id r) (range_commodity_id row)) eqn:E.
    + simpl. rewrite String.eqb_refl. f_equal.
      apply filter_absent. apply String.eqb_eq in E. rewrite <- E. exact Hnot.
    + simpl. rewrite E. apply IH, N'.
Qed.

Lemma upsert_row_ids row rows :
  List.NoDup (List.map range_commodity_id rows) ->
  List.NoDup (List.map range_commodity_id (upsert_row row rows)).
Proof.
  induction rows as [|r rows IH]; simpl; intros N.
  - constructor; [intros [] | constructor].
  - inversion N as [|? ? Hnot N']; subst.
    destruct (String.eqb (range_commodity_id r) (range_commodity_id row)) eqn:E.
    + apply String.eqb_eq in E. simpl. rewrite <- E. exact N.
    + simpl. constructor; [|apply IH, N'].
      intros Hin. apply Hnot.
      clear - Hin E. induction rows as [|r' rows IH]; simpl in *.
      * destruct Hin as [H|[]]. apply String.eqb_neq in E. congruence.
      * destruct (String.eqb (range_commodity_id r') (range_commodity_id row)) eqn:E'.
        -- simpl in Hin. destruct Hin as [H|H]; [|auto].
           apply String.eqb_neq in E. congruence.
        -- simpl in Hin. destruct Hin as [H|H]; auto.
Qed.

(** X13. After a call of [updatePriceRange] that returns, in a table
    that had at most one row for each commodity, [getPriceRange] of the
    commodity returns the row just stored, in the six columns that both
    functions select; the table still has at most one row for each
    commodity; and [getPriceRange] of every other commodity answers as
    it did before. *)
Theorem getPriceRange_after_update (this : CurrencyService.t) (env : environment)
    (read_fault : PriceService.db_read -> fault)
    (commodityId : string) (r : PriceService.range_input) (updatedBy : option string)
    (w : world) (row : PriceRange) (w' : world) :
  PriceService.updatePriceRange this env commodityId r updatedBy w = (Returns row, w') ->
  List.NoDup (List.map range_commodity_id (price_ranges (db w))) ->
  read_fault (PriceService.SelectPriceRange commodityId) = NoFault ->
  PriceService.getPriceRange env read_fault commodityId w'
  = (Returns (Some (PriceService.view_of row)), w')
  /\ List.NoDup (List.map range_commodity_id (price_ranges (db w')))
  /\ (forall other,
        other <> commodityId ->
        fst (PriceService.getPriceRange env read_fault other w')
        = fst (PriceService.getPriceRange env read_fault other w)).
Proof.
  intros Hcall N Hread.
  destruct (updatePriceRange_returns _ _ _ _ _ _ _ _ Hcall)
    as (rate & w1 & a & b & c & d & Hadm & Hrate & Htr & Hb & G1 & G2 & Hrow & F & Hw).
  destruct (getCurrencyRate_answered this env "ZAR" "USD" w) as (o' & w1' & E & Hstep & _).
  rewrite Hrate in E. inversion E; subst o' w1'. clear E.
  destruct Hstep as ((_ & Hr & _) & _).
  assert (range_commodity_id row = commodityId) as Hid by (rewrite Hrow; reflexivity).
  assert (price_ranges (db w') = upsert_row row (price_ranges (db w))) as Hranges.
  { rewrite Hw. cbn [db with_db upsert_range price_ranges]. rewrite Hr. reflexivity. }
  split; [|split].
  - unfold PriceService.getPriceRange, PriceService.query. unfold_M.
    rewrite Hadm, Hread, Hranges.
    rewrite (upsert_row_same row _ commodityId Hid N). reflexivity.
  - rewrite Hranges. apply upsert_row_ids, N.
  - intros other D.
    unfold PriceService.getPriceRange, PriceService.query. unfold_M.
    rewrite Hadm, Hranges.
    rewrite (upsert_row_other row _ other) by congruence.
    destruct (read_fault (PriceService.SelectPriceRange other)); try reflexivity.
    destruct (PriceService.maybeSingle _); reflexivity.
Qed.

Lemma getPriceRange_after_update_witness :
  exists row w',
    PriceService.updatePriceRange CurrencyService.service (quiet 0) "gold"
      {| PriceService.minPriceUsd := JS.VNum (JS.Fin 11);
         PriceService.maxPriceUsd := JS.VNum (JS.Fin 12);
         PriceService.minPriceZar := JS.VUndefined;
         PriceService.maxPriceZar := JS.VUndefined |}
      None lone_incomplete
    = (Returns row, w')
    /\ PriceService.getPriceRange (quiet 0) (fun _ => NoFault) "gold" w'
       = (Returns (Some (PriceService.view_of row)), w').
Proof.
  do 2 eexists. split; [vm_compute; reflexivity|].
  match goal with
  | |- PriceService.getPriceRange _ _ _ ?w' = (Returns (Some (PriceService.view_of ?row)), _) =>
      destruct (getPriceRange_after_update CurrencyService.service (quiet 0)
                  (fun _ => NoFault) "gold"
                  {| PriceService.minPriceUsd := JS.VNum (JS.Fin 11);
                     PriceService.maxPriceUsd := JS.VNum (JS.Fin 12);
                     PriceService.minPriceZar := JS.VUndefined;
                     PriceService.maxPriceZar := JS.VUndefined |}
                  None lone_incomplete row w') as (H & _)
  end.
  - vm_compute. reflexivity.
  - vm_compute. repeat constructor. intros [].
  - reflexivity.
  - exact H.
Defined.

(* ================================================================== *)
(** * Statistics of a commodity                                        *)
(* ================================================================== *)











#[local] Existing Instance PriceService.earlier_dec.

#[local] Instance earlier_transitive : Transitive PriceService.earlier.
Proof. intros a b c. unfold PriceService.earlier. lia. Qed.

#[local] Instance earlier_total : Total PriceService.earlier.
Proof. intros a b. unfold PriceService.earlier. lia. Qed.





(** A period that names a property of [Object.prototype] makes the date
    arithmetic fail before anything is read. *)
Example getCommodityStats_inherited_period :
  PriceService.getCommodityStats (quiet 0) (fun _ => NoFault) utc "gold" "constructor"
    gold_history
  = (Throws (RangeError "Invalid time value"), gold_history)
  /\ fst (PriceService.getCommodityStats (quiet 0) (fun _ => NoFault) utc "gold" "2w"
            gold_history)
     = fst (PriceService.getCommodityStats (quiet 0) (fun _ => NoFault) utc "gold" "30d"
              gold_history).
Proof. split; reflexivity. Qed.

(* ================================================================== *)
(** * The latest rate                                                  *)
(* ================================================================== *)

(** X15. What [getCurrencyRate] persists is what
    [getLatestExchangeRate] then reports: when a call adds a row to the
    log of rates, every row of the pair being older, a lookup of the
    normalised pair on the world that the call left returns the rate that
    the call returned, the time of the call and the source 'api' or
    'fallback'. *)
Theorem getLatestExchangeRate_after_resolution (this : CurrencyService.t)
    (env : environment) (read_fault : PriceService.db_read -> fault)
    (fromCurrency toCurrency : string) (w : world) :
  let from := CurrencyService.normaliseCurrencyCode fromCurrency in
  let to := CurrencyService.normaliseCurrencyCode toCurrency in
  let o := fst (CurrencyService.getCurrencyRate this env fromCurrency toCurrency w) in
  let w' := snd (CurrencyService.getCurrencyRate this env fromCurrency toCurrency w) in
  admin_client env = None ->
  read_fault (PriceService.SelectLatestRate from to) = NoFault ->
  rates_past env from to (db w) ->
  exchange_rates (db w') <> exchange_rates (db w) ->
  exists r src,
    o = Returns r
    /\ (src = "api"%string \/ src = "fallback"%string)
    /\ PriceService.getLatestExchangeRate env read_fault from to w'
       = (Returns (Some {| PriceService.view_rate := r;
                           PriceService.view_recorded_at := now env;
                           PriceService.view_source := src |}), w').
Proof.
  cbv zeta. intros Hadm Hread Hpast Hgrew.
  destruct (getCurrencyRate_log this env fromCurrency toCurrency w)
    as (o & w' & a & b & E & _ & _ & _ & _ & R).
  rewrite E in *. cbn [fst snd] in *.
  destruct R as [R|(r & src & -> & _ & _ & Hsrc & R)]; [contradiction|].
  exists r, src. split; [reflexivity|]. split; [exact Hsrc|].
  unfold PriceService.getLatestExchangeRate, PriceService.query. unfold_M.
  rewrite Hadm, Hread.
  rewrite (latest_rate_app env _ _ r src (db w) (db w') R).
  unfold newer.
  destruct (latest_rate _ _ (db w)) as [old|] eqn:L; [|reflexivity].
  apply latest_rate_in in L. destruct L as (Hin & Hf & Ht).
  pose proof (Hpast old Hin Hf Ht) as Hold.
  cbn [recorded_at rate_row].
  assert ((recorded_at old <? now env)%Z = true) as -> by (apply Z.ltb_lt; exact Hold).
  reflexivity.
Qed.

Lemma getLatestExchangeRate_after_resolution_witness :
  exists r src,
    fst (CurrencyService.getCurrencyRate CurrencyService.service live "zar" "usd" stale_world)
    = Returns r
    /\ (src = "api"%string \/ src = "fallback"%string)
    /\ PriceService.getLatestExchangeRate live (fun _ => NoFault) "ZAR" "USD"
         (snd (CurrencyService.getCurrencyRate CurrencyService.service live "zar" "usd"
                 stale_world))
       = (Returns (Some {| PriceService.view_rate := r;
                           PriceService.view_recorded_at := now live;
                           PriceService.view_source := src |}),
          snd (CurrencyService.getCurrencyRate CurrencyService.service live "zar" "usd"
                 stale_world)).
Proof.
  apply (getLatestExchangeRate_after_resolution CurrencyService.service live
           (fun _ => NoFault) "zar" "usd" stale_world).
  - reflexivity.
  - reflexivity.
  - intros row [<-|[]] _ _. vm_compute. reflexivity.
  - vm_compute. discriminate.
Defined.

(** X16. [getLatestExchangeRate] looks the codes up as they are given.
    [getCurrencyRate] keeps the log of rates canonical, every row holding
    its codes in normal form; in such a log a lookup with a code that is
    not in normal form finds no row and returns null. *)
Theorem getLatestExchangeRate_as_given (this : CurrencyService.t) (env : environment)
    (read_fault : PriceService.db_read -> fault)
    (fromCurrency toCurrency : string) (w : world) :
  canonical_rates (db w) ->
  canonical_rates
    (db (snd (CurrencyService.getCurrencyRate this env fromCurrency toCurrency w)))
  /\ (admin_client env = None ->
      read_fault (PriceService.SelectLatestRate fromCurrency toCurrency) = NoFault ->
      CurrencyService.normaliseCurrencyCode fromCurrency <> fromCurrency
      \/ CurrencyService.normaliseCurrencyCode toCurrency <> toCurrency ->
      PriceService.getLatestExchangeRate env read_fault fromCurrency toCurrency w
      = (Returns None, w)).
Proof.
  intros Hcan. split.
  - destruct (getCurrencyRate_log this env fromCurrency toCurrency w)
      as (o & w' & a & b & E & _ & _ & _ & _ & R).
    rewrite E. cbn [snd].
    destruct R as [R|(r & src & _ & _ & _ & _ & R)]; intros row; rewrite R.
    + apply Hcan.
    + intros Hin. apply in_app_or in Hin. destruct Hin as [Hin|[<-|[]]]; [apply Hcan, Hin|].
      cbn [from_currency to_currency rate_row].
      rewrite !normaliseCurrencyCode_idem. split; reflexivity.
  - intros Hadm Hread Hraw.
    unfold PriceService.getLatestExchangeRate, PriceService.query. unfold_M.
    rewrite Hadm, Hread.
    destruct (latest_rate fromCurrency toCurrency (db w)) as [row|] eqn:L; [|reflexivity].
    apply latest_rate_in in L. destruct L as (Hin & Hf & Ht).
    destruct (Hcan row Hin) as [Cf Ct]. rewrite Hf in Cf. rewrite Ht in Ct.
    destruct Hraw; contradiction.
Qed.

Lemma getLatestExchangeRate_as_given_witness :
  canonical_rates
    (db (snd (CurrencyService.getCurrencyRate CurrencyService.service live "zar" "usd"
                stale_world)))
  /\ PriceService.getLatestExchangeRate live (fun _ => NoFault) "zar" "usd" stale_world
     = (Returns None, stale_world).
Proof.
  destruct (getLatestExchangeRate_as_given CurrencyService.service live (fun _ => NoFault)
              "zar" "usd" stale_world) as [H1 H2].
  - intros row [<-|[]]. split; reflexivity.
  - split; [exact H1|]. apply H2; [reflexivity | reflexivity |].
    left. vm_compute. discriminate.
Defined.

(* ================================================================== *)
(** * The daily cycle: prices and their ranges                         *)
(* ================================================================== *)









(** A cycle throws before its fan-out, having touched no table of
    prices, or gets to it. *)
Lemma updateDailyPrices_start this env o w :
  (exists rate w1, cycle_fans this env w rate w1)
  \/ (exists e w',
        PriceService.updateDailyPrices this env o w = (Throws e, w')
        /\ same_prices (db w) (db w')
        /\ attempted_updates (trace w') = attempted_updates (trace w)
        /\ run_inserts (trace w') = run_inserts (trace w)
        /\ (admin_client env = Some e
            \/ (admin_client env = None
                /\ (fst (CurrencyService.getCurrencyRate this env "ZAR" "USD" w) = Throws e
                    \/ (e = Error "Failed to load exchange rate"
                        /\ exists rate,
                             fst (CurrencyService.getCurrencyRate this env "ZAR" "USD" w)
                             = Returns rate
                             /\ JS.truthy rate = false)
                    \/ fault_of env SelectActiveRanges = ErrorResult e
                    \/ fault_of env SelectActiveRanges = Exception e)))).
Proof.
  destruct (getCurrencyRate_answered this env "ZAR" "USD" w) as (o' & w1 & E & Hstep & _).
  pose proof Hstep as (Hsame & _ & Hau & Hri).
  unfold PriceService.updateDailyPrices, try_catch, cycle_fans.
  unfold bind at 1, adminClient.
  destruct (admin_client env) as [e|] eqn:Hclient.
  { right. unfold throw at 1. exists e, w.
    split; [reflexivity|]. split; [repeat split|]. auto. }
  unfold ret at 1. unfold bind at 1. rewrite E. cbn [fst].
  destruct o' as [rate|e].
  2:{ right. exists e, w1. split; [reflexivity|]. split; [exact Hsame|].
      split; [exact Hau|]. split; [exact Hri|]. right. split; [reflexivity|]. left. reflexivity. }
  destruct (JS.truthy rate) eqn:Htruthy; cbn [negb].
  2:{ right. unfold throw at 1. eexists _, w1.
      split; [reflexivity|]. split; [exact Hsame|].
      split; [exact Hau|]. split; [exact Hri|].
      right. split; [reflexivity|]. right. left. split; [reflexivity|]. eauto. }
  unfold bind at 1, call at 1.
  destruct (fault_of env SelectActiveRanges) as [|e|e] eqn:Hsel.
  - left. exists rate, w1. repeat split; auto.
  - right. unfold throw. eexists e, _. split; [reflexivity|]. simpl.
    rewrite attempted_updates_event, run_inserts_event. simpl.
    split; [exact Hsame|]. split; [lia|]. split; [lia|].
    right. split; [reflexivity|]. right. right. left. reflexivity.
  - right. eexists e, _. split; [reflexivity|]. simpl.
    rewrite attempted_updates_event, run_inserts_event. simpl.
    split; [exact Hsame|]. split; [lia|]. split; [lia|].
    right. split; [reflexivity|]. right. right. right. reflexivity.
Qed.

(** A cycle that gets to its fan-out runs it over the active ranges and
    closes. *)
Lemma updateDailyPrices_fans this env o w rate w1 :
  cycle_fans this env w rate w1 ->
  exists t w2,
    PriceService.Promise_all env rate (JS.toFixed (JS.div (JS.Fin 1) rate) 6)
      (active_ranges (db w))
      {| PriceService.updatedCount := 0; PriceService.skipped := [];
         PriceService.failures := [] |}
      (record_event (Db SelectActiveRanges) w1)
    = (Returns t, w2)
    /\ fanned (active_ranges (db w)) (record_event (Db SelectActiveRanges) w1) t w2
    /\ rate_step w w1
    /\ cycle_closes env o (active_ranges (db w)) rate t w2
         (PriceService.updateDailyPrices this env o w).
Proof.
  intros (Hclient & Hrate & Htruthy & Hsel).
  destruct (getCurrencyRate_answered this env "ZAR" "USD" w) as (o' & w1' & E & Hstep & _).
  rewrite Hrate in E. inversion E; subst o' w1'. clear E.
  pose proof (rate_step_active_ranges _ _ Hstep) as Hact.
  unfold PriceService.updateDailyPrices, try_catch.
  unfold bind at 1. unfold adminClient. rewrite Hclient. unfold ret at 1.
  unfold bind at 1. rewrite Hrate, Htruthy. cbn [negb].
  unfold bind at 1, call at 1. rewrite Hsel. unfold reading at 1.
  change (List.filter (fun range => commodity_is_active (snd range))
            (select_active_ranges (db (record_event (Db SelectActiveRanges) w1))))
    with (active_ranges (db w1)).
  rewrite Hact.
  change (with_db (db (record_event (Db SelectActiveRanges) w1))
                  (record_event (Db SelectActiveRanges) w1))
    with (record_event (Db SelectActiveRanges) w1).
  unfold bind at 1.
  destruct (Promise_all_run env rate (JS.toFixed (JS.div (JS.Fin 1) rate) 6)
              (active_ranges (db w)) (record_event (Db SelectActiveRanges) w1))
    as (t & w2 & Efan & Hfan).
  rewrite Efan.
  exists t, w2. split; [reflexivity|]. split; [exact Hfan|]. split; [exact Hstep|].
  unfold cycle_closes.
  destruct (fault_of env (InsertRate "ZAR" "USD" "daily_update")) as [|e|e] eqn:F1;
    destruct (fault_of env InsertRun) as [|e'|e'] eqn:F2;
    unfold bind, try_catch, call, ret, writing; rewrite ?F1; simpl; rewrite ?F2; simpl;
    rewrite ?attempted_updates_event, ?run_inserts_event; simpl;
    rewrite ?app_nil_r; repeat split; lia.
Qed.





(** X18. A cycle that cannot get to its fan-out, because the client of
    the store is missing, the rate does not resolve to a usable number
    or the ranges do not load, throws, and has by then attempted no
    update and no insert of a run, and changed no table of prices. *)
Theorem dailyPrices_aborts (this : CurrencyService.t) (env : environment)
    (o : PriceService.options) (w : world) :
  admin_client env <> None
  \/ fault_of env SelectActiveRanges <> NoFault
  \/ (forall rate,
        fst (CurrencyService.getCurrencyRate this env "ZAR" "USD" w) = Returns rate ->
        JS.truthy rate = false) ->
  exists e w',
    PriceService.updateDailyPrices this env o w = (Throws e, w')
    /\ same_prices (db w) (db w')
    /\ attempted_updates (trace w') = attempted_updates (trace w)
    /\ run_inserts (trace w') = run_inserts (trace w)
    /\ (admin_client env = Some e
        \/ fst (CurrencyService.getCurrencyRate this env "ZAR" "USD" w) = Throws e
        \/ e = Error "Failed to load exchange rate"
        \/ fault_of env SelectActiveRanges = ErrorResult e
        \/ fault_of env SelectActiveRanges = Exception e).
Proof.
  intros Hcannot.
  destruct (updateDailyPrices_start this env o w)
    as [(rate & w1 & Hadm & Hrate & Htr & Hsel)|(e & w' & E & S & A & R & Hwhy)].
  - exfalso. destruct Hcannot as [H|[H|H]]; [congruence | congruence |].
    specialize (H rate). rewrite Hrate in H. specialize (H eq_refl). congruence.
  - exists e, w'. split; [exact E|]. split; [exact S|]. split; [exact A|]. split; [exact R|].
    destruct Hwhy as [H|(_ & [H|[(H & _)|[H|H]]])]; auto.
Qed.

Lemma dailyPrices_aborts_witness :
  exists e w',
    PriceService.updateDailyPrices CurrencyService.service cut_off cron market
    = (Throws e, w')
    /\ same_prices (db market) (db w')
    /\ err_message e = "Supabase admin client is not configured"%string.
Proof.
  destruct (dailyPrices_aborts CurrencyService.service cut_off cron market)
    as (e & w' & E & S & _ & _ & Hwhy).
  - left. discriminate.
  - exists e, w'. split; [exact E|]. split; [exact S|].
    vm_compute in E. inversion E. reflexivity.
Defined.

(** X19. The rate of a cycle is logged after the fan-out, and the two
    ways in which that insert can fail differ.  When it answers with an
    error, the cycle goes on: it attempts the insert of its run and
    returns its summary.  When it throws, the cycle throws the same
    exception: all the updates of the fan-out have been attempted and
    what they wrote stays, but no insert of a run is attempted and
    PriceUpdateRun is as it was. *)
Theorem dailyPrices_rate_log_failure (this : CurrencyService.t) (env : environment)
    (o : PriceService.options) (w : world) (zarToUsdRate : JS.num) (w1 : world)
    (e : js_error) :
  cycle_fans this env w zarToUsdRate w1 ->
  let N := length (active_ranges (db w)) in
  let K := incomplete_count (active_ranges (db w)) in
  let result := PriceService.updateDailyPrices this env o w in
  attempted_updates (trace (snd result)) = (attempted_updates (trace w) + (N - K))%nat
  /\ (fault_of env (InsertRate "ZAR" "USD" "daily_update") = ErrorResult e ->
      (exists s, fst result = Returns s)
      /\ run_inserts (trace (snd result)) = S (run_inserts (trace w)))
  /\ (fault_of env (InsertRate "ZAR" "USD" "daily_update") = Exception e ->
      fst result = Throws e
      /\ run_inserts (trace (snd result)) = run_inserts (trace w)
      /\ price_update_runs (db (snd result)) = price_update_runs (db w)
      /\ exists new,
           price_history (db (snd result)) = (price_history (db w) ++ new)%list
           /\ (length new <= N - K)%nat).
Proof.
  intros Hfans N K result.
  destruct (updateDailyPrices_fans this env o w zarToUsdRate w1 Hfans)
    as (t & w2 & _ & Hfan & Hstep & Hclose).
  fold result in Hclose.
  destruct Hfan as (F1 & F2 & F3 & F4 & (new & F5) & _ & _ & _ & F9 & F10).
  destruct Hstep as ((_ & _ & _ & Hh & Hruns) & _ & Hau & Hri).
  destruct Hclose as (_ & _ & _ & C4 & C5 & C6).
  cbn [trace record_event db] in *.
  rewrite attempted_updates_event in F1. rewrite run_inserts_event in F10.
  simpl in F1, F10.
  pose proof (incomplete_count_le (active_ranges (db w))) as Hle.
  fold N K in F1, F2, F3, Hle.
  split; [lia|]. split.
  - intros Hf. rewrite Hf in C6. destruct C6 as (C6 & _ & _ & C9).
    split; [eauto | lia].
  - intros Hf. rewrite Hf in C6. destruct C6 as (C6 & _ & C8 & C9).
    split; [exact C6|]. split; [lia|]. split; [congruence|].
    exists new. split; [congruence|].
    assert (length new = PriceService.updatedCount t) as ->.
    { rewrite F5, length_app in F4. lia. }
    lia.
Qed.

Lemma dailyPrices_rate_log_failure_witness :
  let env :=
    {| now := 1700000000000;
       admin_client := None;
       fault_of := fun op =>
         match op with
         | InsertRate _ _ "daily_update" => Exception store_error
         | _ => NoFault
         end;
       provider := fun _ => None;
       random := fun _ => 1 # 2;
       schedule := mixed_order |} in
  let result := PriceService.updateDailyPrices CurrencyService.service env cron market in
  fst result = Throws store_error
  /\ attempted_updates (trace (snd result)) = 5%nat
  /\ price_update_runs (db (snd result)) = [].
Proof.
  intros env result.
  destruct (dailyPrices_rate_log_failure CurrencyService.service env cron market
              (JS.Fin 0.054)
              (snd (CurrencyService.getCurrencyRate CurrencyService.service env
                      "ZAR" "USD" market))
              store_error) as (A & _ & T).
  - repeat split; reflexivity.
  - destruct (T eq_refl) as (E & _ & R & _).
    split; [exact E|]. split; [|exact R].
    fold result in A. rewrite A. reflexivity.
Defined.

(** X20. What a cycle returns adds up: every active range is counted
    once, as updated, as failed or as skipped, and PriceHistory has grown
    by one row for each update that is counted. *)
Theorem dailyPrices_accounting (this : CurrencyService.t) (env : environment)
    (o : PriceService.options) (w : world) (s : PriceService.summary) (w' : world) :
  PriceService.updateDailyPrices this env o w = (Returns s, w') ->
  PriceService.success s = true
  /\ PriceService.total s = length (active_ranges (db w))
  /\ (PriceService.updated s + length (PriceService.summary_failures s)
      + length (PriceService.summary_skipped s) = PriceService.total s)%nat
  /\ length (price_history (db w'))
     = (length (price_history (db w)) + PriceService.updated s)%nat.
Proof.
  intros E.
  destruct (updateDailyPrices_start this env o w)
    as [(rate & w1 & Hfans)|(e & w'' & E' & _)]; [|congruence].
  destruct (updateDailyPrices_fans this env o w rate w1 Hfans)
    as (t & w2 & _ & Hfan & Hstep & Hclose).
  rewrite E in Hclose.
  destruct Hfan as (_ & F2 & F3 & F4 & _).
  destruct Hstep as ((_ & _ & _ & Hh & _) & _).
  destruct Hclose as (_ & _ & _ & C4 & _ & C6). cbn [fst snd] in *.
  cbn [db record_event] in F4.
  assert (s = summary_of (active_ranges (db w)) t) as ->.
  { destruct (fault_of env (InsertRate "ZAR" "USD" "daily_update"));
      destruct C6 as (C6 & _); congruence. }
  cbn [summary_of PriceService.success PriceService.total PriceService.updated
       PriceService.summary_failures PriceService.summary_skipped].
  split; [reflexivity|]. split; [reflexivity|]. split; [lia|]. congruence.
Qed.

Lemma dailyPrices_accounting_witness :
  exists s w',
    PriceService.updateDailyPrices CurrencyService.service
      (refusing "silver" (1 # 2) other_order) cron market
    = (Returns s, w')
    /\ (PriceService.updated s + length (PriceService.summary_failures s)
        + length (PriceService.summary_skipped s) = 6)%nat
    /\ length (PriceService.summary_failures s) = 1%nat.
Proof.
  do 2 eexists. split; [vm_compute; reflexivity|].
  match goal with
  | |- (PriceService.updated ?s + _ + _ = _)%nat /\ _ =>
      destruct (dailyPrices_accounting CurrencyService.service
                  (refusing "silver" (1 # 2) other_order) cron market s
                  (snd (PriceService.updateDailyPrices CurrencyService.service
                          (refusing "silver" (1 # 2) other_order) cron market)))
        as (_ & T & A & _)
  end.
  - vm_compute. reflexivity.
  - split; [|reflexivity]. rewrite A, T. reflexivity.
Defined.

Lemma latest_rate_first env from to r src s s' :
  rates_past env from to s ->
  exchange_rates s' = (exchange_rates s ++ [rate_row env from to r src])%list ->
  latest_rate from to s' = Some (rate_row env from to r src).
Proof.
  intros Hpast E. rewrite (latest_rate_app env from to r src s s' E).
  destruct (latest_rate from to s) as [old|] eqn:L; [|reflexivity].
  apply latest_rate_in in L. destruct L as (Hin & Hf & Ht).
  pose proof (Hpast old Hin Hf Ht) as Hold.
  unfold newer. cbn [recorded_at rate_row].
  assert ((recorded_at old <? now env)%Z = true) as -> by (apply Z.ltb_lt; exact Hold).
  reflexivity.
Qed.

(** X21. A cycle that completes logs the rate it used, with the source
    'daily_update'; and while that row is fresh the rate resolver serves
    that rate: called right after the cycle, for ZAR to USD,
    [getCurrencyRate] returns the rate of the cycle after one read,
    without a call of the provider. *)
Theorem dailyPrices_rate_served (this : CurrencyService.t) (env : environment)
    (o : PriceService.options) (w : world) (zarToUsdRate : JS.num) (w1 : world) :
  cycle_fans this env w zarToUsdRate w1 ->
  fault_of env (InsertRate "ZAR" "USD" "daily_update") = NoFault ->
  fault_of env (SelectCachedRate "ZAR" "USD") = NoFault ->
  rates_past env "ZAR" "USD" (db w) ->
  let w' := snd (PriceService.updateDailyPrices this env o w) in
  exchange_rates (db w')
  = (exchange_rates (db w1) ++ [rate_row env "ZAR" "USD" zarToUsdRate "daily_update"])%list
  /\ CurrencyService.getCurrencyRate this env "ZAR" "USD" w'
     = (Returns zarToUsdRate, record_event (Db (SelectCachedRate "ZAR" "USD")) w').
Proof.
  intros Hfans Hlog Hread Hpast w'.
  destruct (updateDailyPrices_fans this env o w zarToUsdRate w1 Hfans)
    as (t & w2 & _ & Hfan & _ & Hclose).
  fold w' in Hclose.
  destruct Hfan as (_ & _ & _ & _ & _ & F6 & _).
  destruct Hclose as (_ & _ & _ & _ & _ & C6).
  rewrite Hlog in C6. destruct C6 as (_ & C7 & _).
  cbn [db record_event] in F6. rewrite F6 in C7.
  split; [exact C7|].
  destruct Hfans as (Hadm & Hrate & Htr & _).
  destruct (getCurrencyRate_log this env "ZAR" "USD" w)
    as (o' & w1' & a & b & E & _ & _ & _ & _ & R).
  rewrite Hrate in E. inversion E; subst o' w1'. clear E.
  change (CurrencyService.normaliseCurrencyCode "ZAR") with "ZAR"%string in R.
  change (CurrencyService.normaliseCurrencyCode "USD") with "USD"%string in R.
  assert (exists src,
    latest_rate "ZAR" "USD" (db w') = Some (rate_row env "ZAR" "USD" zarToUsdRate src))
    as (src & Hlatest).
  { destruct R as [R|(r & src & Er & _ & _ & _ & R)].
    - exists "daily_update"%string.
      apply (latest_rate_first env _ _ _ _ (db w)); [exact Hpast|].
      rewrite <- R. exact C7.
    - inversion Er; subst r. exists src.
      rewrite (latest_rate_app env _ _ zarToUsdRate "daily_update" (db w1) (db w') C7).
      rewrite (latest_rate_first env _ _ _ _ (db w) (db w1) Hpast R).
      unfold newer. cbn [recorded_at rate_row]. rewrite Z.ltb_irrefl. reflexivity. }
  apply (getCurrencyRate_hit this env "ZAR" "USD" w' zarToUsdRate);
    try discriminate.
  change (CurrencyService.normaliseCurrencyCode "ZAR") with "ZAR"%string.
  change (CurrencyService.normaliseCurrencyCode "USD") with "USD"%string.
  unfold fresh_tier, persisted. rewrite Hadm, Hread, Hlatest.
  rewrite age_hours_now. cbn [rate rate_row andb]. rewrite Htr. reflexivity.
Qed.

Lemma dailyPrices_rate_served_witness :
  let w' := snd (PriceService.updateDailyPrices CurrencyService.service
                   (interleaved (1 # 2) mixed_order) cron market) in
  fst (CurrencyService.getCurrencyRate CurrencyService.service
         (interleaved (1 # 2) mixed_order) "ZAR" "USD" w')
  = Returns (JS.Fin 0.054)
  /\ List.map source (exchange_rates (db w')) = ["fallback"; "daily_update"]%string.
Proof.
  intros w'.
  destruct (dailyPrices_rate_served CurrencyService.service
              (interleaved (1 # 2) mixed_order) cron market (JS.Fin 0.054)
              (snd (CurrencyService.getCurrencyRate CurrencyService.service
                      (interleaved (1 # 2) mixed_order) "ZAR" "USD" market)))
    as (R & E).
  - repeat split; reflexivity.
  - reflexivity.
  - reflexivity.
  - intros row [].
  - fold w' in R, E. split; [rewrite E; reflexivity|].
    rewrite R. vm_compute. reflexivity.
Defined.

(* ================================================================== *)
(** * Manual updates: what is written                                  *)
(* ================================================================== *)




(* ================================================================== *)
(** * The routes                                                       *)
(* ================================================================== *)







(** White space is no part of a number. *)
Lemma space_no_digit c : JS.is_space c = true -> JS.digit c = None.
Proof. destruct c as [[] [] [] [] [] [] [] []]; vm_compute; congruence. Qed.

Lemma space_plain c :
  JS.is_space c = true ->
  c <> "."%char /\ c <> "e"%char /\ c <> "E"%char /\ c <> "+"%char /\ c <> "-"%char
  /\ c <> "I"%char.
Proof.
  destruct c as [[] [] [] [] [] [] [] []]; vm_compute; intros H;
    repeat split; congruence.
Qed.

(** White space at the head of a list of characters. *)
Lemma drop_space_split s :
  exists ws, s = ws ++ JS.drop_space s /\ forallb JS.is_space ws = true.
Proof.
  induction s as [|c s (ws & E & F)]; [exists []; split; reflexivity|].
  cbn [JS.drop_space]. destruct (JS.is_space c) eqn:Hc.
  - exists (c :: ws). cbn [forallb app]. rewrite Hc, F, <- E. split; reflexivity.
  - exists []. split; reflexivity.
Qed.

(** What [parseFloat] reads is what [Number] reads, followed by white
    space. *)
Lemma drop_space_trim s :
  exists ws,
    JS.drop_space s = JS.trim_chars s ++ ws /\ forallb JS.is_space ws = true.
Proof.
  unfold JS.trim_chars.
  destruct (drop_space_split (rev (JS.drop_space s))) as (ws & E & F).
  exists (rev ws). split.
  - rewrite <- rev_app_distr, <- E, rev_involutive. reflexivity.
  - rewrite forallb_forall in *. intros c Hc. apply F, in_rev. exact Hc.
Qed.

Lemma read_digits_app s ws acc count :
  forallb JS.is_space ws = true ->
  JS.read_digits JS.digit 10 (s ++ ws) acc count
  = let '(v, n, rest) := JS.read_digits JS.digit 10 s acc count in (v, n, rest ++ ws).
Proof.
  intros F. revert acc count.
  induction s as [|c s IH]; intros acc count.
  - cbn [app JS.read_digits]. destruct ws as [|c ws]; [reflexivity|].
    cbn [forallb] in F. apply andb_true_iff in F as [Hc _].
    cbn [JS.read_digits]. rewrite (space_no_digit _ Hc). reflexivity.
  - cbn [app JS.read_digits]. destruct (JS.digit c); [apply IH|reflexivity].
Qed.

Lemma read_sign_app s ws :
  s <> [] ->
  JS.read_sign (s ++ ws) = (fst (JS.read_sign s), snd (JS.read_sign s) ++ ws).
Proof.
  destruct s as [|c s]; [congruence|]. intros _.
  unfold JS.read_sign. cbn [app].
  destruct c as [[] [] [] [] [] [] [] []]; reflexivity.
Qed.

Lemma read_sign_spaces ws :
  forallb JS.is_space ws = true -> JS.read_sign ws = (false, ws).
Proof.
  destruct ws as [|c ws]; [reflexivity|].
  cbn [forallb]. intros F. apply andb_true_iff in F as [Hc _].
  destruct c as [[] [] [] [] [] [] [] []]; try reflexivity; vm_compute in Hc; discriminate.
Qed.

Lemma read_exponent_app r ws e :
  forallb JS.is_space ws = true ->
  JS.read_exponent r = Some e ->
  JS.read_exponent_prefix (r ++ ws) = e.
Proof.
  intros F. destruct r as [|c r].
  - cbn [JS.read_exponent app]. intros E. inversion E; subst.
    destruct ws as [|c ws]; [reflexivity|].
    cbn [forallb] in F. apply andb_true_iff in F as [Hc _].
    destruct c as [[] [] [] [] [] [] [] []]; try reflexivity; vm_compute in Hc; discriminate.
  - assert (Hgo :
      match JS.read_digits JS.digit 10 (snd (JS.read_sign r)) 0 0%nat with
      | (v, S _, []) => Some (if fst (JS.read_sign r) then (- v)%Z else v)
      | _ => None
      end = Some e ->
      match JS.read_digits JS.digit 10 (snd (JS.read_sign (r ++ ws))) 0 0%nat with
      | (v, S _, _) => if fst (JS.read_sign (r ++ ws)) then (- v)%Z else v
      | _ => 0%Z
      end = e).
    { destruct r as [|d r].
      { cbn. discriminate. }
      rewrite read_sign_app by discriminate. cbn [fst snd].
      rewrite read_digits_app by exact F.
      destruct (JS.read_digits JS.digit 10 (snd (JS.read_sign (d :: r))) 0 0%nat)
        as [[v n] rest].
      destruct n as [|n]; [discriminate|].
      destruct rest; [|discriminate].
      intros E. inversion E. reflexivity. }
    unfold JS.read_exponent, JS.read_exponent_prefix. cbn [app].
    destruct (JS.read_sign r) as [negative r1] eqn:Es.
    destruct (JS.read_sign (r ++ ws)) as [negative' r1'] eqn:Es'.
    cbn [fst snd] in Hgo.
    destruct c as [[] [] [] [] [] [] [] []]; try discriminate; exact Hgo.
Qed.

Lemma drop_prefix_head c s :
  c <> "I"%char ->
  JS.drop_prefix "Infinity" (string_of_list_ascii (c :: s)) = None.
Proof.
  intros H. cbn [string_of_list_ascii JS.drop_prefix].
  destruct (Ascii.eqb_spec "I" c) as [E|_]; [congruence|reflexivity].
Qed.

Lemma list_ascii_of_string_inj a b :
  string_of_list_ascii a = b -> a = list_ascii_of_string b.
Proof. intros <-. rewrite list_ascii_of_string_of_list_ascii. reflexivity. Qed.

(** A whole unsigned decimal literal followed by white space is read as
    the literal. *)
Lemma read_decimal_prefix_app r ws :
  forallb JS.is_space ws = true ->
  JS.read_unsigned_decimal r <> JS.NaN ->
  JS.read_decimal_prefix (r ++ ws) = JS.read_unsigned_decimal r.
Proof.
  intros F. unfold JS.read_unsigned_decimal, JS.read_decimal_prefix.
  destruct (String.eqb_spec (string_of_list_ascii r) "Infinity") as [Hinf|Hinf].
  { apply list_ascii_of_string_inj in Hinf. subst r. reflexivity. }
  rewrite read_digits_app by exact F.
  destruct r as [|c r].
  { cbn. intros N. exfalso. apply N. reflexivity. }
  destruct (Ascii.eqb_spec c "I") as [->|Hc].
  { cbn. intros N. exfalso. apply N. reflexivity. }
  cbn [app]. rewrite (drop_prefix_head c (r ++ ws) Hc).
  destruct (JS.read_digits JS.digit 10 (c :: r) 0 0%nat) as [[ip ni] r1].
  assert (Hfrac :
    (let '(fp, nf, r2) :=
       match r1 ++ ws with
       | "."%char :: r => JS.read_digits JS.digit 10 r 0 0%nat
       | _ => (0%Z, 0%nat, r1 ++ ws)
       end in (fp, nf, r2))
    = (let '(fp, nf, r2) :=
         match r1 with
         | "."%char :: r => JS.read_digits JS.digit 10 r 0 0%nat
         | _ => (0%Z, 0%nat, r1)
         end in (fp, nf, r2 ++ ws))).
  { destruct r1 as [|d r1].
    - cbn [app]. destruct ws as [|d ws]; [reflexivity|].
      cbn [forallb] in F. apply andb_true_iff in F as [Hd _].
      destruct (space_plain d Hd) as (Hdot & _).
      destruct d as [[] [] [] [] [] [] [] []]; try reflexivity. congruence.
    - cbn [app].
      destruct (Ascii.eqb_spec d ".") as [->|Hd].
      + rewrite read_digits_app by exact F.
        destruct (JS.read_digits JS.digit 10 r1 0 0%nat) as [[fp nf] r2]. reflexivity.
      + destruct d as [[] [] [] [] [] [] [] []]; try reflexivity. congruence. }
  destruct (match r1 with
            | "."%char :: r => JS.read_digits JS.digit 10 r 0 0%nat
            | _ => (0%Z, 0%nat, r1)
            end) as [[fp nf] r2].
  destruct (match r1 ++ ws with
            | "."%char :: r => JS.read_digits JS.digit 10 r 0 0%nat
            | _ => (0%Z, 0%nat, r1 ++ ws)
            end) as [[fp' nf'] r2'].
  inversion Hfrac; subst fp' nf' r2'.
  destruct (ni + nf)%nat; [congruence|].
  destruct (JS.read_exponent r2) as [e|] eqn:Ee; [|congruence].
  intros _. rewrite (read_exponent_app _ _ _ F Ee). reflexivity.
Qed.

(** X26. The check of [GET /convert] reads the amount with [Number],
    the conversion with [parseFloat].  On an amount that passes the
    check the two agree, with two exceptions: an amount of white space
    only, which [Number] reads as 0, is converted as NaN, and an amount
    with a radix prefix (0x, 0o, 0b) is converted as 0. *)
Theorem convert_amount_read (amount : string) :
  JS.nonempty amount = true ->
  JS.isNaN (JS.Number (JS.VStr amount)) = false ->
  match JS.trim_chars (list_ascii_of_string amount) with
  | [] => JS.parseFloat amount = JS.NaN /\ JS.Number (JS.VStr amount) = JS.Fin 0
  | "0"%char :: ("x" | "X" | "o" | "O" | "b" | "B")%char :: _ =>
      JS.parseFloat amount = JS.Fin 0
  | _ => JS.parseFloat amount = JS.Number (JS.VStr amount)
  end.
Proof.
  intros _ Hnum.
  assert (Hn : JS.StringToNumber amount <> JS.NaN).
  { intros E. cbn [JS.Number] in Hnum. rewrite E in Hnum. discriminate. }
  clear Hnum. cbn [JS.Number]. revert Hn.
  unfold JS.parseFloat, JS.StringToNumber.
  destruct (drop_space_trim (list_ascii_of_string amount)) as (ws & -> & F).
  destruct (JS.trim_chars (list_ascii_of_string amount)) as [|c t] eqn:Et.
  { intros _. cbn [app]. rewrite (read_sign_spaces _ F).
    split; [|reflexivity].
    unfold JS.read_decimal_prefix.
    destruct ws as [|d ws]; [reflexivity|].
    cbn [forallb] in F. apply andb_true_iff in F as [Hd _].
    destruct (space_plain d Hd) as (Hdot & _ & _ & _ & _ & HI).
    rewrite (drop_prefix_head d ws HI).
    cbn [JS.read_digits]. rewrite (space_no_digit _ Hd).
    destruct d as [[] [] [] [] [] [] [] []]; try reflexivity; congruence. }
  assert (Hdec :
    (let (negative, r) := JS.read_sign (c :: t) in
     let v := JS.read_unsigned_decimal r in if negative then JS.neg v else v) <> JS.NaN ->
    (let (negative, r) := JS.read_sign ((c :: t) ++ ws) in
     let v := JS.read_decimal_prefix r in if negative then JS.neg v else v)
    = (let (negative, r) := JS.read_sign (c :: t) in
       let v := JS.read_unsigned_decimal r in if negative then JS.neg v else v)).
  { rewrite read_sign_app by discriminate.
    destruct (JS.read_sign (c :: t)) as [negative r]. cbn [fst snd]. cbv zeta.
    intros Hv.
    rewrite read_decimal_prefix_app; [reflexivity|exact F|].
    intros E. rewrite E in Hv. destruct negative; apply Hv; reflexivity. }
  assert (Hradix : forall x u,
    JS.digit x = None -> x <> "."%char -> x <> "e"%char -> x <> "E"%char ->
    (let (negative, r) := JS.read_sign (("0"%char :: x :: u) ++ ws) in
     let v := JS.read_decimal_prefix r in if negative then JS.neg v else v) = JS.Fin 0).
  { intros x u Hx Hdot He HE. cbn [app JS.read_sign]. cbv zeta.
    unfold JS.read_decimal_prefix.
    rewrite (drop_prefix_head "0" _) by discriminate.
    cbn [JS.read_digits].
    change (JS.digit "0") with (Some 0%Z). cbv beta iota. cbn [JS.read_digits].
    rewrite Hx.
    destruct x as [[] [] [] [] [] [] [] []]; try reflexivity; congruence. }
  destruct c as [[] [] [] [] [] [] [] []]; try exact Hdec.
  destruct t as [|x t]; [exact Hdec|].
  destruct x as [[] [] [] [] [] [] [] []]; try exact Hdec;
    intros _; apply Hradix; (reflexivity || discriminate).
Qed.

Lemma convert_amount_read_witness :
  JS.nonempty "0x1A" = true
  /\ JS.isNaN (JS.Number (JS.VStr "0x1A")) = false
  /\ JS.parseFloat "0x1A" = JS.Fin 0.
Proof.
  split; [reflexivity|]. split; [reflexivity|].
  exact (convert_amount_read "0x1A" eq_refl eq_refl).
Defined.

(* ================================================================== *)
(** * The batch of rates                                               *)
(* ================================================================== *)

(** One step of a computation. *)
Ltac run_M := unfold bind, try_catch, ret, throw, lift; cbv beta iota.

(** [getCurrencyRate] cut at its awaits is [getCurrencyRate]: a call that
    nothing interrupts takes its steps to the same outcome and the same
    world. *)
Lemma getCurrencyRate_cut this env f t w o w' :
  CurrencyService.getCurrencyRate this env f t w = (o, w') ->
  (let* c0 := CurrencyService.launch_rate this f t in
   let* c1 := CurrencyService.resume_rate this env c0 in
   let* c2 := CurrencyService.resume_rate this env c1 in
   let* c3 := CurrencyService.resume_rate this env c2 in
   CurrencyService.resume_rate this env c3) w
  = (match o with
     | Returns r => Returns (CurrencyService.Resolved r)
     | Throws e => Throws e
     end, w').
Proof.
  unfold CurrencyService.getCurrencyRate, CurrencyService.launch_rate,
    CurrencyService.rate_handler.
  set (from := CurrencyService.normaliseCurrencyCode f).
  set (to := CurrencyService.normaliseCurrencyCode t).
  destruct (negb (JS.nonempty from) || negb (JS.nonempty to)) eqn:Hcodes.
  { run_M. destruct (CurrencyService.resolveFallbackRate this f t);
      intros E; inversion E; reflexivity. }
  destruct (String.eqb from to).
  { run_M. intros E; inversion E; reflexivity. }
  destruct (getCachedExchangeRate_run env from to w) as (r1 & w1 & E1 & _).
  run_M. cbn [CurrencyService.resume_rate]. fold from to. run_M. rewrite E1.
  destruct (if_truthy r1) as [cached|].
  { intros E; inversion E; reflexivity. }
  cbn [CurrencyService.resume_rate]. fold from to. run_M.
  destruct (fetchExchangeRateFromAPI_run env from to w1) as (r2 & w2 & E2 & _).
  rewrite E2.
  destruct (if_truthy r2) as [api|].
  { cbn [CurrencyService.resume_rate]. fold from to. run_M.
    destruct (saveExchangeRate_run env from to api "api" w2) as (w3 & E3 & _).
    rewrite E3. intros E; inversion E; reflexivity. }
  cbn [CurrencyService.resume_rate]. fold from to.
  unfold CurrencyService.rate_handler. run_M.
  unfold adminClient.
  destruct (admin_client env) as [e|].
  { run_M. destruct (CurrencyService.resolveFallbackRate this f t);
      intros E; inversion E; reflexivity. }
  run_M. unfold call.
  destruct (fault_of env (SelectStaleRate from to)) as [|e|e].
  3:{ destruct (CurrencyService.resolveFallbackRate this f t);
        intros E; inversion E; reflexivity. }
  - unfold reading. cbn [db record_event with_db].
    destruct (latest_rate from to (db w2)) as [row|].
    { intros E; inversion E; reflexivity. }
    destruct (CurrencyService.resolveFallbackRate this from to) as [resolved|e] eqn:Er.
    2:{ destruct (CurrencyService.resolveFallbackRate this f t);
          intros E; inversion E; reflexivity. }
    destruct (negb (JS.truthy (resolved ?? CurrencyService.fallbackRate this))
              || negb (JS.isFinite (resolved ?? CurrencyService.fallbackRate this))).
    { destruct (CurrencyService.resolveFallbackRate this f t);
        intros E; inversion E; reflexivity. }
    cbn [CurrencyService.resume_rate]. fold from to. run_M.
    match goal with
    | |- context [CurrencyService.saveExchangeRate env from to ?v "fallback" ?w0] =>
        destruct (saveExchangeRate_run env from to v "fallback" w0) as (w3 & E3 & _)
    end.
    rewrite E3. intros E; inversion E; reflexivity.
  - destruct (CurrencyService.resolveFallbackRate this from to) as [resolved|e'] eqn:Er.
    2:{ destruct (CurrencyService.resolveFallbackRate this f t);
          intros E; inversion E; reflexivity. }
    destruct (negb (JS.truthy (resolved ?? CurrencyService.fallbackRate this))
              || negb (JS.isFinite (resolved ?? CurrencyService.fallbackRate this))).
    { destruct (CurrencyService.resolveFallbackRate this f t);
        intros E; inversion E; reflexivity. }
    cbn [CurrencyService.resume_rate]. fold from to. run_M.
    match goal with
    | |- context [CurrencyService.saveExchangeRate env from to ?v "fallback" ?w0] =>
        destruct (saveExchangeRate_run env from to v "fallback" w0) as (w3 & E3 & _)
    end.
    rewrite E3. intros E; inversion E; reflexivity.
Qed.

Lemma static_fallback_returns this f t :
  precision_accepted this -> exists r, static_fallback this f t = Returns r.
Proof.
  intros (d & Hd). unfold static_fallback, CurrencyService.resolveFallbackRate.
  rewrite Hd.
  repeat match goal with
         | |- context [if ?b then _ else _] => destruct b
         end; eexists; reflexivity.
Qed.

Lemma same_prices_refl s : same_prices s s.
Proof. repeat split. Qed.

Lemma same_prices_trans s1 s2 s3 :
  same_prices s1 s2 -> same_prices s2 s3 -> same_prices s1 s3.
Proof.
  unfold same_prices. intros (?&?&?&?&?) (?&?&?&?&?). repeat split; congruence.
Qed.

Lemma same_prices_db s s' : s' = s -> same_prices s s'.
Proof. intros ->. apply same_prices_refl. Qed.

Lemma latest_rate_other env base target ok t' s s' :
  grows env base target ok s s' -> t' <> target ->
  latest_rate base t' s' = latest_rate base t' s.
Proof.
  intros (_ & [E|(r & src & _ & E)]) D; unfold latest_rate; rewrite E; [reflexivity|].
  rewrite filter_app, foldl_app.
  rewrite (filter_cons_False _ (rate_row env base target r src) []).
  - reflexivity.
  - cbn [rate_row from_currency to_currency]. intros [_ H]. congruence.
Qed.

Lemma grows_refl env base target ok s : grows env base target ok s s.
Proof. split; [apply same_prices_refl|left; reflexivity]. Qed.

Lemma grows_db env base target ok s s' : s' = s -> grows env base target ok s s'.
Proof. intros ->. apply grows_refl. Qed.

Lemma rows_added_refl env base ok s : rows_added env base ok s s.
Proof.
  split; [apply same_prices_refl|]. exists []. split; [symmetry; apply app_nil_r|constructor].
Qed.

Lemma rows_added_grows env base target ok ok' s0 s s' :
  rows_added env base ok s0 s -> grows env base target ok' s s' ->
  (forall r src, ok' r src -> ok target r src) ->
  rows_added env base ok s0 s'.
Proof.
  intros (P & rows & E & F) (P' & G) Hok.
  split; [eapply same_prices_trans; eassumption|].
  destruct G as [G|(r & src & Hr & G)].
  - exists rows. split; [congruence|exact F].
  - exists (rows ++ [rate_row env base target r src])%list.
    split; [rewrite G, E, <- app_assoc; reflexivity|].
    apply Forall_app. split; [exact F|]. constructor; [|constructor].
    exists target, r, src. split; [reflexivity|apply Hok; exact Hr].
Qed.

Lemma fresh_tier_latest env s s' from to :
  latest_rate from to s' = latest_rate from to s ->
  fresh_tier env s' from to = fresh_tier env s from to.
Proof. intros E. unfold fresh_tier, persisted. rewrite E. reflexivity. Qed.

Lemma stale_tier_latest env s s' from to :
  latest_rate from to s' = latest_rate from to s ->
  stale_tier env s' from to = stale_tier env s from to.
Proof. intros E. unfold stale_tier, persisted. rewrite E. reflexivity. Qed.

Lemma tier_chain_proper this env s from to :
  proper_pair from to ->
  tier_chain this env s from to
  = match fresh_tier env s from to with
    | Some r => Returns r
    | None =>
        match live_tier env from to with
        | Some r => Returns r
        | None =>
            match stale_tier env s from to with
            | Some r => Returns r
            | None => static_fallback this from to
            end
        end
    end.
Proof.
  intros (Nf & Nt & D). unfold tier_chain. rewrite Nf, Nt, D. reflexivity.
Qed.

(** A save adds at most a row of its pair. *)
Lemma saveExchangeRate_grows env base target r src w :
  normal base -> normal target ->
  exists w',
    CurrencyService.saveExchangeRate env base target r src w = (Returns tt, w')
    /\ grows env base target (fun r' src' => r' = r /\ src' = src) (db w) (db w').
Proof.
  intros Nb Nt.
  destruct (saveExchangeRate_log env base target r src w)
    as (w' & writes & E & _ & _ & P & G).
  exists w'. split; [exact E|]. split; [exact P|].
  unfold normal in *. rewrite Nb, Nt in G.
  destruct G as [G|G]; [left; exact G|right; eauto].
Qed.

Lemma grows_weaken env base target (ok ok' : JS.num -> string -> Prop) s s' :
  (forall r src, ok r src -> ok' r src) ->
  grows env base target ok s s' -> grows env base target ok' s s'.
Proof.
  intros H (P & [G|(r & src & Hr & G)]); split; auto. right. eauto.
Qed.

(** One step of a call that is on track. *)
Lemma resume_rate_on_track this env s0 base target c w :
  precision_accepted this -> normal base -> normal target ->
  call_on_track this env s0 (db w) base (target, c) ->
  exists c' w',
    CurrencyService.resume_rate this env c w = (Returns c', w')
    /\ call_on_track this env s0 (db w') base (target, c')
    /\ (rate_awaits_left c' <= pred (rate_awaits_left c))%nat
    /\ grows env base target (call_row this env s0 base target) (db w) (db w').
Proof.
  intros Hprec Nb Nt. unfold call_on_track. cbn [fst snd].
  destruct c as [r|f t|f t|f t|f t r src].
  - intros H. exists (CurrencyService.Resolved r), w.
    split; [reflexivity|]. split; [exact H|]. split; [simpl; lia|apply grows_refl].
  - intros (-> & -> & P & L).
    cbn [CurrencyService.resume_rate]. rewrite Nb, Nt. run_M.
    destruct (getCachedExchangeRate_run env base target w) as (r1 & w1 & E1 & _ & D1 & _).
    rewrite E1.
    pose proof (getCachedExchangeRate_fresh _ _ _ _ _ _ E1) as F.
    rewrite Nb, Nt in F.
    rewrite (fresh_tier_latest env s0 (db w) base target L) in F.
    destruct (if_truthy r1) as [cached|].
    + do 2 eexists. split; [reflexivity|]. cbn [snd fst].
      split; [rewrite (tier_chain_proper _ _ _ _ _ P), <- F; reflexivity|].
      split; [simpl; lia|]. apply grows_db. exact D1.
    + do 2 eexists. split; [reflexivity|]. cbn [snd fst].
      rewrite D1. split; [repeat split; auto; apply P|]. split; [simpl; lia|].
      apply grows_refl.
  - intros (-> & -> & P & L & F).
    cbn [CurrencyService.resume_rate]. rewrite Nb, Nt. run_M.
    destruct (fetchExchangeRateFromAPI_run env base target w) as (r2 & w2 & E2 & _ & D2 & _).
    rewrite E2.
    pose proof (fetchExchangeRateFromAPI_live _ _ _ _ _ _ E2) as Hl.
    destruct (if_truthy r2) as [api|] eqn:Hapi.
    + apply if_truthy_some in Hapi. destruct Hapi as (_ & Htr).
      do 2 eexists. split; [reflexivity|]. cbn [snd fst].
      split.
      { split; [reflexivity|]. split; [reflexivity|]. split; [auto|].
        split; [|exact Htr].
        rewrite (tier_chain_proper _ _ _ _ _ P), F, <- Hl. reflexivity. }
      split; [simpl; lia|]. apply grows_db. exact D2.
    + do 2 eexists. split; [reflexivity|]. cbn [snd fst].
      rewrite D2. split; [repeat split; auto; apply P|]. split; [simpl; lia|].
      apply grows_refl.
  - intros (-> & -> & P & L & F & Hl).
    destruct (static_fallback_returns this base target Hprec) as (v & Hv).
    assert (Hchain : stale_tier env s0 base target = None ->
                     tier_chain this env s0 base target = Returns v).
    { intros S. rewrite (tier_chain_proper _ _ _ _ _ P), F, Hl, S. exact Hv. }
    assert (Hstale : stale_tier env (db w) base target = stale_tier env s0 base target)
      by (apply stale_tier_latest; exact L).
    revert Hstale. unfold stale_tier at 1. unfold persisted.
    cbn [CurrencyService.resume_rate]. rewrite Nb, Nt.
    unfold CurrencyService.rate_handler. run_M. unfold adminClient.
    revert Hv. unfold static_fallback.
    destruct (CurrencyService.resolveFallbackRate this base target) as [resolved|e] eqn:Er;
      [|discriminate].
    intros Hv. inversion Hv; subst v. clear Hv.
    destruct (admin_client env) as [e|].
    { run_M. intros S. do 2 eexists. split; [reflexivity|]. cbn [snd fst].
      split; [apply Hchain; symmetry; exact S|]. split; [simpl; lia|apply grows_refl]. }
    run_M. unfold call.
    destruct (fault_of env (SelectStaleRate base target)) as [|e|e].
    + unfold reading. cbn [db record_event with_db].
      destruct (latest_rate base target (db w)) as [row|].
      { intros S. do 2 eexists. split; [reflexivity|]. cbn [snd fst db record_event].
        split; [rewrite (tier_chain_proper _ _ _ _ _ P), F, Hl, <- S; reflexivity|].
        split; [simpl; lia|apply grows_refl]. }
      intros S. symmetry in S. specialize (Hchain S).
      destruct (negb (JS.truthy (resolved ?? CurrencyService.fallbackRate this))
                || negb (JS.isFinite (resolved ?? CurrencyService.fallbackRate this)))
        eqn:Hvalid.
      * do 2 eexists. split; [reflexivity|]. cbn [snd fst db record_event].
        split; [exact Hchain|]. split; [simpl; lia|apply grows_refl].
      * apply orb_false_iff in Hvalid as [Htr _]. apply negb_false_iff in Htr.
        do 2 eexists. split; [reflexivity|]. cbn [snd fst db record_event].
        split; [unfold call_row; auto 10|]. split; [simpl; lia|apply grows_refl].
    + intros S. symmetry in S. specialize (Hchain S).
      destruct (negb (JS.truthy (resolved ?? CurrencyService.fallbackRate this))
                || negb (JS.isFinite (resolved ?? CurrencyService.fallbackRate this)))
        eqn:Hvalid.
      * do 2 eexists. split; [reflexivity|]. cbn [snd fst db record_event].
        split; [exact Hchain|]. split; [simpl; lia|apply grows_refl].
      * apply orb_false_iff in Hvalid as [Htr _]. apply negb_false_iff in Htr.
        do 2 eexists. split; [reflexivity|]. cbn [snd fst db record_event].
        split; [unfold call_row; auto 10|]. split; [simpl; lia|apply grows_refl].
    + intros S. symmetry in S. specialize (Hchain S).
      do 2 eexists. split; [reflexivity|]. cbn [snd fst db record_event].
      split; [exact Hchain|]. split; [simpl; lia|apply grows_refl].
  - intros (-> & -> & H).
    cbn [CurrencyService.resume_rate]. rewrite Nb, Nt. run_M.
    destruct (saveExchangeRate_grows env base target r src w Nb Nt) as (w' & E & G).
    rewrite E. do 2 eexists. split; [reflexivity|]. cbn [snd fst].
    split; [apply H|]. split; [simpl; lia|].
    apply (grows_weaken env base target _ _ _ _ (fun r' src' '(conj Hr Hs) =>
             eq_ind_r (fun r0 => call_row this env s0 base target r0 src')
               (eq_ind_r (fun s1 => call_row this env s0 base target r s1) H Hs) Hr) G).
Qed.

Lemma call_on_track_apart this env s0 s s' base t ok tc :
  grows env base t ok s s' -> fst tc <> t ->
  call_on_track this env s0 s base tc -> call_on_track this env s0 s' base tc.
Proof.
  intros G D. pose proof (latest_rate_other env base t ok (fst tc) s s' G D) as L.
  unfold call_on_track. destruct (snd tc); rewrite ?L; auto.
Qed.

Lemma fmap_fst_insert (cs : list (string * CurrencyService.rate_call)) i target c c' :
  cs !! i = Some (target, c) ->
  fst <$> <[i := (target, c')]> cs = fst <$> cs.
Proof.
  intros H. rewrite list_fmap_insert. cbn [fst].
  apply list_insert_id. rewrite list_lookup_fmap, H. reflexivity.
Qed.

Lemma lookup_fmap_fst (cs : list (string * CurrencyService.rate_call)) i tc :
  cs !! i = Some tc -> fst tc ∈ fst <$> cs.
Proof.
  intros H. apply list_elem_of_fmap. exists tc. split; [reflexivity|].
  eapply list_elem_of_lookup_2. exact H.
Qed.

Lemma call_of_cons tc cs code :
  call_of (tc :: cs) code
  = if String.eqb (fst tc) code then Some (snd tc) else call_of cs code.
Proof. unfold call_of. cbn [List.find]. destruct (String.eqb (fst tc) code); reflexivity. Qed.

Lemma call_of_absent cs code : code ∉ fst <$> cs -> call_of cs code = None.
Proof.
  induction cs as [|tc cs IH]; [reflexivity|]. rewrite fmap_cons, not_elem_of_cons.
  intros [D H]. rewrite call_of_cons.
  destruct (String.eqb_spec (fst tc) code) as [E|_]; [congruence|]. apply IH. exact H.
Qed.

Lemma call_of_lookup cs i target c :
  NoDup (fst <$> cs) -> cs !! i = Some (target, c) -> call_of cs target = Some c.
Proof.
  revert i. induction cs as [|x cs IH]; intros [|i] N H; try discriminate.
  - cbn in H. inversion H; subst. rewrite call_of_cons. cbn [fst snd].
    rewrite String.eqb_refl. reflexivity.
  - cbn in H. rewrite fmap_cons in N. apply NoDup_cons in N as [Hx N'].
    rewrite call_of_cons.
    destruct (String.eqb_spec (fst x) target) as [E|_].
    + exfalso. apply Hx. rewrite E. apply (lookup_fmap_fst cs i (target, c) H).
    + eapply IH; eauto.
Qed.

Lemma call_of_insert cs i target c c' code :
  NoDup (fst <$> cs) -> cs !! i = Some (target, c) ->
  call_of (<[i := (target, c')]> cs) code
  = if String.eqb target code then Some c' else call_of cs code.
Proof.
  revert i. induction cs as [|x cs IH]; intros [|i] N H; try discriminate.
  - cbn in H. inversion H; subst.
    change (<[0%nat := (target, c')]> ((target, c) :: cs)) with ((target, c') :: cs).
    rewrite !call_of_cons. cbn [fst snd].
    destruct (String.eqb target code); reflexivity.
  - cbn in H. rewrite fmap_cons in N. apply NoDup_cons in N as [Hx N'].
    change (<[S i := (target, c')]> (x :: cs)) with (x :: <[i := (target, c')]> cs).
    rewrite !call_of_cons. rewrite (IH i N' H).
    destruct (String.eqb_spec (fst x) code) as [E|_]; [|reflexivity].
    destruct (String.eqb_spec target code) as [E'|_]; [|reflexivity].
    exfalso. apply Hx. rewrite E, <- E'. apply (lookup_fmap_fst cs i (target, c) H).
Qed.

Lemma rate_awaits_left_at_insert cs i j x :
  rate_awaits_left_at (<[i := x]> cs) j
  = if decide (i = j /\ (i < length cs)%nat) then rate_awaits_left (snd x)
    else rate_awaits_left_at cs j.
Proof.
  unfold rate_awaits_left_at.
  destruct (decide (i = j)) as [->|Hne].
  - destruct (decide (j < length cs)%nat) as [Hlt|Hge].
    + rewrite list_lookup_insert_eq by exact Hlt. rewrite decide_True by auto. reflexivity.
    + rewrite decide_False by tauto.
      rewrite (lookup_ge_None_2 (<[j := x]> cs) j) by (rewrite length_insert; lia).
      rewrite (lookup_ge_None_2 cs j) by lia. reflexivity.
  - rewrite list_lookup_insert_ne by exact Hne. rewrite decide_False by tauto. reflexivity.
Qed.

Lemma all_resolved_left cs :
  forallb (fun tc => CurrencyService.is_resolved (snd tc)) cs = true ->
  forall j, rate_awaits_left_at cs j = 0%nat.
Proof.
  intros H j. unfold rate_awaits_left_at.
  destruct (cs !! j) as [tc|] eqn:L; [|reflexivity].
  rewrite forallb_forall in H.
  specialize (H tc (proj1 (list_elem_of_In _ _) (list_elem_of_lookup_2 _ _ _ L))).
  destruct (snd tc); try discriminate. reflexivity.
Qed.

Lemma rate_awaits_left_at_le cs j : (rate_awaits_left_at cs j <= 4)%nat.
Proof.
  unfold rate_awaits_left_at. destruct (cs !! j) as [tc|]; [|lia].
  destruct (snd tc); simpl; lia.
Qed.

(** What [result] holds after a call has taken a step. *)
Lemma settle_reported result1 cs i target c c' rates w w' this env :
  NoDup (fst <$> cs) -> cs !! i = Some (target, c) ->
  CurrencyService.resume_rate this env c w = (Returns c', w') ->
  (forall code, rates !! code = reported result1 cs code) ->
  forall code,
    CurrencyService.settle target c' rates !! code
    = reported result1 (<[i := (target, c')]> cs) code.
Proof.
  intros N Hc E R code. unfold reported. rewrite (call_of_insert _ _ _ _ c' code N Hc).
  specialize (R code). unfold reported in R.
  destruct (String.eqb_spec target code) as [<-|Hne].
  - rewrite (call_of_lookup _ _ _ _ N Hc) in R.
    unfold CurrencyService.settle.
    destruct c' as [r'|f t|f t|f t|f t r' src].
    + destruct (JS.truthy r') eqn:Ht; [apply lookup_insert_eq|].
      rewrite R. destruct c as [r| | | |]; try reflexivity.
      cbn [CurrencyService.resume_rate] in E. unfold ret in E. inversion E; subst.
      rewrite Ht. reflexivity.
    + rewrite R. destruct c as [r| | | |]; try reflexivity.
      cbn [CurrencyService.resume_rate] in E. unfold ret in E. inversion E.
    + rewrite R. destruct c as [r| | | |]; try reflexivity.
      cbn [CurrencyService.resume_rate] in E. unfold ret in E. inversion E.
    + rewrite R. destruct c as [r| | | |]; try reflexivity.
      cbn [CurrencyService.resume_rate] in E. unfold ret in E. inversion E.
    + rewrite R. destruct c as [r| | | |]; try reflexivity.
      cbn [CurrencyService.resume_rate] in E. unfold ret in E. inversion E.
  - unfold CurrencyService.settle.
    destruct c' as [r'| | | |]; try exact R.
    destruct (JS.truthy r'); [|exact R].
    rewrite lookup_insert_ne by exact Hne. exact R.
Qed.

(** One completion keeps the second fan-out on track. *)
Lemma complete_run this env s0 base result1 started unresolved c p w :
  precision_accepted this -> normal base ->
  pool_on_track this env s0 base result1 started unresolved p w ->
  exists p' w',
    CurrencyService.complete this env base c p w = (Returns p', w')
    /\ pool_on_track this env s0 base result1 started unresolved p' w'
    /\ (forall j, rate_awaits_left_at (CurrencyService.calls p') j
                  <= rate_awaits_left_at (CurrencyService.calls p) j)%nat
    /\ match c with
       | CurrencyService.CallDone i =>
           (rate_awaits_left_at (CurrencyService.calls p') i
            <= pred (rate_awaits_left_at (CurrencyService.calls p) i))%nat
       | CurrencyService.SaveDone _ => True
       end.
Proof.
  intros Hprec Nb Inv. pose proof Inv as (F & N & Hn & T & S & R & A0).
  unfold CurrencyService.complete.
  destruct (forallb _ (CurrencyService.calls p)) eqn:Hall.
  { exists p, w. split; [reflexivity|]. split; [exact Inv|].
    split; [intros; lia|].
    destruct c; [exact I|]. rewrite (all_resolved_left _ Hall). lia. }
  destruct c as [i|i].
  - destruct (CurrencyService.saves p !! i) as [[[t r]|]|] eqn:Hs;
      try (exists p, w; split; [reflexivity|]; split; [exact Inv|];
           split; [intros; lia|exact I]).
    destruct (S i t r Hs) as (Nt & Hout & Hst).
    destruct (saveExchangeRate_grows env base t r "api_batch" w Nb Nt) as (w' & E & G).
    run_M. rewrite E. do 2 eexists. split; [reflexivity|].
    split; [|split; [intros; cbn; lia|exact I]].
    unfold pool_on_track. cbn [CurrencyService.calls CurrencyService.saves CurrencyService.rates].
    split; [exact F|]. split; [exact N|]. split; [exact Hn|]. split.
    { rewrite Forall_forall in *. intros tc Hin.
      apply (call_on_track_apart this env s0 (db w) (db w') base t _ tc G); [|auto].
      intros Eq. apply Hout. rewrite <- Eq, <- F. apply list_elem_of_fmap.
      exists tc. split; [reflexivity|exact Hin]. }
    split.
    { intros j t' r' Hj.
      destruct (decide (i = j)) as [->|Hne].
      + apply list_lookup_insert_Some in Hj. destruct Hj as [(_ & Hj & _)|(Hj & _)];
          [discriminate|congruence].
      + rewrite list_lookup_insert_ne in Hj by exact Hne. eauto. }
    split; [exact R|].
    apply (rows_added_grows env base t _ _ s0 (db w) (db w') A0 G).
    intros r' src' (-> & ->). left. auto.
  - destruct (CurrencyService.calls p !! i) as [[target c]|] eqn:Hc.
    2:{ exists p, w. split; [reflexivity|]. split; [exact Inv|].
        split; [intros; lia|]. unfold rate_awaits_left_at. rewrite Hc. simpl. lia. }
    assert (Hin : (target, c) ∈ CurrencyService.calls p)
      by (eapply list_elem_of_lookup_2; exact Hc).
    assert (Hu : target ∈ unresolved)
      by (rewrite <- F; apply (lookup_fmap_fst _ _ _ Hc)).
    assert (Nt : normal target) by (rewrite Forall_forall in Hn; apply (Hn _ Hu)).
    assert (Tc : call_on_track this env s0 (db w) base (target, c))
      by (rewrite Forall_forall in T; apply (T _ Hin)).
    assert (Nc : NoDup (fst <$> CurrencyService.calls p)) by (rewrite F; exact N).
    destruct (resume_rate_on_track this env s0 base target c w Hprec Nb Nt Tc)
      as (c' & w' & E & Tc' & A & G).
    run_M. rewrite E. do 2 eexists. split; [reflexivity|].
    assert (Hlt : (i < length (CurrencyService.calls p))%nat)
      by (eapply lookup_lt_Some; exact Hc).
    split; [|split].
    + unfold pool_on_track.
      cbn [CurrencyService.calls CurrencyService.saves CurrencyService.rates].
      rewrite (fmap_fst_insert _ _ _ _ c' Hc).
      split; [exact F|]. split; [exact N|]. split; [exact Hn|].
      split.
      { rewrite Forall_forall. intros tc Htc.
        apply list_elem_of_lookup in Htc. destruct Htc as (j & Hj).
        destruct (decide (i = j)) as [->|Hne].
        - rewrite list_lookup_insert_eq in Hj by exact Hlt. inversion Hj; subst. exact Tc'.
        - rewrite list_lookup_insert_ne in Hj by exact Hne.
          apply (call_on_track_apart this env s0 (db w) (db w') base target _ tc G).
          + intros Eq. apply Hne.
            apply (NoDup_lookup (fst <$> CurrencyService.calls p) i j target Nc).
            * rewrite list_lookup_fmap, Hc. reflexivity.
            * rewrite list_lookup_fmap, Hj. cbn. rewrite Eq. reflexivity.
          + rewrite Forall_forall in T. apply T. eapply list_elem_of_lookup_2; exact Hj. }
      split; [exact S|].
      split; [apply (settle_reported result1 _ i target c c' _ w w' this env Nc Hc E R)|].
      apply (rows_added_grows env base target _ _ s0 (db w) (db w') A0 G).
      intros r' src' H. right. auto.
    + cbn [CurrencyService.calls]. intros j. rewrite rate_awaits_left_at_insert.
      case_decide as Hd; [|lia]. destruct Hd as [<- _].
      unfold rate_awaits_left_at. rewrite Hc. cbn [snd]. lia.
    + cbn [CurrencyService.calls]. rewrite rate_awaits_left_at_insert.
      rewrite decide_True by auto. unfold rate_awaits_left_at. rewrite Hc. exact A.
Qed.

Lemma complete_each_app this env base order1 order2 p w :
  CurrencyService.complete_each this env base (order1 ++ order2) p w
  = (let* p' := CurrencyService.complete_each this env base order1 p in
     CurrencyService.complete_each this env base order2 p') w.
Proof.
  revert p w. induction order1 as [|c rest IH]; intros p w.
  - unfold bind. reflexivity.
  - cbn [app CurrencyService.complete_each]. unfold bind.
    destruct (CurrencyService.complete this env base c p w) as [[p1|e] w1]; [|reflexivity].
    specialize (IH p1 w1). unfold bind in IH. exact IH.
Qed.

(** Completions in any order keep the second fan-out on track, let no
    call fall back, and move on the calls that the order names. *)
Lemma complete_each_run this env s0 base result1 started unresolved order : forall p w,
  precision_accepted this -> normal base ->
  pool_on_track this env s0 base result1 started unresolved p w ->
  exists p' w',
    CurrencyService.complete_each this env base order p w = (Returns p', w')
    /\ pool_on_track this env s0 base result1 started unresolved p' w'
    /\ (forall j, rate_awaits_left_at (CurrencyService.calls p') j
                  <= rate_awaits_left_at (CurrencyService.calls p) j)%nat
    /\ (forall i, In (CurrencyService.CallDone i) order ->
          rate_awaits_left_at (CurrencyService.calls p') i
          <= pred (rate_awaits_left_at (CurrencyService.calls p) i))%nat.
Proof.
  induction order as [|c rest IH]; intros p w Hprec Nb Inv.
  - exists p, w. split; [reflexivity|]. split; [exact Inv|].
    split; [intros; lia|intros i []].
  - cbn [CurrencyService.complete_each]. unfold bind at 1.
    destruct (complete_run this env s0 base result1 started unresolved c p w Hprec Nb Inv)
      as (p1 & w1 & E1 & Inv1 & A1 & D1).
    rewrite E1.
    destruct (IH p1 w1 Hprec Nb Inv1) as (p' & w' & E & Inv' & A & D).
    rewrite E. exists p', w'. split; [reflexivity|]. split; [exact Inv'|].
    split; [intros j; specialize (A j); specialize (A1 j); lia|].
    intros i [->|Hin].
    + specialize (A i). lia.
    + specialize (D i Hin). specialize (A1 i). lia.
Qed.

(** Four rounds over all the calls settle every one of them. *)
Lemma settle_calls_run this env s0 base result1 started unresolved p w :
  precision_accepted this -> normal base ->
  pool_on_track this env s0 base result1 started unresolved p w ->
  let round := List.map CurrencyService.CallDone (seq 0 (length unresolved)) in
  exists p' w',
    CurrencyService.complete_each this env base (round ++ round ++ round ++ round) p w
    = (Returns p', w')
    /\ pool_on_track this env s0 base result1 started unresolved p' w'
    /\ forall j, rate_awaits_left_at (CurrencyService.calls p') j = 0%nat.
Proof.
  intros Hprec Nb Inv round.
  rewrite complete_each_app. unfold bind at 1.
  destruct (complete_each_run this env s0 base result1 started unresolved round p w
              Hprec Nb Inv) as (p1 & w1 & E1 & Inv1 & A1 & D1).
  rewrite E1. rewrite complete_each_app. unfold bind at 1.
  destruct (complete_each_run this env s0 base result1 started unresolved round p1 w1
              Hprec Nb Inv1) as (p2 & w2 & E2 & Inv2 & A2 & D2).
  rewrite E2. rewrite complete_each_app. unfold bind at 1.
  destruct (complete_each_run this env s0 base result1 started unresolved round p2 w2
              Hprec Nb Inv2) as (p3 & w3 & E3 & Inv3 & A3 & D3).
  rewrite E3.
  destruct (complete_each_run this env s0 base result1 started unresolved round p3 w3
              Hprec Nb Inv3) as (p4 & w4 & E4 & Inv4 & A4 & D4).
  rewrite E4. exists p4, w4. split; [reflexivity|]. split; [exact Inv4|].
  intros j. destruct (Nat.lt_ge_cases j (length unresolved)) as [Hlt|Hge].
  - assert (Hin : In (CurrencyService.CallDone j) round)
      by (apply in_map, in_seq; lia).
    specialize (D1 j Hin). specialize (D2 j Hin). specialize (D3 j Hin).
    specialize (D4 j Hin).
    pose proof (rate_awaits_left_at_le (CurrencyService.calls p) j). lia.
  - unfold rate_awaits_left_at. rewrite lookup_ge_None_2; [reflexivity|].
    destruct Inv4 as (F4 & _).
    rewrite <- (length_fmap fst), F4. exact Hge.
Qed.

Lemma tier_chain_improper this env s from to :
  negb (JS.nonempty from) || negb (JS.nonempty to) = true ->
  tier_chain this env s from to = static_fallback this from to.
Proof. intros H. unfold tier_chain. rewrite H. reflexivity. Qed.

(** A call run to its first await is on track. *)
Lemma launch_rate_run this env base target w :
  precision_accepted this -> normal base -> normal target ->
  exists c,
    CurrencyService.launch_rate this base target w = (Returns c, w)
    /\ call_on_track this env (db w) (db w) base (target, c).
Proof.
  intros Hprec Nb Nt. unfold CurrencyService.launch_rate. rewrite Nb, Nt.
  destruct (negb (JS.nonempty base) || negb (JS.nonempty target)) eqn:Hcodes.
  { unfold CurrencyService.rate_handler. run_M.
    destruct (static_fallback_returns this base target Hprec) as (v & Hv).
    pose proof Hv as Hv'. unfold static_fallback in Hv'.
    destruct (CurrencyService.resolveFallbackRate this base target); [|discriminate].
    inversion Hv'; subst v. eexists. split; [reflexivity|].
    unfold call_on_track. cbn [fst snd].
    rewrite (tier_chain_improper _ _ _ _ _ Hcodes). exact Hv. }
  apply orb_false_iff in Hcodes as [Hb Ht].
  apply negb_false_iff in Hb, Ht.
  destruct (String.eqb base target) eqn:D.
  { eexists. split; [reflexivity|]. unfold call_on_track. cbn [fst snd].
    unfold tier_chain. rewrite Hb, Ht, D. reflexivity. }
  eexists. split; [reflexivity|]. unfold call_on_track. cbn [fst snd].
  repeat split; auto.
Qed.

Lemma reported_cons result target c cs code :
  target ∉ fst <$> cs ->
  reported (CurrencyService.settle target c result) cs code
  = reported result ((target, c) :: cs) code.
Proof.
  intros Hout. unfold reported. rewrite call_of_cons. cbn [fst snd].
  destruct (String.eqb_spec target code) as [<-|Hne].
  - rewrite (call_of_absent cs target Hout). unfold CurrencyService.settle.
    destruct c as [r| | | |]; try reflexivity.
    destruct (JS.truthy r); [apply lookup_insert_eq|reflexivity].
  - assert (CurrencyService.settle target c result !! code = result !! code) as ->.
    { unfold CurrencyService.settle. destruct c as [r| | | |]; try reflexivity.
      destruct (JS.truthy r); [apply lookup_insert_ne; exact Hne|reflexivity]. }
    reflexivity.
Qed.

(** The calls of the second fan-out, run to their first awaits. *)
Lemma launch_calls_run this env base unresolved : forall result w,
  precision_accepted this -> normal base -> Forall normal unresolved ->
  NoDup unresolved ->
  exists cs rates,
    CurrencyService.launch_calls this base unresolved result w = (Returns (cs, rates), w)
    /\ fst <$> cs = unresolved
    /\ Forall (call_on_track this env (db w) (db w) base) cs
    /\ forall code, rates !! code = reported result cs code.
Proof.
  induction unresolved as [|target rest IH]; intros result w Hprec Nb Hn N.
  - exists [], result. repeat split; auto.
  - apply Forall_cons in Hn as [Nt Hn]. apply NoDup_cons in N as [Hout N].
    cbn [CurrencyService.launch_calls]. unfold bind at 1.
    destruct (launch_rate_run this env base target w Hprec Nb Nt) as (c & E & T).
    rewrite E.
    destruct (IH (CurrencyService.settle target c result) w Hprec Nb Hn N)
      as (cs & rates & E' & F & T' & R).
    unfold bind at 1. rewrite E'. unfold ret. cbn [fst snd].
    exists ((target, c) :: cs), rates. split; [reflexivity|].
    split; [rewrite fmap_cons, F; reflexivity|].
    split; [constructor; assumption|].
    intros code. rewrite R. apply reported_cons. rewrite F. exact Hout.
Qed.

(** The second fan-out gives every target that was left the value of
    its tier chain, whatever the order of the completions, and adds
    rows of its own only. *)
Lemma second_fan_out_run this env completions base unresolved started result1 w :
  precision_accepted this -> normal base -> Forall normal unresolved ->
  NoDup unresolved ->
  (forall t r, In (t, r) started -> normal t /\ t ∉ unresolved) ->
  (forall code, code ∈ unresolved -> result1 !! code = None) ->
  exists rates w',
    CurrencyService.second_fan_out this env completions base unresolved started result1 w
    = (Returns rates, w')
    /\ (forall code,
          rates !! code
          = if bool_decide (code ∈ unresolved)
            then resolved_rate this env (db w) base code
            else result1 !! code)
    /\ rows_added env base (pool_row this env (db w) base started unresolved) (db w) (db w').
Proof.
  intros Hprec Nb Hn N Hs Hr.
  unfold CurrencyService.second_fan_out. unfold bind at 1.
  destruct (launch_calls_run this env base unresolved result1 w Hprec Nb Hn N)
    as (cs & rates0 & E0 & F0 & T0 & R0).
  rewrite E0. cbn [fst snd].
  set (p0 := {| CurrencyService.saves := List.map Some started;
                CurrencyService.calls := cs; CurrencyService.rates := rates0 |}).
  assert (Inv0 : pool_on_track this env (db w) base result1 started unresolved p0 w).
  { unfold pool_on_track, p0.
    cbn [CurrencyService.calls CurrencyService.saves CurrencyService.rates].
    split; [exact F0|]. split; [exact N|]. split; [exact Hn|].
    split; [exact T0|]. split; [|split; [exact R0|apply rows_added_refl]].
    intros i t r Hi.
    assert (Hin : In (Some (t, r)) (List.map Some started)).
    { apply list_elem_of_In. eapply list_elem_of_lookup_2. exact Hi. }
    apply in_map_iff in Hin. destruct Hin as (x & Hx & Hin). inversion Hx; subst x.
    destruct (Hs t r Hin). auto. }
  unfold bind at 1.
  destruct (complete_each_run this env (db w) base result1 started unresolved completions
              p0 w Hprec Nb Inv0) as (p1 & w1 & E1 & Inv1 & _).
  rewrite E1. unfold bind at 1.
  destruct (settle_calls_run this env (db w) base result1 started unresolved p1 w1
              Hprec Nb Inv1) as (p2 & w2 & E2 & Inv2 & Z2).
  rewrite E2. unfold ret. exists (CurrencyService.rates p2), w2.
  split; [reflexivity|].
  destruct Inv2 as (Hfst & _ & _ & T2 & _ & R2 & A2).
  assert (N2 : NoDup (fst <$> CurrencyService.calls p2)) by (rewrite Hfst; exact N).
  split; [|exact A2].
  intros code. rewrite R2. unfold reported.
  destruct (bool_decide_reflect (code ∈ unresolved)) as [Hin|Hout].
  - rewrite <- Hfst in Hin. apply list_elem_of_fmap in Hin.
    destruct Hin as ([t c] & -> & Hin). cbn [fst].
    apply list_elem_of_lookup in Hin. destruct Hin as (i & Hi).
    rewrite (call_of_lookup _ _ _ _ N2 Hi).
    specialize (Z2 i). unfold rate_awaits_left_at in Z2. rewrite Hi in Z2. cbn [snd] in Z2.
    rewrite Forall_forall in T2.
    pose proof (T2 _ (list_elem_of_lookup_2 _ _ _ Hi)) as Tc.
    unfold call_on_track in Tc. cbn [fst snd] in Tc.
    destruct c as [r| | | |]; try (simpl in Z2; discriminate).
    unfold resolved_rate. rewrite Tc.
    destruct (JS.truthy r); [reflexivity|].
    apply Hr. rewrite <- Hfst. apply (lookup_fmap_fst _ _ _ Hi).
  - rewrite call_of_absent; [reflexivity|]. rewrite Hfst. exact Hout.
Qed.

Lemma gather_run env base target g w :
  normal base -> normal target ->
  exists g' w',
    CurrencyService.gather env base target g w = (Returns g', w')
    /\ db w' = db w
    /\ match fresh_tier env (db w) base target with
       | Some r =>
           CurrencyService.result g' = <[target := r]> (CurrencyService.result g)
           /\ CurrencyService.missingTargets g' = CurrencyService.missingTargets g
       | None =>
           CurrencyService.result g' = CurrencyService.result g
           /\ CurrencyService.missingTargets g'
              = (CurrencyService.missingTargets g ++ [target])%list
       end.
Proof.
  intros Nb Nt. unfold CurrencyService.gather. run_M.
  destruct (getCachedExchangeRate_run env base target w) as (r & w' & E & _ & D & _).
  rewrite E.
  pose proof (getCachedExchangeRate_fresh _ _ _ _ _ _ E) as F. rewrite Nb, Nt in F.
  rewrite <- F.
  destruct (if_truthy r); do 2 eexists; (split; [reflexivity|]); split; auto.
Qed.

Lemma lookup_at_run env s0 base targets i pending g w :
  normal base -> Forall normal targets -> NoDup targets ->
  db w = s0 ->
  gathered_on_track env s0 base targets pending g ->
  exists pending' g' w',
    CurrencyService.lookup_at env base i (pending, g) w = (Returns (pending', g'), w')
    /\ db w' = s0
    /\ gathered_on_track env s0 base targets pending' g'
    /\ (forall j, lookups_left pending' j <= lookups_left pending j)%nat
    /\ lookups_left pending' i = 0%nat.
Proof.
  intros Nb Hn N Hdb Inv. pose proof Inv as (L & Nm & Hout & Hin).
  unfold CurrencyService.lookup_at. cbn [fst snd].
  destruct (pending !! i) as [[t|]|] eqn:Hp.
  2,3: exists pending, g, w; split; [reflexivity|]; split; [exact Hdb|];
       split; [exact Inv|]; split; [intros; lia|];
       unfold lookups_left; rewrite Hp; reflexivity.
  assert (Hlt : (i < length targets)%nat) by (rewrite <- L; eapply lookup_lt_Some; exact Hp).
  destruct (lookup_lt_is_Some_2 targets i Hlt) as (t0 & Ht0).
  pose proof (Hin i t0 Ht0) as Hi. rewrite Hp in Hi. destruct Hi as (-> & Hres & Hmis).
  assert (Nt : normal t0).
  { rewrite Forall_forall in Hn. apply Hn. eapply list_elem_of_lookup_2. exact Ht0. }
  destruct (gather_run env base t0 g w Nb Nt) as (g' & w' & E & D & Hg).
  run_M. rewrite E. exists (<[i := None]> pending), g', w'.
  split; [reflexivity|]. split; [congruence|].
  rewrite Hdb in Hg.
  assert (Hothers : forall code, code <> t0 ->
            CurrencyService.result g' !! code = CurrencyService.result g !! code
            /\ (code ∈ CurrencyService.missingTargets g'
                <-> code ∈ CurrencyService.missingTargets g)).
  { intros code Hne. destruct (fresh_tier env s0 base t0) as [r|]; destruct Hg as (-> & ->).
    - rewrite lookup_insert_ne by congruence. tauto.
    - split; [reflexivity|]. rewrite elem_of_app, list_elem_of_singleton. tauto. }
  split; [|split].
  - unfold gathered_on_track. rewrite length_insert. split; [exact L|].
    split.
    { destruct (fresh_tier env s0 base t0) as [r|]; destruct Hg as (_ & ->); [exact Nm|].
      apply NoDup_app. split; [exact Nm|]. split; [|apply NoDup_singleton].
      intros x Hx Hx'. apply list_elem_of_singleton in Hx'. subst x. contradiction. }
    split.
    { intros code Hc. destruct (Hout code Hc) as (H1 & H2).
      assert (code <> t0).
      { intros ->. apply Hc. eapply list_elem_of_lookup_2. exact Ht0. }
      destruct (Hothers code H) as (H3 & H4). rewrite H3, H4. auto. }
    intros j t Hj.
    destruct (decide (i = j)) as [->|Hne].
    + rewrite list_lookup_insert_eq by (rewrite L; exact Hlt).
      assert (t = t0) by congruence. subst t.
      destruct (fresh_tier env s0 base t0) as [r|]; destruct Hg as (-> & ->).
      * rewrite lookup_insert_eq. split; [reflexivity|]. split; [contradiction|discriminate].
      * split; [exact Hres|]. rewrite elem_of_app, list_elem_of_singleton. tauto.
    + rewrite list_lookup_insert_ne by exact Hne.
      assert (t <> t0).
      { intros ->. apply Hne. apply (NoDup_lookup targets i j t0 N Ht0 Hj). }
      destruct (Hothers t H) as (H3 & H4). specialize (Hin j t Hj).
      destruct (pending !! j) as [[t'|]|]; rewrite H3, H4; exact Hin.
  - intros j. unfold lookups_left.
    destruct (decide (i = j)) as [->|Hne].
    + rewrite list_lookup_insert_eq by (rewrite L; exact Hlt). lia.
    + rewrite list_lookup_insert_ne by exact Hne. lia.
  - unfold lookups_left. rewrite list_lookup_insert_eq by (rewrite L; exact Hlt). reflexivity.
Qed.

Lemma lookup_each_run env s0 base targets order : forall pending g w,
  normal base -> Forall normal targets -> NoDup targets ->
  db w = s0 ->
  gathered_on_track env s0 base targets pending g ->
  exists pending' g' w',
    CurrencyService.lookup_each env base order (pending, g) w = (Returns (pending', g'), w')
    /\ db w' = s0
    /\ gathered_on_track env s0 base targets pending' g'
    /\ (forall j, lookups_left pending' j <= lookups_left pending j)%nat
    /\ forall j, In j order -> lookups_left pending' j = 0%nat.
Proof.
  induction order as [|i rest IH]; intros pending g w Nb Hn N Hdb Inv.
  - exists pending, g, w. split; [reflexivity|]. split; [exact Hdb|]. split; [exact Inv|].
    split; [intros; lia|intros j []].
  - cbn [CurrencyService.lookup_each]. unfold bind at 1.
    destruct (lookup_at_run env s0 base targets i pending g w Nb Hn N Hdb Inv)
      as (p1 & g1 & w1 & E1 & D1 & Inv1 & A1 & Z1).
    rewrite E1.
    destruct (IH p1 g1 w1 Nb Hn N D1 Inv1) as (p2 & g2 & w2 & E2 & D2 & Inv2 & A2 & Z2).
    rewrite E2. exists p2, g2, w2. split; [reflexivity|]. split; [exact D2|].
    split; [exact Inv2|].
    split; [intros j; specialize (A1 j); specialize (A2 j); lia|].
    intros j [<-|Hj]; [specialize (A2 i); lia|auto].
Qed.

(** The first fan-out leaves the store as it is, puts the fresh rates in
    [result] and the targets that have none in [missingTargets],
    whatever the order of the lookups. *)
Lemma first_fan_out_run env lookups base targets w :
  normal base -> Forall normal targets -> NoDup targets ->
  exists g w',
    CurrencyService.first_fan_out env lookups base targets w = (Returns g, w')
    /\ db w' = db w
    /\ NoDup (CurrencyService.missingTargets g)
    /\ (forall code,
          CurrencyService.result g !! code
          = if bool_decide (code ∈ targets) then fresh_tier env (db w) base code else None)
    /\ forall code,
         code ∈ CurrencyService.missingTargets g
         <-> code ∈ targets /\ fresh_tier env (db w) base code = None.
Proof.
  intros Nb Hn N. unfold CurrencyService.first_fan_out.
  set (g0 := {| CurrencyService.result := ∅; CurrencyService.missingTargets := [] |}).
  assert (Inv0 : gathered_on_track env (db w) base targets (List.map Some targets) g0).
  { unfold gathered_on_track, g0.
    cbn [CurrencyService.result CurrencyService.missingTargets].
    split; [apply length_map|]. split; [apply NoDup_nil_2|].
    split; [intros code _; split; [apply lookup_empty|apply not_elem_of_nil]|].
    intros i t Hi.
    change (List.map Some targets) with (Some <$> targets).
    rewrite list_lookup_fmap, Hi. cbn.
    split; [reflexivity|]. split; [apply lookup_empty|apply not_elem_of_nil]. }
  unfold bind at 1.
  destruct (lookup_each_run env (db w) base targets lookups _ g0 w Nb Hn N eq_refl Inv0)
    as (p1 & g1 & w1 & E1 & D1 & Inv1 & _).
  rewrite E1. unfold bind at 1.
  destruct (lookup_each_run env (db w) base targets (seq 0 (length targets)) p1 g1 w1
              Nb Hn N D1 Inv1)
    as (p2 & g2 & w2 & E2 & D2 & Inv2 & _ & Z2).
  rewrite E2. unfold ret. exists g2, w2. split; [reflexivity|]. split; [exact D2|].
  destruct Inv2 as (L & Nm & Hout & Hin).
  assert (Hdone : forall i t, targets !! i = Some t ->
            CurrencyService.result g2 !! t = fresh_tier env (db w) base t
            /\ (t ∈ CurrencyService.missingTargets g2 <-> fresh_tier env (db w) base t = None)).
  { intros i t Hi. specialize (Hin i t Hi).
    assert (Hz : lookups_left p2 i = 0%nat).
    { apply Z2, in_seq. pose proof (lookup_lt_Some _ _ _ Hi). lia. }
    unfold lookups_left in Hz.
    destruct (p2 !! i) as [[t'|]|]; [discriminate|exact Hin|exact Hin]. }
  split; [exact Nm|]. split.
  - intros code. destruct (bool_decide_reflect (code ∈ targets)) as [Hc|Hc].
    + apply list_elem_of_lookup in Hc. destruct Hc as (i & Hi). apply (Hdone i code Hi).
    + apply (Hout code Hc).
  - intros code. split.
    + intros Hm. destruct (decide (code ∈ targets)) as [Hc|Hc].
      * split; [exact Hc|]. apply list_elem_of_lookup in Hc. destruct Hc as (i & Hi).
        apply (Hdone i code Hi). exact Hm.
      * destruct (Hout code Hc) as (_ & H). contradiction.
    + intros (Hc & F). apply list_elem_of_lookup in Hc. destruct Hc as (i & Hi).
      apply (Hdone i code Hi). exact F.
Qed.

(** The pass over the table. *)
Lemma from_table_run (table : gmap string JS.value) missing :
  forall acc : gmap string JS.num * list (string * JS.num),
  let out :=
    fold_left
      (fun acc target =>
         match table !! target with
         | Some (JS.VNum rate) =>
             (<[target := rate]> (fst acc), (snd acc ++ [(target, rate)])%list)
         | _ => acc
         end)
      missing acc in
  (forall code,
     fst out !! code
     = match (if bool_decide (code ∈ missing) then table_rate (Some table) code else None) with
       | Some r => Some r
       | None => fst acc !! code
       end)
  /\ forall t r, In (t, r) (snd out) ->
       In (t, r) (snd acc) \/ (t ∈ missing /\ table_rate (Some table) t = Some r).
Proof.
  induction missing as [|target rest IH]; intros acc; cbn [fold_left].
  - split; [intros code; reflexivity|auto].
  - set (acc' := match table !! target with
                 | Some (JS.VNum rate) =>
                     (<[target := rate]> (fst acc), (snd acc ++ [(target, rate)])%list)
                 | _ => acc
                 end).
    destruct (IH acc') as (H1 & H2). split.
    + intros code. rewrite H1.
      destruct (bool_decide_reflect (code ∈ rest)) as [Hr|Hr].
      * rewrite bool_decide_eq_true_2 by (apply elem_of_cons; auto).
        destruct (table_rate (Some table) code) as [r|] eqn:Tr; [reflexivity|].
        unfold acc'. unfold table_rate in Tr.
        destruct (decide (target = code)) as [->|Hne].
        -- destruct (table !! code) as [[| | |n|]|]; try reflexivity. discriminate.
        -- destruct (table !! target) as [[| | |n|]|]; try reflexivity.
           cbn [fst]. apply lookup_insert_ne. exact Hne.
      * destruct (decide (target = code)) as [->|Hne].
        -- rewrite bool_decide_eq_true_2 by (apply elem_of_cons; auto).
           unfold acc', table_rate.
           destruct (table !! code) as [[| | |n|]|]; try reflexivity.
           cbn [fst]. apply lookup_insert_eq.
        -- rewrite bool_decide_eq_false_2
             by (rewrite elem_of_cons; intros [?|?]; [congruence|contradiction]).
           unfold acc'.
           destruct (table !! target) as [[| | |n|]|]; try reflexivity.
           cbn [fst]. apply lookup_insert_ne. exact Hne.
    + intros t r Hin. destruct (H2 t r Hin) as [Hacc|(Hm & Tr)].
      * unfold acc' in Hacc.
        destruct (table !! target) as [[| | |n|]|] eqn:Tt; auto.
        cbn [snd] in Hacc. apply in_app_or in Hacc. destruct Hacc as [Hacc|[Hx|[]]]; auto.
        inversion Hx; subst. right. split; [apply elem_of_cons; auto|].
        unfold table_rate. rewrite Tt. reflexivity.
      * right. split; [apply elem_of_cons; auto|exact Tr].
Qed.

(** The distinct targets are distinct and in normal form. *)
Lemma distinctTargets_normal targets :
  Forall normal (CurrencyService.distinctTargets targets)
  /\ NoDup (CurrencyService.distinctTargets targets).
Proof.
  unfold CurrencyService.distinctTargets.
  destruct (Set_values_spec
              (List.map (fun code => JS.toUpperCase (JS.trim code))
                 (List.filter JS.nonempty targets)) []) as (N & M).
  split; [|apply NoDup_ListNoDup; exact N].
  apply Forall_forall. intros x Hx. apply list_elem_of_In, M in Hx. destruct Hx as (Hx & _).
  apply in_map_iff in Hx. destruct Hx as (code & <- & _).
  apply normaliseCurrencyCode_idem.
Qed.

(** What [getCurrencyRates] returns and what it persists, whatever the
    orders in which the awaited calls complete. *)
Lemma getCurrencyRates_run this settings env axios_get lookups completions
    fromCurrency targetCurrencies rateTableCache w :
  precision_accepted this ->
  let base := CurrencyService.normaliseCurrencyCode fromCurrency in
  let table :=
    fst (CurrencyService.fetchRateTable settings env axios_get base rateTableCache) in
  let targets := CurrencyService.distinctTargets targetCurrencies in
  exists result cache w',
    CurrencyService.getCurrencyRates this settings env axios_get lookups completions
      fromCurrency targetCurrencies rateTableCache w
    = (Returns (result, cache), w')
    /\ (forall code : string,
          result !! code
          = if bool_decide (code ∈ targets)
            then batch_rate this env table (db w) base code
            else None)
    /\ rows_added env base
         (fun target r src =>
            target ∈ targets
            /\ fresh_tier env (db w) base target = None
            /\ batch_rate this env table (db w) base target = Some r
            /\ (src = "api_batch" \/ src = "api" \/ src = "fallback")%string)
         (db w) (db w').
Proof.
  intros Hprec base table targets.
  assert (Nb : normal base) by apply normaliseCurrencyCode_idem.
  unfold CurrencyService.getCurrencyRates. fold base.
  destruct targetCurrencies as [|first others].
  { exists ∅, rateTableCache, w. split; [reflexivity|].
    split; [|apply rows_added_refl]. intros code.
    rewrite lookup_empty. destruct (bool_decide _) eqn:B; [|reflexivity].
    apply bool_decide_eq_true in B. inversion B. }
  fold targets.
  destruct (distinctTargets_normal (first :: others)) as (Hn & N). fold targets in Hn, N.
  destruct (first_fan_out_run env lookups base targets w Nb Hn N)
    as (g & w1 & E1 & D1 & Nm & R1 & M1).
  unfold bind at 1. rewrite E1.
  destruct (CurrencyService.missingTargets g) as [|m ms] eqn:Hmis.
  { unfold ret. exists (CurrencyService.result g), rateTableCache, w1.
    split; [reflexivity|].
    split; [|rewrite D1; apply rows_added_refl].
    intros code. rewrite R1.
    destruct (bool_decide_reflect (code ∈ targets)) as [Hc|Hc]; [|reflexivity].
    unfold batch_rate.
    destruct (fresh_tier env (db w) base code) eqn:F; [reflexivity|].
    exfalso. assert (code ∈ []) as Hx by (apply M1; auto). inversion Hx. }
  rewrite <- Hmis in *. clear m ms Hmis.
  fold table.
  destruct (CurrencyService.fetchRateTable settings env axios_get base rateTableCache)
    as [table0 cache] eqn:Ef.
  cbn [fst] in table. subst table.
  set (missing := CurrencyService.missingTargets g) in *.
  assert (Hfrom : exists result1 started,
            match table0 with
            | Some table => CurrencyService.from_table table missing (CurrencyService.result g)
            | None => (CurrencyService.result g, [])
            end = (result1, started)
            /\ (forall code,
                  result1 !! code
                  = match (if bool_decide (code ∈ missing)
                           then table_rate table0 code else None) with
                    | Some r => Some r
                    | None => CurrencyService.result g !! code
                    end)
            /\ forall t r, In (t, r) started ->
                 t ∈ missing /\ table_rate table0 t = Some r).
  { destruct table0 as [table|].
    - unfold CurrencyService.from_table.
      destruct (from_table_run table missing (CurrencyService.result g, [])) as (H1 & H2).
      destruct (fold_left _ missing _) as [result1 started].
      exists result1, started. split; [reflexivity|]. split; [exact H1|].
      intros t r Hin. destruct (H2 t r Hin) as [[]|H]; exact H.
    - exists (CurrencyService.result g), []. split; [reflexivity|].
      split; [|intros t r []].
      intros code. destruct (bool_decide _); reflexivity. }
  destruct Hfrom as (result1 & started & -> & Hr1 & Hst).
  set (unresolved :=
         List.filter
           (fun code => match result1 !! code with None => true | Some _ => false end)
           missing).
  assert (Hun : forall code, code ∈ unresolved <-> code ∈ missing /\ result1 !! code = None).
  { intros code. unfold unresolved. rewrite !list_elem_of_In, filter_In.
    destruct (result1 !! code); split; intros (H1 & H2); split; auto; discriminate. }
  assert (Hmn : forall code, code ∈ missing -> normal code).
  { intros code Hc. apply M1 in Hc. destruct Hc as (Hc & _).
    rewrite Forall_forall in Hn. apply Hn. exact Hc. }
  assert (Hleft : forall code, code ∈ unresolved ->
            code ∈ targets /\ fresh_tier env (db w) base code = None
            /\ table_rate table0 code = None).
  { intros code Hu. apply Hun in Hu. destruct Hu as (Hm & Hnone).
    pose proof (proj1 (M1 code) Hm) as (Hc & F). split; [exact Hc|]. split; [exact F|].
    rewrite Hr1, bool_decide_eq_true_2 in Hnone by exact Hm.
    destruct (table_rate table0 code); [discriminate|reflexivity]. }
  destruct (second_fan_out_run this env completions base unresolved started result1 w1
              Hprec Nb) as (rates & w2 & E2 & R2 & A2).
  { apply Forall_forall. intros code Hc. apply Hmn, Hun. exact Hc. }
  { apply NoDup_ListNoDup. unfold unresolved. apply List.NoDup_filter.
    apply NoDup_ListNoDup. exact Nm. }
  { intros t r Hin. destruct (Hst t r Hin) as (Hm & Tr). split; [apply Hmn; exact Hm|].
    intros Hu. apply Hun in Hu. destruct Hu as (_ & Hnone).
    rewrite Hr1, bool_decide_eq_true_2, Tr in Hnone by exact Hm. discriminate. }
  { intros code Hc. apply Hun. exact Hc. }
  unfold bind at 1. rewrite E2. unfold ret. exists rates, cache, w2.
  split; [reflexivity|]. split.
  - intros code. rewrite R2, D1.
    destruct (bool_decide_reflect (code ∈ unresolved)) as [Hu|Hu].
    + destruct (Hleft code Hu) as (Hc & F & Tr).
      rewrite bool_decide_eq_true_2 by exact Hc.
      unfold batch_rate. rewrite F, Tr. reflexivity.
    + rewrite Hr1, R1.
      destruct (bool_decide_reflect (code ∈ missing)) as [Hm|Hm].
      * pose proof (proj1 (M1 code) Hm) as (Hc & F).
        rewrite bool_decide_eq_true_2 by exact Hc.
        unfold batch_rate. rewrite F.
        destruct (table_rate table0 code) as [r|] eqn:Tr; [reflexivity|].
        exfalso. apply Hu, Hun. split; [exact Hm|].
        rewrite Hr1, bool_decide_eq_true_2, Tr, R1, bool_decide_eq_true_2, F by assumption.
        reflexivity.
      * destruct (bool_decide_reflect (code ∈ targets)) as [Hc|Hc]; [|reflexivity].
        unfold batch_rate.
        destruct (fresh_tier env (db w) base code) eqn:F; [reflexivity|].
        exfalso. apply Hm, M1. auto.
  - rewrite D1 in A2. destruct A2 as (P & rows & Er & Fr).
    split; [exact P|]. exists rows. split; [exact Er|].
    eapply Forall_impl; [exact Fr|].
    intros row (target & r & src & -> & [(-> & Hin)|(Hu & Hsrc & Hchain & Htr)]);
      exists target, r; eexists; (split; [reflexivity|]).
    + destruct (Hst target r Hin) as (Hm & Tr).
      pose proof (proj1 (M1 target) Hm) as (Hc & F).
      split; [exact Hc|]. split; [exact F|].
      split; [unfold batch_rate; rewrite F, Tr; reflexivity|auto].
    + destruct (Hleft target Hu) as (Hc & F & Tr).
      split; [exact Hc|]. split; [exact F|].
      split; [|destruct Hsrc; auto].
      unfold batch_rate, resolved_rate. rewrite F, Tr, Hchain, Htr. reflexivity.
Qed.

(** X27. With an inverse precision that [toFixed] accepts,
    [getCurrencyRates] returns, whatever the orders in which its awaited
    calls complete, an object that holds for each distinct target (the
    codes given, trimmed and in upper case) its fresh persisted rate, or
    else the number that the table of the provider has for it (be it
    zero), or else the value of the tier chain of [getCurrencyRate] when
    that counts as true, and that holds nothing else. *)
Theorem getCurrencyRates_result (this : CurrencyService.t)
    (settings : CurrencyService.request_settings) (env : environment)
    (axios_get : string -> option (gmap string JS.value))
    (lookups : list nat) (completions : list CurrencyService.completion)
    (fromCurrency : string) (targetCurrencies : list string)
    (rateTableCache : gmap string CurrencyService.cached_table) (w : world) :
  precision_accepted this ->
  let base := CurrencyService.normaliseCurrencyCode fromCurrency in
  let table :=
    fst (CurrencyService.fetchRateTable settings env axios_get base rateTableCache) in
  exists (result : gmap string JS.num) (cache : gmap string CurrencyService.cached_table)
         (w' : world),
    CurrencyService.getCurrencyRates this settings env axios_get lookups completions
      fromCurrency targetCurrencies rateTableCache w
    = (Returns (result, cache), w')
    /\ forall code : string,
         result !! code
         = if bool_decide (code ∈ CurrencyService.distinctTargets targetCurrencies)
           then batch_rate this env table (db w) base code
           else None.
Proof.
  intros Hprec base table.
  destruct (getCurrencyRates_run this settings env axios_get lookups completions
              fromCurrency targetCurrencies rateTableCache w Hprec)
    as (result & cache & w' & E & R & _).
  exists result, cache, w'. split; [exact E|exact R].
Qed.

Lemma getCurrencyRates_result_witness :
  precision_accepted CurrencyService.service
  /\ let base := CurrencyService.normaliseCurrencyCode "zar" in
     let table :=
       fst (CurrencyService.fetchRateTable standard_settings live (table_request live)
              base ∅) in
     exists result cache w',
       CurrencyService.getCurrencyRates CurrencyService.service standard_settings live
         (table_request live) lookup_order completion_order "zar" asked ∅ blank
       = (Returns (result, cache), w')
       /\ forall code : string,
            result !! code
            = if bool_decide (code ∈ CurrencyService.distinctTargets asked)
              then batch_rate CurrencyService.service live table (db blank) base code
              else None.
Proof.
  assert (H : precision_accepted CurrencyService.service)
    by (exists 6%nat; reflexivity).
  split; [exact H|].
  exact (getCurrencyRates_result CurrencyService.service standard_settings live
           (table_request live) lookup_order completion_order "zar" asked ∅ blank H).
Defined.

(** X28. Under the same condition and in every order,
    [getCurrencyRates] leaves the price tables as they are and adds to
    the log of rates only rows of the base currency and of this moment,
    with source 'api_batch', 'api' or 'fallback', each for a target that
    had no fresh rate and holding the rate that the object returned has
    for that target. *)
Theorem getCurrencyRates_persists (this : CurrencyService.t)
    (settings : CurrencyService.request_settings) (env : environment)
    (axios_get : string -> option (gmap string JS.value))
    (lookups : list nat) (completions : list CurrencyService.completion)
    (fromCurrency : string) (targetCurrencies : list string)
    (rateTableCache : gmap string CurrencyService.cached_table) (w : world) :
  precision_accepted this ->
  let base := CurrencyService.normaliseCurrencyCode fromCurrency in
  exists (result : gmap string JS.num) (cache : gmap string CurrencyService.cached_table)
         (w' : world) (rows : list ExchangeRate),
    CurrencyService.getCurrencyRates this settings env axios_get lookups completions
      fromCurrency targetCurrencies rateTableCache w
    = (Returns (result, cache), w')
    /\ same_prices (db w) (db w')
    /\ exchange_rates (db w') = (exchange_rates (db w) ++ rows)%list
    /\ forall row, In row rows ->
         from_currency row = base
         /\ recorded_at row = now env
         /\ (source row = "api_batch" \/ source row = "api" \/ source row = "fallback")%string
         /\ result !! to_currency row = Some (rate row)
         /\ fresh_tier env (db w) base (to_currency row) = None.
Proof.
  intros Hprec base.
  destruct (getCurrencyRates_run this settings env axios_get lookups completions
              fromCurrency targetCurrencies rateTableCache w Hprec)
    as (result & cache & w' & E & R & P & rows & Er & Fr).
  exists result, cache, w', rows. split; [exact E|]. split; [exact P|].
  split; [exact Er|].
  intros row Hin. rewrite Forall_forall in Fr.
  destruct (Fr row (proj2 (list_elem_of_In _ _) Hin))
    as (target & r & src & -> & Hc & F & B & Hsrc).
  cbn [rate_row from_currency recorded_at source to_currency rate].
  split; [reflexivity|]. split; [reflexivity|]. split; [exact Hsrc|].
  split; [|exact F].
  rewrite R, bool_decide_eq_true_2 by exact Hc. exact B.
Qed.

Lemma getCurrencyRates_persists_witness :
  precision_accepted CurrencyService.service
  /\ let base := CurrencyService.normaliseCurrencyCode "zar" in
     exists result cache w' rows,
       CurrencyService.getCurrencyRates CurrencyService.service standard_settings live
         (table_request live) lookup_order completion_order "zar" asked ∅ blank
       = (Returns (result, cache), w')
       /\ same_prices (db blank) (db w')
       /\ exchange_rates (db w') = (exchange_rates (db blank) ++ rows)%list
       /\ forall row, In row rows ->
            from_currency row = base
            /\ recorded_at row = now live
            /\ (source row = "api_batch" \/ source row = "api"
                \/ source row = "fallback")%string
            /\ result !! to_currency row = Some (rate row)
            /\ fresh_tier live (db blank) base (to_currency row) = None.
Proof.
  assert (H : precision_accepted CurrencyService.service)
    by (exists 6%nat; reflexivity).
  split; [exact H|].
  exact (getCurrencyRates_persists CurrencyService.service standard_settings live
           (table_request live) lookup_order completion_order "zar" asked ∅ blank H).
Defined.

